(** * zumservice-ha: the high-availability wrapper around zum-service

    A shallow embedding of [index.js] (the [ZumService] supervisor) and of
    [lib/websocket.js] (the authenticated gateway), followed by the
    properties of the health monitor, the scan loop, the argument builder
    and the gateway that the design document states.

    JavaScript values are a small inductive type with the language's
    truthiness; numbers that the code computes with are integers ([Z]);
    the objects used as dictionaries are finite maps; the event emitter,
    the timers and the child process are explicit fields of the state.
    A callback that waits for the RPC client is a function of the
    settlement of the call ([Resolved] or [Rejected]); the calls of the
    scan loop, whose settlement writes the store, stay in the state while
    they are in flight and settle as inputs of their own.  The RPC client,
    the pseudo-terminal, the storage file, the hash and the formatting
    functions are parameters ([Externals]). *)

From stdpp Require Import base gmap strings list.
From Stdlib Require Import ZArith Lia.

(** ** JavaScript values *)

Module JS.

#[warnings="-register-all"]
Inductive jsval : Type :=
  | JUndefined
  | JNull
  | JBool (b : bool)
  | JNum (n : Z)
  | JStr (s : string)
  | JObj (fields : list (string * jsval)).

(** [!!v]: the values that count as true in a condition and under [||]. *)
Definition truthy (v : jsval) : bool :=
  match v with
  | JUndefined | JNull => false
  | JBool b => b
  | JNum n => negb (n =? 0)%Z
  | JStr s => negb (String.eqb s "")
  | JObj _ => true
  end.

(** [a || b] *)
Definition js_or (a b : jsval) : jsval := if truthy a then a else b.

(** [a === b] on primitives; two object operands are never the same
    reference in the places where the code compares. *)
Definition strict_eq (a b : jsval) : bool :=
  match a, b with
  | JUndefined, JUndefined | JNull, JNull => true
  | JBool x, JBool y => Bool.eqb x y
  | JNum x, JNum y => (x =? y)%Z
  | JStr x, JStr y => String.eqb x y
  | _, _ => false
  end.

(** Property read [o.k] and property write [o.k = v] on an object literal. *)
Fixpoint get_field (k : string) (fields : list (string * jsval)) : jsval :=
  match fields with
  | [] => JUndefined
  | (k', v) :: rest => if String.eqb k k' then v else get_field k rest
  end.

Fixpoint set_field (k : string) (v : jsval) (fields : list (string * jsval))
  : list (string * jsval) :=
  match fields with
  | [] => [(k, v)]
  | (k', v') :: rest =>
      if String.eqb k k' then (k', v) :: rest else (k', v') :: set_field k v rest
  end.

(** [hay.indexOf(needle) !== -1] *)
Fixpoint includes (needle hay : string) : bool :=
  if String.prefix needle hay then true
  else match hay with
       | EmptyString => false
       | String _ rest => includes needle rest
       end.

(** [s.replace(c, by)] with a one-character pattern: first occurrence only. *)
Fixpoint replace_first (c : Ascii.ascii) (by_ : string) (s : string) : string :=
  match s with
  | EmptyString => EmptyString
  | String a rest =>
      if Ascii.eqb a c then by_ +:+ rest else String a (replace_first c by_ rest)
  end.

(** [s.split(' ')] *)
Fixpoint split_space_aux (cur : string) (s : string) : list string :=
  match s with
  | EmptyString => [cur]
  | String a rest =>
      if Ascii.eqb a (Ascii.ascii_of_nat 32) then cur :: split_space_aux "" rest
      else split_space_aux (cur +:+ String a EmptyString) rest
  end.

Definition split_space (s : string) : list string := split_space_aux "" s.

(** The word [tok] stands in [s] between two spaces. *)
Definition carries (tok s : string) : Prop :=
  ∃ before after, s = before +:+ " " +:+ tok +:+ " " +:+ after.

(** Settlement of a promise returned by the RPC client. *)
Inductive outcome (A : Type) : Type :=
  | Resolved (v : A)
  | Rejected (err : jsval).
Arguments Resolved {A} v.
Arguments Rejected {A} err.

End JS.
Export JS.

(** ** What the program takes from its environment

    Library functions and the file system, as the code calls them. *)

Class Externals := {
  sha256 : jsval → string;
  (** how [util.format] prints a [%s] argument *)
  format_s : jsval → string;
  (** [err.toString()] *)
  to_string : jsval → string;
  path_resolve : string → string;
  homedir : string;
  (** [path.resolve(__dirname, './zum-service' + ext)] and
      [path.resolve(__dirname, './zum-service.log')] *)
  default_path : string;
  default_logFile : string;
  existsSync : string → bool;
  (** the content node-storage loads from the given file *)
  load_storage : string → gmap string Z;
  (** [JSON.parse]; [None] when it throws *)
  JSON_parse : string → option jsval;
  (** the value returned by the k-th call of [nonce()] *)
  nonce_gen : nat → Z;
  (** [Object.getOwnPropertyNames] of the RPC client's prototype *)
  api_methods : list string;
}.

(** ** lib/websocket.js *)

Module WebSocket.

(** What a connection was sent: event name and payload. *)
Definition frame : Type := string * jsval.

(** A socket.io connection, as far as the server drives it: the frames
    emitted to it and the number of times the command listeners were
    attached to it. *)
Record Socket := {
  received : list frame;
  listeners : nat;
}.

(** [permittedClients] maps a socket id to the socket carrying that id;
    the sockets live in [sockets], so the dictionary is its set of keys. *)
Record t := {
  password : jsval;
  port : Z;
  permittedClients : gset string;
  sockets : gmap string Socket;
}.

Definition with_permitted (p : gset string) (w : t) : t :=
  {| password := password w; port := port w;
     permittedClients := p; sockets := sockets w |}.

Definition with_sockets (s : gmap string Socket) (w : t) : t :=
  {| password := password w; port := port w;
     permittedClients := permittedClients w; sockets := s |}.

Section Gateway.
Context {ext : Externals}.

(** The constructor: [opts.password || false], hashed when set;
    [opts.port || 17071]. *)
Definition new (opt_password : jsval) (opt_port : Z) : t :=
  let pw := js_or opt_password (JBool false) in
  {| password := if truthy pw then JStr (sha256 pw) else pw;
     port := if (opt_port =? 0)%Z then 17071%Z else opt_port;
     permittedClients := ∅;
     sockets := ∅ |}.

(** [socket.emit(event, data)] on the socket with the given id. *)
Definition socket_emit (id : string) (event : string) (data : jsval) (w : t) : t :=
  with_sockets
    (alter (λ sk, {| received := received sk ++ [(event, data)];
                     listeners := listeners sk |}) id (sockets w)) w.

(** [broadcast(opts)]: the loop over the keys of [permittedClients].  The
    event of every call in the program is a string; [socket.emit] is taken
    not to throw, so the [catch] of the loop is not entered (what the
    service does with an [error] of the gateway is [ws_error] below). *)
Definition broadcast (event data : jsval) (w : t) : bool * t :=
  let event := js_or event (JBool false) in
  let data := js_or data (JObj []) in
  if negb (truthy event) then (false, w)
  else match event with
       | JStr name =>
           (true, foldr (λ key acc, socket_emit key name data acc) w
                        (elements (permittedClients w)))
       | _ => (false, w)
       end.

(** [send(opts)] with [opts.socket] the socket of the given id. *)
Definition send (id : string) (event data : jsval) (w : t) : bool * t :=
  let event := js_or event (JBool false) in
  let data := js_or data (JObj []) in
  if negb (truthy event) then (false, w)
  else match event with
       | JStr name => (true, socket_emit id name data w)
       | _ => (false, w)
       end.

End Gateway.
End WebSocket.

(** ** index.js: the supervisor *)

Module ZumService.

Local Open Scope Z_scope.

(** The options object handed to the constructor.  Numeric options are
    [None] when absent; the others are JavaScript values ([JUndefined] when
    absent).  The options that are only passed on to the RPC client
    ([defaultMixin], [defaultFee], ...) are left to that client. *)
Record Opts := {
  o_appName : jsval;
  o_pollingInterval : option Z;
  o_saveInterval : option Z;
  o_scanInterval : option Z;
  o_maxPollingFailures : option Z;
  o_timeout : option Z;
  o_enableWebSocket : jsval;
  o_path : jsval;
  o_config : jsval;
  o_bindAddress : jsval;
  o_bindPort : option Z;
  o_rpcPassword : jsval;
  o_rpcLegacySecurity : jsval;
  o_containerFile : jsval;
  o_containerPassword : jsval;
  o_logFile : jsval;
  o_logLevel : option Z;
  o_syncFromZero : jsval;
  o_daemonRpcAddress : jsval;
  o_daemonRpcPort : option Z;
}.

(** [new ZumService()] and [new ZumService({})] *)
Definition no_opts : Opts :=
  {| o_appName := JUndefined; o_pollingInterval := None; o_saveInterval := None;
     o_scanInterval := None; o_maxPollingFailures := None; o_timeout := None;
     o_enableWebSocket := JUndefined; o_path := JUndefined; o_config := JUndefined;
     o_bindAddress := JUndefined; o_bindPort := None; o_rpcPassword := JUndefined;
     o_rpcLegacySecurity := JUndefined; o_containerFile := JUndefined;
     o_containerPassword := JUndefined; o_logFile := JUndefined; o_logLevel := None;
     o_syncFromZero := JUndefined; o_daemonRpcAddress := JUndefined;
     o_daemonRpcPort := None |}.

(** [opts.x || d] for a numeric option: absent and [0] both give [d]. *)
Definition num_or (o : option Z) (d : Z) : Z :=
  match o with
  | Some n => if n =? 0 then d else n
  | None => d
  end.

(** The fields the constructor assigns from the options and that no
    method changes afterwards. *)
Record Config := {
  appName : jsval;
  pollingInterval : Z;
  saveInterval : Z;
  scanInterval : Z;
  maxPollingFailures : Z;
  timeout : Z;
  enableWebSocket : jsval;
  path : jsval;
  config : jsval;
  bindAddress : jsval;
  bindPort : Z;
  rpcPassword : jsval;
  rpcLegacySecurity : jsval;
  containerFile : jsval;
  containerPassword : jsval;
  logFile : jsval;
  logLevel : Z;
  syncFromZero : jsval;
  daemonRpcAddress : jsval;
  daemonRpcPort : Z;
  dataDir : jsval;
}.

(** The timer behind [this.trigger].  The field keeps the timer object
    after it has fired; only [_triggerUp] resets the field to [null]. *)
Record Timeout := {
  due : Z;
  fired : bool;
}.

(** The [getTransactions] call a tick leaves in flight, with the [height]
    and [cnt] its callbacks close over. *)
Record ScanRequest := {
  firstBlockIndex : Z;
  scan_blockCount : Z;
}.

(** One [emit(name, ...args)] on the service. *)
Definition emission : Type := string * list jsval.

Record t := {
  conf : Config;
  db : gmap string Z;
  knownBlockCount : Z;
  isRunning : bool;
  synced : bool;
  trigger : option Timeout;
  pollingIntervalPtr : bool;
  saveIntervalPtr : bool;
  scanIntervalPtr : bool;
  webSocket : option WebSocket.t;
  (** every [pty.spawn(path, args)] so far, latest first; [this.child] is
      the head *)
  spawned : list (jsval * list string);
  (** everything emitted on the service, in order *)
  emitted : list emission;
  (** [process.exit(code)] was called *)
  exited : option Z;
  (** milliseconds on the timer clock *)
  clock : Z;
  (** number of calls of [nonce()] so far *)
  nonceCalls : nat;
  (** exceptions that left a handler *)
  uncaught : list string;
  (** the [getTransactions] calls of the scan loop that have not settled
      yet, oldest first *)
  scansInFlight : list ScanRequest;
  (** every [db.put(key, value)] so far, in order, each with the number of
      events the service had emitted when it was made *)
  stored : list (nat * (string * Z));
}.

Definition set_db v (s : t) : t :=
  {| conf := conf s; db := v; knownBlockCount := knownBlockCount s;
     isRunning := isRunning s; synced := synced s; trigger := trigger s;
     pollingIntervalPtr := pollingIntervalPtr s; saveIntervalPtr := saveIntervalPtr s;
     scanIntervalPtr := scanIntervalPtr s; webSocket := webSocket s;
     spawned := spawned s; emitted := emitted s; exited := exited s;
     clock := clock s; nonceCalls := nonceCalls s; uncaught := uncaught s;
     scansInFlight := scansInFlight s; stored := stored s |}.

Definition set_knownBlockCount v (s : t) : t :=
  {| conf := conf s; db := db s; knownBlockCount := v;
     isRunning := isRunning s; synced := synced s; trigger := trigger s;
     pollingIntervalPtr := pollingIntervalPtr s; saveIntervalPtr := saveIntervalPtr s;
     scanIntervalPtr := scanIntervalPtr s; webSocket := webSocket s;
     spawned := spawned s; emitted := emitted s; exited := exited s;
     clock := clock s; nonceCalls := nonceCalls s; uncaught := uncaught s;
     scansInFlight := scansInFlight s; stored := stored s |}.

Definition set_isRunning v (s : t) : t :=
  {| conf := conf s; db := db s; knownBlockCount := knownBlockCount s;
     isRunning := v; synced := synced s; trigger := trigger s;
     pollingIntervalPtr := pollingIntervalPtr s; saveIntervalPtr := saveIntervalPtr s;
     scanIntervalPtr := scanIntervalPtr s; webSocket := webSocket s;
     spawned := spawned s; emitted := emitted s; exited := exited s;
     clock := clock s; nonceCalls := nonceCalls s; uncaught := uncaught s;
     scansInFlight := scansInFlight s; stored := stored s |}.

Definition set_synced v (s : t) : t :=
  {| conf := conf s; db := db s; knownBlockCount := knownBlockCount s;
     isRunning := isRunning s; synced := v; trigger := trigger s;
     pollingIntervalPtr := pollingIntervalPtr s; saveIntervalPtr := saveIntervalPtr s;
     scanIntervalPtr := scanIntervalPtr s; webSocket := webSocket s;
     spawned := spawned s; emitted := emitted s; exited := exited s;
     clock := clock s; nonceCalls := nonceCalls s; uncaught := uncaught s;
     scansInFlight := scansInFlight s; stored := stored s |}.

Definition set_trigger v (s : t) : t :=
  {| conf := conf s; db := db s; knownBlockCount := knownBlockCount s;
     isRunning := isRunning s; synced := synced s; trigger := v;
     pollingIntervalPtr := pollingIntervalPtr s; saveIntervalPtr := saveIntervalPtr s;
     scanIntervalPtr := scanIntervalPtr s; webSocket := webSocket s;
     spawned := spawned s; emitted := emitted s; exited := exited s;
     clock := clock s; nonceCalls := nonceCalls s; uncaught := uncaught s;
     scansInFlight := scansInFlight s; stored := stored s |}.

Definition set_checks (poll save : bool) (s : t) : t :=
  {| conf := conf s; db := db s; knownBlockCount := knownBlockCount s;
     isRunning := isRunning s; synced := synced s; trigger := trigger s;
     pollingIntervalPtr := poll; saveIntervalPtr := save;
     scanIntervalPtr := scanIntervalPtr s; webSocket := webSocket s;
     spawned := spawned s; emitted := emitted s; exited := exited s;
     clock := clock s; nonceCalls := nonceCalls s; uncaught := uncaught s;
     scansInFlight := scansInFlight s; stored := stored s |}.

Definition set_scanIntervalPtr v (s : t) : t :=
  {| conf := conf s; db := db s; knownBlockCount := knownBlockCount s;
     isRunning := isRunning s; synced := synced s; trigger := trigger s;
     pollingIntervalPtr := pollingIntervalPtr s; saveIntervalPtr := saveIntervalPtr s;
     scanIntervalPtr := v; webSocket := webSocket s;
     spawned := spawned s; emitted := emitted s; exited := exited s;
     clock := clock s; nonceCalls := nonceCalls s; uncaught := uncaught s;
     scansInFlight := scansInFlight s; stored := stored s |}.

Definition set_webSocket v (s : t) : t :=
  {| conf := conf s; db := db s; knownBlockCount := knownBlockCount s;
     isRunning := isRunning s; synced := synced s; trigger := trigger s;
     pollingIntervalPtr := pollingIntervalPtr s; saveIntervalPtr := saveIntervalPtr s;
     scanIntervalPtr := scanIntervalPtr s; webSocket := v;
     spawned := spawned s; emitted := emitted s; exited := exited s;
     clock := clock s; nonceCalls := nonceCalls s; uncaught := uncaught s;
     scansInFlight := scansInFlight s; stored := stored s |}.

Definition set_spawned v (s : t) : t :=
  {| conf := conf s; db := db s; knownBlockCount := knownBlockCount s;
     isRunning := isRunning s; synced := synced s; trigger := trigger s;
     pollingIntervalPtr := pollingIntervalPtr s; saveIntervalPtr := saveIntervalPtr s;
     scanIntervalPtr := scanIntervalPtr s; webSocket := webSocket s;
     spawned := v; emitted := emitted s; exited := exited s;
     clock := clock s; nonceCalls := nonceCalls s; uncaught := uncaught s;
     scansInFlight := scansInFlight s; stored := stored s |}.

Definition set_emitted v (s : t) : t :=
  {| conf := conf s; db := db s; knownBlockCount := knownBlockCount s;
     isRunning := isRunning s; synced := synced s; trigger := trigger s;
     pollingIntervalPtr := pollingIntervalPtr s; saveIntervalPtr := saveIntervalPtr s;
     scanIntervalPtr := scanIntervalPtr s; webSocket := webSocket s;
     spawned := spawned s; emitted := v; exited := exited s;
     clock := clock s; nonceCalls := nonceCalls s; uncaught := uncaught s;
     scansInFlight := scansInFlight s; stored := stored s |}.

Definition set_exited v (s : t) : t :=
  {| conf := conf s; db := db s; knownBlockCount := knownBlockCount s;
     isRunning := isRunning s; synced := synced s; trigger := trigger s;
     pollingIntervalPtr := pollingIntervalPtr s; saveIntervalPtr := saveIntervalPtr s;
     scanIntervalPtr := scanIntervalPtr s; webSocket := webSocket s;
     spawned := spawned s; emitted := emitted s; exited := v;
     clock := clock s; nonceCalls := nonceCalls s; uncaught := uncaught s;
     scansInFlight := scansInFlight s; stored := stored s |}.

Definition set_clock v (s : t) : t :=
  {| conf := conf s; db := db s; knownBlockCount := knownBlockCount s;
     isRunning := isRunning s; synced := synced s; trigger := trigger s;
     pollingIntervalPtr := pollingIntervalPtr s; saveIntervalPtr := saveIntervalPtr s;
     scanIntervalPtr := scanIntervalPtr s; webSocket := webSocket s;
     spawned := spawned s; emitted := emitted s; exited := exited s;
     clock := v; nonceCalls := nonceCalls s; uncaught := uncaught s;
     scansInFlight := scansInFlight s; stored := stored s |}.

Definition set_nonceCalls v (s : t) : t :=
  {| conf := conf s; db := db s; knownBlockCount := knownBlockCount s;
     isRunning := isRunning s; synced := synced s; trigger := trigger s;
     pollingIntervalPtr := pollingIntervalPtr s; saveIntervalPtr := saveIntervalPtr s;
     scanIntervalPtr := scanIntervalPtr s; webSocket := webSocket s;
     spawned := spawned s; emitted := emitted s; exited := exited s;
     clock := clock s; nonceCalls := v; uncaught := uncaught s;
     scansInFlight := scansInFlight s; stored := stored s |}.

Definition set_uncaught v (s : t) : t :=
  {| conf := conf s; db := db s; knownBlockCount := knownBlockCount s;
     isRunning := isRunning s; synced := synced s; trigger := trigger s;
     pollingIntervalPtr := pollingIntervalPtr s; saveIntervalPtr := saveIntervalPtr s;
     scanIntervalPtr := scanIntervalPtr s; webSocket := webSocket s;
     spawned := spawned s; emitted := emitted s; exited := exited s;
     clock := clock s; nonceCalls := nonceCalls s; uncaught := v;
     scansInFlight := scansInFlight s; stored := stored s |}.

Definition set_scansInFlight v (s : t) : t :=
  {| conf := conf s; db := db s; knownBlockCount := knownBlockCount s;
     isRunning := isRunning s; synced := synced s; trigger := trigger s;
     pollingIntervalPtr := pollingIntervalPtr s; saveIntervalPtr := saveIntervalPtr s;
     scanIntervalPtr := scanIntervalPtr s; webSocket := webSocket s;
     spawned := spawned s; emitted := emitted s; exited := exited s;
     clock := clock s; nonceCalls := nonceCalls s; uncaught := uncaught s;
     scansInFlight := v; stored := stored s |}.

Definition set_stored v (s : t) : t :=
  {| conf := conf s; db := db s; knownBlockCount := knownBlockCount s;
     isRunning := isRunning s; synced := synced s; trigger := trigger s;
     pollingIntervalPtr := pollingIntervalPtr s; saveIntervalPtr := saveIntervalPtr s;
     scanIntervalPtr := scanIntervalPtr s; webSocket := webSocket s;
     spawned := spawned s; emitted := emitted s; exited := exited s;
     clock := clock s; nonceCalls := nonceCalls s; uncaught := uncaught s;
     scansInFlight := scansInFlight s; stored := v |}.

(** A reading of the state that does not depend on the fields the
    callbacks of the monitor, the supervisor and the gateway assign. *)
Record Untouched {A : Type} (f : t → A) : Prop := {
  ut_knownBlockCount v s : f (set_knownBlockCount v s) = f s;
  ut_isRunning v s : f (set_isRunning v s) = f s;
  ut_synced v s : f (set_synced v s) = f s;
  ut_trigger v s : f (set_trigger v s) = f s;
  ut_checks a b s : f (set_checks a b s) = f s;
  ut_scanIntervalPtr v s : f (set_scanIntervalPtr v s) = f s;
  ut_webSocket v s : f (set_webSocket v s) = f s;
  ut_emitted v s : f (set_emitted v s) = f s;
  ut_exited v s : f (set_exited v s) = f s;
  ut_clock v s : f (set_clock v s) = f s;
  ut_nonceCalls v s : f (set_nonceCalls v s) = f s;
  ut_uncaught v s : f (set_uncaught v s) = f s;
}.

(** Apply a gateway operation to [this.webSocket]. *)
Definition on_webSocket (f : WebSocket.t → WebSocket.t) (s : t) : t :=
  match webSocket s with
  | Some w => set_webSocket (Some (f w)) s
  | None => s
  end.

Section Service.
Context {ext : Externals}.

(** [fixPath]: [None] stands for the [TypeError] of calling [replace] on a
    value that is not a string. *)
Definition fixPath (oldPath : jsval) : option jsval :=
  if negb (truthy oldPath) then Some (JBool false)
  else match oldPath with
       | JStr p =>
           Some (JStr (path_resolve (replace_first (Ascii.ascii_of_nat 126) homedir p)))
       | _ => None
       end.

(** [args[i]] of a listener *)
Definition arg (i : nat) (args : list jsval) : jsval := default JUndefined (args !! i).

Fixpoint assoc {A} (k : string) (l : list (string * A)) : option A :=
  match l with
  | [] => None
  | (k', v) :: rest => if String.eqb k k' then Some v else assoc k rest
  end.

(** The listeners [_setupWebSocket] attaches to the service: for each event
    name, the [{event, data}] it hands to [broadcast]. *)
Definition gateway_listeners : list (string * (list jsval → jsval * jsval)) :=
  [ ("close", λ a, (JStr "close", arg 0 a));
    ("data", λ a, (JStr "data", arg 0 a));
    ("down", λ _, (JStr "down", JUndefined));
    ("error", λ a, (JStr "error", arg 0 a));
    ("info", λ a, (JStr "info", arg 0 a));
    ("save", λ _, (JStr "save", JUndefined));
    ("scan", λ a, (JStr "scan", JObj [("fromBlock", arg 0 a); ("toBlock", arg 1 a)]));
    ("status", λ a, (JStr "status", arg 0 a));
    ("synced", λ _, (JStr "synced", JUndefined));
    ("transaction", λ a, (JStr "transaction", arg 0 a));
    ("warning", λ a, (JStr "info", arg 0 a));
    ("alive", λ _, (JStr "alive", JUndefined)) ].

(** [this.emit(name, ...args)]: the listeners run in the order the
    constructor attached them, the gateway's first (they exist only when
    the gateway was set up), then the constructor's own for [synced] (arm
    the scan interval once) and [down]. *)
Definition emit (name : string) (args : list jsval) (s : t) : t :=
  let s := set_emitted (emitted s ++ [(name, args)]) s in
  let s := match assoc name gateway_listeners with
           | Some h =>
               let '(e, d) := h args in
               on_webSocket (λ w, (WebSocket.broadcast e d w).2) s
           | None => s
           end in
  if String.eqb name "synced" then
    (if scanIntervalPtr s then s else set_scanIntervalPtr true s)
  else if String.eqb name "down" then set_isRunning false s
  else s.

(** [_setupWebSocket]: the gateway is created when [this.enableWebSocket]
    holds (its listeners on the service are those of [emit]). *)
Definition _setupWebSocket (c : Config) : option WebSocket.t :=
  if truthy (enableWebSocket c)
  then Some (WebSocket.new (rpcPassword c) (bindPort c + 1))
  else None.

(** The constructor; [None] when [fixPath] throws.  The store is what
    node-storage finds in the file of the application name. *)
Definition new (opts : Opts) : option t :=
  let logFile0 := js_or (o_logFile opts) (JStr default_logFile) in
  logFile1 ← (if truthy logFile0 then fixPath logFile0 else Some logFile0);
  path1 ← fixPath (js_or (o_path opts) (JStr default_path));
  config1 ← fixPath (js_or (o_config opts) (JBool false));
  containerFile1 ← fixPath (js_or (o_containerFile opts) (JBool false));
  dataDir1 ← fixPath JUndefined;
  let daemon0 := js_or (o_daemonRpcAddress opts) (JStr "127.0.0.1") in
  let c :=
    {| appName := js_or (o_appName opts) (JStr "default");
       pollingInterval := num_or (o_pollingInterval opts) 10;
       saveInterval := num_or (o_saveInterval opts) 10;
       scanInterval := num_or (o_scanInterval opts) 5;
       maxPollingFailures := num_or (o_maxPollingFailures opts) 3;
       timeout := num_or (o_timeout opts) 2000;
       enableWebSocket := js_or (o_enableWebSocket opts) (JBool true);
       path := path1;
       config := config1;
       bindAddress := js_or (o_bindAddress opts) (JStr "127.0.0.1");
       bindPort := num_or (o_bindPort opts) 17070;
       rpcPassword := js_or (o_rpcPassword opts) (JBool false);
       rpcLegacySecurity := js_or (o_rpcLegacySecurity opts) (JBool false);
       containerFile := containerFile1;
       containerPassword := js_or (o_containerPassword opts) (JBool false);
       logFile := logFile1;
       logLevel := num_or (o_logLevel opts) 4;
       syncFromZero := js_or (o_syncFromZero opts) (JBool false);
       daemonRpcAddress :=
         if strict_eq daemon0 (JStr "0.0.0.0") then JStr "127.0.0.1" else daemon0;
       daemonRpcPort := num_or (o_daemonRpcPort opts) 17935;
       dataDir := dataDir1 |} in
  Some {| conf := c;
          db := load_storage ("data/" +:+ format_s (appName c) +:+ ".json");
          knownBlockCount := 0;
          isRunning := false;
          synced := false;
          trigger := None;
          pollingIntervalPtr := false;
          saveIntervalPtr := false;
          scanIntervalPtr := false;
          webSocket := _setupWebSocket c;
          spawned := [];
          emitted := [];
          exited := None;
          clock := 0;
          nonceCalls := 0%nat;
          uncaught := [];
          scansInFlight := [];
          stored := [] |}.

(** *** Health and sync monitor *)

(** The reply of [getStatus]. *)
Record Status := {
  blockCount : Z;
  reply_knownBlockCount : Z;
  lastBlockHash : string;
  peerCount : Z;
}.

Definition status_js (r : Status) : jsval :=
  JObj [("blockCount", JNum (blockCount r));
        ("knownBlockCount", JNum (reply_knownBlockCount r));
        ("lastBlockHash", JStr (lastBlockHash r));
        ("peerCount", JNum (peerCount r))].

(** [_triggerDown]: [setTimeout] with a delay of
    [pollingInterval * maxPollingFailures] milliseconds, unless
    [this.trigger] is set. *)
Definition _triggerDown (s : t) : t :=
  match trigger s with
  | None =>
      set_trigger
        (Some {| due := clock s + pollingInterval (conf s) * maxPollingFailures (conf s);
                 fired := false |}) s
  | Some _ => s
  end.

Definition _triggerUp (s : t) : t :=
  let s := if isRunning s then s else emit "alive" [] (set_isRunning true s) in
  match trigger s with
  | Some _ => set_trigger None s
  | None => s
  end.

(** The timer clock reaches [now]: the callback of [this.trigger] runs if
    it is due and has not run yet. *)
Definition advance (now : Z) (s : t) : t :=
  let s := match trigger s with
           | Some tm =>
               if negb (fired tm) && (due tm <=? now)
               then emit "down" [] (set_trigger (Some {| due := due tm; fired := true |}) s)
               else s
           | None => s
           end in
  set_clock now s.

(** The callback of the polling interval, with the settlement of the
    [getStatus] call it makes. *)
Definition poll_cycle (o : outcome Status) (s : t) : t :=
  match o with
  | Resolved result =>
      let s := emit "status" [status_js result] s in
      let s := set_knownBlockCount (blockCount result) s in
      let s :=
        if reply_knownBlockCount result - blockCount result >? 1 then set_synced false s
        else if (blockCount result + 1 =? reply_knownBlockCount result)
                || (blockCount result =? reply_knownBlockCount result)
        then (if synced s then s else emit "synced" [] (set_synced true s))
        else s in
      _triggerUp s
  | Rejected err =>
      _triggerDown
        (emit "error" [JStr ("Error retrieving wallet status: " +:+ format_s err)] s)
  end.

(** The polling interval fires every [pollingInterval * 1000] milliseconds:
    the clock moves on by one period, then the cycle runs. *)
Definition poll_tick (o : outcome Status) (s : t) : t :=
  poll_cycle o (advance (clock s + pollingInterval (conf s) * 1000) s).

Definition run_polls (os : list (outcome Status)) (s : t) : t :=
  foldl (λ s o, poll_tick o s) s os.

(** The callback of the save interval with the settlement of [save]. *)
Definition save_cycle (o : outcome unit) (s : t) : t :=
  match o with
  | Resolved _ => emit "save" [] s
  | Rejected err =>
      emit "error" [JStr ("Error when saving wallet container: " +:+ format_s err)] s
  end.

Definition _startChecks (s : t) : t := set_checks true true s.

(** *** Process supervisor *)

(** [_stdio]: one line of console output.  The [getAddresses] call of the
    last branch settles in [on_addresses]. *)
Definition _stdio (data : string) (s : t) : t :=
  if includes "Loading container" data then
    emit "info" [JStr "zum-service is loading the wallet container..."] s
  else if includes "The password is wrong" data then
    let s := emit "error" [JStr "************************************************"] s in
    let s := emit "error" [JStr "THE PASSWORD FOR THE WALLET CONTAINER IS INVALID"] s in
    let s := emit "error" [JStr "HALTING THE SERVICE DUE TO ERROR"] s in
    let s := emit "error" [JStr "************************************************"] s in
    set_exited (Some 1) s
  else if includes "Container loaded" data then
    emit "info" [JStr "zum-service has loaded the wallet container..."] s
  else if includes "Wallet loading is finished" data then
    _startChecks (emit "info" [JStr "Wallet loading has finished"] s)
  else s.

Definition on_addresses (o : outcome (list jsval)) (s : t) : t :=
  match o with
  | Resolved addresses =>
      emit "info" [JStr ("Started zum-service with base public address: "
                         +:+ format_s (arg 0 addresses))] s
  | Rejected err =>
      emit "warning" [JStr ("Error retrieving addresses from wallet: " +:+ format_s err)] s
  end.

(** The [data] listener of the child, on the lines of
    [data.trim().split('\r\n')]; nothing runs once the process has exited. *)
Fixpoint on_child_data (lines : list string) (s : t) : t :=
  match lines with
  | [] => s
  | line :: rest =>
      match exited s with
      | Some _ => s
      | None =>
          let s := _stdio line s in
          match exited s with
          | Some _ => s
          | None => on_child_data rest (emit "data" [JStr line] s)
          end
      end
  end.

(** The [error] listener of the child. *)
Definition on_child_error (err : jsval) (s : t) : t :=
  emit "down" [] (emit "error" [JStr ("Error in child process: " +:+ format_s err)] s).

(** The [close] listener of the child, two seconds later. *)
Definition on_child_close (exitcode : jsval) (s : t) : t := emit "close" [exitcode] s.

(** [_buildargs]: the argument list, or [None] for [false]. *)
Definition _buildargs (s : t) : option (list string) * t :=
  let c := conf s in
  let args := "" in
  let args := if truthy (config c) then args +:+ " --config " +:+ format_s (config c)
              else args in
  let args := args +:+ " --bind-address " +:+ format_s (bindAddress c) in
  let args := args +:+ " --bind-port " +:+ format_s (JNum (bindPort c)) in
  let credential :=
    if truthy (rpcPassword c)
    then Some (args +:+ " --rpc-password " +:+ format_s (rpcPassword c))
    else if truthy (rpcLegacySecurity c)
    then Some (args +:+ " --rpc-legacy-security")
    else None in
  match credential with
  | None =>
      (None, emit "error"
               [JStr "Cannot start without either an RPC password or RPC Legacy Security Enabled"] s)
  | Some args =>
      if negb (truthy (containerFile c)) then
        (None, emit "error" [JStr "Cannot start without defining a container file"] s)
      else if negb (match containerFile c with JStr p => existsSync p | _ => false end) then
        (None, emit "error"
                 [JStr "Wallet container file does not exist. Please check your path and try again"] s)
      else
        let args := args +:+ " --container-file " +:+ format_s (containerFile c) in
        let '(args, s) :=
          if negb (truthy (containerPassword c))
          then (args, emit "warning"
                        [JStr "No wallet container password defined. This may work... but you really should use a password"] s)
          else (args +:+ " --container-password " +:+ format_s (containerPassword c), s) in
        let args := if truthy (logFile c) then args +:+ " --log-file " +:+ format_s (logFile c)
                    else args in
        let args := args +:+ " --log-level " +:+ format_s (JNum (logLevel c)) in
        let args := if truthy (syncFromZero c) then args +:+ " --SYNC_FROM_ZERO" else args in
        let args := if truthy (daemonRpcAddress c)
                    then args +:+ " --daemon-address " +:+ format_s (daemonRpcAddress c)
                    else args in
        let args := if negb (daemonRpcPort c =? 0)
                    then args +:+ " --daemon-port " +:+ format_s (JNum (daemonRpcPort c))
                    else args in
        (Some (split_space args), s)
  end.

(** [start()]: the returned value and the state. *)
Definition start (s : t) : jsval * t :=
  let s := emit "info" [JStr "Attempting to start zum-service..."] s in
  let s := set_synced false s in
  match _buildargs s with
  | (None, s) =>
      (JBool false,
       emit "error"
         [JStr "Could not build the zum-service arguments... please check your config and try again"] s)
  | (Some args, s) =>
      let s := set_spawned ((path (conf s), args) :: spawned s) s in
      (JUndefined,
       emit "start" [JStr (format_s (path (conf s)) +:+ String.concat " " args)] s)
  end.

(** [stop()]: the three intervals are cleared and the service is no longer
    synced.  The [exit] written to the console of the child and its kill
    after the grace period act on the child only. *)
Definition stop (s : t) : t :=
  set_synced false (set_scanIntervalPtr false (set_checks false false s)).

(** *** Scan loop *)

(** [db.get('scanHeight')], then [if (!height) height = 1]. *)
Definition scanHeight (s : t) : Z :=
  match db s !! "scanHeight" with
  | Some h => if h =? 0 then 1 else h
  | None => 1
  end.

(** The chain of comparisons on [cnt], as written. *)
Definition batch_step (cnt : Z) : Z :=
  if cnt >? 100 then 1000
  else if cnt >? 100 then 100
  else if cnt >? 10 then 10
  else 1.

(** [if ((height + cnt) > this.knownBlockCount) cnt = ...] *)
Definition batch_clamp (height known cnt : Z) : Z :=
  if height + cnt >? known then known - height - 1 else cnt.

Definition scan_batch (height known : Z) : Z :=
  batch_clamp height known (batch_step (known - height)).

(** The callback of the scan interval up to the RPC call. *)
Definition scan_tick (s : t) : t * option ScanRequest :=
  if negb (synced s) then (s, None)
  else
    let height := scanHeight s in
    if height >=? knownBlockCount s then (s, None)
    else
      let cnt := scan_batch height (knownBlockCount s) in
      (emit "scan" [JNum height; JNum (height + cnt)] s,
       Some {| firstBlockIndex := height; scan_blockCount := cnt |}).

(** [this.db.put(key, value)] *)
Definition db_put (key : string) (value : Z) (s : t) : t :=
  set_stored (stored s ++ [(length (emitted s), (key, value))])
             (set_db (<[key := value]> (db s)) s).

(** The settlement of that call: [then] and [catch]. *)
Definition scan_settle (rq : ScanRequest) (o : outcome (list jsval)) (s : t) : t :=
  let height := firstBlockIndex rq in
  let cnt := scan_blockCount rq in
  match o with
  | Resolved transactions =>
      let s := foldl (λ s tx, emit "transaction" [tx] s) s transactions in
      db_put "scanHeight" (height + cnt) s
  | Rejected err =>
      emit "error"
        [JStr ("Error scanning transactions from " +:+ format_s (JNum height) +:+ " to "
               +:+ format_s (JNum (height + cnt)) +:+ ": " +:+ format_s err)] s
  end.

(** The callback of the scan interval as a whole: the call it makes, if
    any, is in flight from then on.  The callback does not look at the
    calls of earlier ticks: the interval fires every [scanInterval * 1000]
    milliseconds whether they have settled or not. *)
Definition scan_call (s : t) : t :=
  match scan_tick s with
  | (s, Some rq) => set_scansInFlight (scansInFlight s ++ [rq]) s
  | (s, None) => s
  end.

(** The [k]-th of the calls in flight settles, with the [height] and
    [cnt] of its own tick; the calls settle in any order. *)
Definition scan_return (k : nat) (o : outcome (list jsval)) (s : t) : t :=
  match scansInFlight s !! k with
  | Some rq => scan_settle rq o (set_scansInFlight (delete k (scansInFlight s)) s)
  | None => s
  end.

(** *** Gateway: connections *)

Definition socket_emit (id event : string) (data : jsval) (s : t) : t :=
  on_webSocket (WebSocket.socket_emit id event data) s.

(** The [disconnect] listener of a socket; the socket is gone from then on. *)
Definition ws_disconnect (id : string) (s : t) : t :=
  let s := on_webSocket
             (λ w, WebSocket.with_sockets (delete id (WebSocket.sockets w))
                     (WebSocket.with_permitted
                        (WebSocket.permittedClients w ∖ {[id]}) w)) s in
  emit "info" [JStr ("[WEBSOCKET] Client disconnected with socketId: " +:+ id)] s.

(** The [connection] listener of the server. *)
Definition ws_connection (id : string) (s : t) : t :=
  let s := on_webSocket
             (λ w, WebSocket.with_sockets
                     (<[id := {| WebSocket.received := []; WebSocket.listeners := 0 |}]>
                        (WebSocket.sockets w)) w) s in
  let s := socket_emit id "challenge" (JBool true) s in
  emit "info" [JStr ("[WEBSOCKET] Client connected with socketId: " +:+ id)] s.

(** [_registerWebSocketClientEvents]: the command names, and one more
    listener per command on the socket. *)
Definition commands : list string :=
  filter (λ f, f ≠ "constructor" ∧ String.prefix "_" f = false) api_methods.

Definition _registerWebSocketClientEvents (id : string) (s : t) : t :=
  on_webSocket
    (λ w, WebSocket.with_sockets
            (alter (λ sk, {| WebSocket.received := WebSocket.received sk;
                             WebSocket.listeners := S (WebSocket.listeners sk) |})
                   id (WebSocket.sockets w)) w) s.

(** The [challenge] listener of a socket (a socket that is gone has none),
    with the [auth.success] and [auth.failure] listeners of the service
    inlined where the gateway emits them. *)
Definition ws_challenge (id : string) (pw : jsval) (s : t) : t :=
  match webSocket s with
  | None => s
  | Some w =>
      if negb (bool_decide (is_Some (WebSocket.sockets w !! id))) then s
      else if strict_eq pw (WebSocket.password w) then
        let s := on_webSocket
                   (λ w, WebSocket.with_permitted
                           ({[id]} ∪ WebSocket.permittedClients w) w) s in
        let s := _registerWebSocketClientEvents id s in
        let s := if isRunning s
                 then on_webSocket
                        (λ w, (WebSocket.send id (JStr "alive") JUndefined w).2) s
                 else s in
        let s := emit "info"
                   [JStr ("[WEBSOCKET] Client authenticated with socketId: " +:+ id)] s in
        socket_emit id "auth" (JBool true) s
      else
        let s := emit "warning"
                   [JStr ("[WEBSOCKET] Client failed authentication with socketId: " +:+ id)] s in
        let s := socket_emit id "auth" (JBool false) s in
        ws_disconnect id s
  end.

(** The ten-second timer of a connection. *)
Definition ws_auth_timeout (id : string) (s : t) : t :=
  match webSocket s with
  | Some w =>
      if decide (id ∈ WebSocket.permittedClients w) then s
      else match WebSocket.sockets w !! id with
           | Some _ => ws_disconnect id s
           | None => s
           end
  | None => s
  end.

(** The [ready] listener of the service: the gateway emits [ready] half a
    second after it was created. *)
Definition ws_ready (s : t) : t :=
  match webSocket s with
  | Some w =>
      emit "info"
        [JStr ("Accepting WebSocket connections on " +:+ format_s (bindAddress (conf s))
               +:+ ":" +:+ format_s (JNum (bindPort (conf s) + 1))
               +:+ " with password: " +:+ format_s (WebSocket.password w))] s
  | None => s
  end.

(** The two [error] listeners of the service on the gateway: the first
    passes the error on, the second calls [this.error], which is not a
    function. *)
Definition ws_error (err : jsval) (s : t) : t :=
  match webSocket s with
  | Some _ =>
      let s := emit "error" [JStr ("[WEBSOCKET] " +:+ format_s err)] s in
      set_uncaught (uncaught s ++ ["TypeError: this.error is not a function"]) s
  | None => s
  end.

(** *** Gateway: request dispatch *)

(** A call of the RPC client in flight for a command listener, with the
    [data] object its callbacks close over. *)
Record Pending := {
  p_socket : string;
  p_event : string;
  p_data : list (string * jsval);
}.

(** The result of one run of a command listener. *)
Inductive handled : Type :=
  | Called (p : Pending)
  | Threw (what : string).

(** The body of a command listener up to the RPC call:
    [JSON.parse] under [try], then [data.nonce = data.nonce || nonce()].
    The file is in strict mode: reading a property of [null] throws, and
    so does creating a property on a number, a string or a boolean (after
    [nonce()] was called for the right-hand side). *)
Definition command_listener (id evt : string) (raw : string) (s : t) : handled * t :=
  let data := match JSON_parse raw with
              | Some v => v
              | None => JObj []
              end in
  match data with
  | JObj fields =>
      let '(n, s) :=
        if truthy (get_field "nonce" fields) then (get_field "nonce" fields, s)
        else (JNum (nonce_gen (nonceCalls s)), set_nonceCalls (S (nonceCalls s)) s) in
      (Called {| p_socket := id; p_event := evt; p_data := set_field "nonce" n fields |}, s)
  | JNull | JUndefined =>
      (Threw "TypeError: Cannot read property 'nonce'", s)
  | _ =>
      (Threw "TypeError: Cannot create property 'nonce'",
       set_nonceCalls (S (nonceCalls s)) s)
  end.

(** The [then] and [catch] of that call. *)
Definition response (p : Pending) (o : outcome jsval) : jsval :=
  match o with
  | Resolved result => JObj [("nonce", get_field "nonce" (p_data p)); ("data", result)]
  | Rejected err =>
      JObj [("nonce", get_field "nonce" (p_data p)); ("error", JStr (to_string err))]
  end.

Definition request_settle (p : Pending) (o : outcome jsval) (s : t) : t :=
  socket_emit (p_socket p) (p_event p) (response p o) s.

(** The listeners attached to the socket for the event run one after the
    other; an exception leaves the emit and skips the rest. *)
Fixpoint run_listeners (n : nat) (id evt raw : string) (s : t) : list Pending * t :=
  match n with
  | O => ([], s)
  | S n' =>
      match command_listener id evt raw s with
      | (Called p, s) =>
          let '(ps, s) := run_listeners n' id evt raw s in (p :: ps, s)
      | (Threw what, s) => ([], set_uncaught (uncaught s ++ [what]) s)
      end
  end.

(** A client sends the event [evt] with payload [raw] on its socket. *)
Definition ws_request (id evt : string) (raw : string) (s : t) : list Pending * t :=
  match webSocket s with
  | Some w =>
      match WebSocket.sockets w !! id with
      | Some sk =>
          if bool_decide (evt ∈ commands)
          then run_listeners (WebSocket.listeners sk) id evt raw s
          else ([], s)
      | None => ([], s)
      end
  | None => ([], s)
  end.

(** *** The life of the process

    What reaches the service from outside: calls of its methods, output
    and exit of the child, timer callbacks with the settlement of the RPC
    call they make, and gateway traffic.  The callbacks of the polling and
    save intervals do nothing before their call settles, and what they do
    then touches neither the store nor the scan loop: each is one input,
    the callback with its settlement.  The scan loop is different: its
    [then] writes the cursor its own tick computed, and a tick does not
    wait for the calls of the ticks before it ([stop()] clears the
    interval, not the calls).  So the callback of the scan interval is
    one input and the settlement of one of the scan calls in flight is
    another, and they interleave freely.  Nothing runs after
    [process.exit]. *)
Inductive input : Type :=
  | InStart
  | InStop
  | InChildData (lines : list string)
  | InChildError (err : jsval)
  | InChildClose (exitcode : jsval)
  | InAddresses (o : outcome (list jsval))
  | InPoll (o : outcome Status)
  | InSave (o : outcome unit)
  | InScanTick
  | InScanSettle (k : nat) (o : outcome (list jsval))
  | InConnection (id : string)
  | InChallenge (id : string) (pw : jsval)
  | InDisconnect (id : string)
  | InAuthTimeout (id : string)
  | InRequest (id evt raw : string) (o : outcome jsval)
  | InReady
  | InGatewayError (err : jsval).

Definition step (i : input) (s : t) : t :=
  match exited s with
  | Some _ => s
  | None =>
      match i with
      | InStart => (start s).2
      | InStop => stop s
      | InChildData lines => on_child_data lines s
      | InChildError err => on_child_error err s
      | InChildClose exitcode => on_child_close exitcode s
      | InAddresses o => on_addresses o s
      | InPoll o => if pollingIntervalPtr s then poll_tick o s else s
      | InSave o => if saveIntervalPtr s then save_cycle o s else s
      | InScanTick => if scanIntervalPtr s then scan_call s else s
      | InScanSettle k o => scan_return k o s
      | InConnection id => ws_connection id s
      | InChallenge id pw => ws_challenge id pw s
      | InDisconnect id => ws_disconnect id s
      | InAuthTimeout id => ws_auth_timeout id s
      | InRequest id evt raw o =>
          let '(ps, s) := ws_request id evt raw s in
          foldl (λ s p, request_settle p o s) s ps
      | InReady => ws_ready s
      | InGatewayError err => ws_error err s
      end
  end.

Definition run (inputs : list input) (s : t) : t := foldl (λ s i, step i s) s inputs.


(** The inputs other than [start()] and those of the scan loop. *)
Definition plain_input (i : input) : bool :=
  match i with
  | InStart | InScanTick | InScanSettle _ _ => false
  | _ => true
  end.


(** *** The configuration checks of [start], as predicates *)

(** An RPC password or the legacy mode is set. *)
Definition credential_given (c : Config) : bool :=
  truthy (rpcPassword c) || truthy (rpcLegacySecurity c).

(** One of the two is set and the other is not. *)
Definition exactly_one_credential (c : Config) : bool :=
  xorb (truthy (rpcPassword c)) (truthy (rpcLegacySecurity c)).

(** The configuration with another value of [rpcLegacySecurity]. *)
Definition with_rpcLegacySecurity (v : jsval) (c : Config) : Config :=
  {| appName := appName c; pollingInterval := pollingInterval c;
     saveInterval := saveInterval c; scanInterval := scanInterval c;
     maxPollingFailures := maxPollingFailures c; timeout := timeout c;
     enableWebSocket := enableWebSocket c; path := path c; config := config c;
     bindAddress := bindAddress c; bindPort := bindPort c;
     rpcPassword := rpcPassword c; rpcLegacySecurity := v;
     containerFile := containerFile c; containerPassword := containerPassword c;
     logFile := logFile c; logLevel := logLevel c; syncFromZero := syncFromZero c;
     daemonRpcAddress := daemonRpcAddress c; daemonRpcPort := daemonRpcPort c;
     dataDir := dataDir c |}.

(** The option that carries the credential: the password when there is
    one, the legacy mode otherwise. *)
Definition credential_option (c : Config) : string :=
  if truthy (rpcPassword c) then "--rpc-password" else "--rpc-legacy-security".

(** A container file is defined and exists on disk. *)
Definition container_present (c : Config) : bool :=
  truthy (containerFile c)
  && match containerFile c with JStr p => existsSync p | _ => false end.

(** The socket of the connection is still there. *)
Definition connected (id : string) (s : t) : Prop :=
  ∃ w sk, webSocket s = Some w ∧ WebSocket.sockets w !! id = Some sk.

(** The nonce a command listener settles on for an object payload. *)
Definition chosen_nonce (fields : list (string * jsval)) (s : t) : jsval :=
  if truthy (get_field "nonce" fields) then get_field "nonce" fields
  else JNum (nonce_gen (nonceCalls s)).

End Service.

(** The frames a connection has been sent. *)
Definition wire (id : string) (s : t) : list WebSocket.frame :=
  match webSocket s with
  | Some w => match WebSocket.sockets w !! id with
              | Some sk => WebSocket.received sk
              | None => []
              end
  | None => []
  end.

(** The connections that passed the handshake and are still there. *)
Definition authenticated (id : string) (s : t) : bool :=
  match webSocket s with
  | Some w =>
      bool_decide (id ∈ WebSocket.permittedClients w)
      && bool_decide (is_Some (WebSocket.sockets w !! id))
  | None => false
  end.


(** How many times an event was emitted on the service. *)
Definition count_emitted (name : string) (s : t) : nat :=
  length (filter (λ e, e.1 = name) (emitted s)).

(** A socket after one more frame was emitted to it. *)
Definition push (f : WebSocket.frame) (sk : WebSocket.Socket) : WebSocket.Socket :=
  {| WebSocket.received := WebSocket.received sk ++ [f];
     WebSocket.listeners := WebSocket.listeners sk |}.

(** The batch size as the design document words it: backlog over 100
    gives 1000, else backlog over 10 gives 10, else 1. *)
Definition spec_batch (backlog : Z) : Z :=
  if backlog >? 100 then 1000 else if backlog >? 10 then 10 else 1.

End ZumService.

(** ** A reference environment and reference states

    Concrete library functions, used where a property is evaluated on an
    explicit input. *)

Module Sample.
Import ZumService.
Local Open Scope Z_scope.

(** The text of the JSON object with the single member [nonce]. *)
Definition json_nonce (digits : string) : string :=
  let quote := String (Ascii.ascii_of_nat 34) EmptyString in
  "{" +:+ quote +:+ "nonce" +:+ quote +:+ ":" +:+ digits +:+ "}".

Definition externals : Externals :=
  {| sha256 := λ v, match v with JStr p => "sha256:" +:+ p | _ => "sha256:?" end;
     format_s := λ v, match v with JStr p => p | JNum _ => "<n>" | _ => "<v>" end;
     to_string := λ v, match v with JStr p => p | _ => "<v>" end;
     path_resolve := λ p, p;
     homedir := "/home/zum";
     default_path := "/app/zum-service";
     default_logFile := "/app/zum-service.log";
     existsSync := λ p, String.eqb p "/w/container.walletd";
     load_storage := λ _, ∅;
     JSON_parse := λ raw,
       if String.eqb raw (json_nonce "0") then Some (JObj [("nonce", JNum 0)])
       else if String.eqb raw (json_nonce "111") then Some (JObj [("nonce", JNum 111)])
       else if String.eqb raw (json_nonce "222") then Some (JObj [("nonce", JNum 222)])
       else if String.eqb raw "{}" then Some (JObj [])
       else if String.eqb raw "null" then Some JNull
       else None;
     nonce_gen := λ k, 1000 + Z.of_nat k;
     api_methods := ["constructor"; "_post"; "getStatus"; "getBalance"] |}.

(** The state a constructor call returns, [blank] if it throws. *)
Definition blank : t :=
  {| conf := {| appName := JUndefined; pollingInterval := 0; saveInterval := 0;
                scanInterval := 0; maxPollingFailures := 0; timeout := 0;
                enableWebSocket := JUndefined; path := JUndefined; config := JUndefined;
                bindAddress := JUndefined; bindPort := 0; rpcPassword := JUndefined;
                rpcLegacySecurity := JUndefined; containerFile := JUndefined;
                containerPassword := JUndefined; logFile := JUndefined; logLevel := 0;
                syncFromZero := JUndefined; daemonRpcAddress := JUndefined;
                daemonRpcPort := 0; dataDir := JUndefined |};
     db := ∅; knownBlockCount := 0; isRunning := false; synced := false;
     trigger := None; pollingIntervalPtr := false; saveIntervalPtr := false;
     scanIntervalPtr := false; webSocket := None; spawned := []; emitted := [];
     exited := None; clock := 0; nonceCalls := 0%nat; uncaught := [];
     scansInFlight := []; stored := [] |}.

Definition construct (opts : Opts) : t := default blank (new (ext := externals) opts).

(** [new ZumService()] *)
Definition service0 : t := construct no_opts.

(** [new ZumService({enableWebSocket: false})] *)
Definition opts_gateway_off : Opts :=
  {| o_appName := JUndefined; o_pollingInterval := None; o_saveInterval := None;
     o_scanInterval := None; o_maxPollingFailures := None; o_timeout := None;
     o_enableWebSocket := JBool false; o_path := JUndefined; o_config := JUndefined;
     o_bindAddress := JUndefined; o_bindPort := None; o_rpcPassword := JUndefined;
     o_rpcLegacySecurity := JUndefined; o_containerFile := JUndefined;
     o_containerPassword := JUndefined; o_logFile := JUndefined; o_logLevel := None;
     o_syncFromZero := JUndefined; o_daemonRpcAddress := JUndefined;
     o_daemonRpcPort := None |}.

Definition service_gateway_off : t := construct opts_gateway_off.

#[local] Existing Instance externals.

(** A wallet set up as in the example service: a container file that
    exists and an RPC password. *)
Definition opts_wallet : Opts :=
  {| o_appName := JUndefined; o_pollingInterval := None; o_saveInterval := None;
     o_scanInterval := None; o_maxPollingFailures := None; o_timeout := None;
     o_enableWebSocket := JUndefined; o_path := JUndefined; o_config := JUndefined;
     o_bindAddress := JUndefined; o_bindPort := None; o_rpcPassword := JStr "changeme";
     o_rpcLegacySecurity := JUndefined; o_containerFile := JStr "/w/container.walletd";
     o_containerPassword := JUndefined; o_logFile := JUndefined; o_logLevel := None;
     o_syncFromZero := JUndefined; o_daemonRpcAddress := JUndefined;
     o_daemonRpcPort := None |}.

Definition wallet : t := construct opts_wallet.

(** The same with the legacy mode switched on as well. *)
Definition opts_both : Opts :=
  {| o_appName := JUndefined; o_pollingInterval := None; o_saveInterval := None;
     o_scanInterval := None; o_maxPollingFailures := None; o_timeout := None;
     o_enableWebSocket := JUndefined; o_path := JUndefined; o_config := JUndefined;
     o_bindAddress := JUndefined; o_bindPort := None; o_rpcPassword := JStr "changeme";
     o_rpcLegacySecurity := JBool true; o_containerFile := JStr "/w/container.walletd";
     o_containerPassword := JUndefined; o_logFile := JUndefined; o_logLevel := None;
     o_syncFromZero := JUndefined; o_daemonRpcAddress := JUndefined;
     o_daemonRpcPort := None |}.

Definition wallet_both : t := construct opts_both.

(** The wallet, synced, 500 blocks behind a known block count of 501. *)
Definition wallet_behind : t :=
  set_scanIntervalPtr true (set_synced true (set_knownBlockCount 501 wallet)).



(** The wallet with one connection, [c1], that passed the handshake, and
    one, [c2], that has only connected. *)
Definition wallet_c1 : t :=
  ws_challenge "c1" (JStr "sha256:changeme")
    (ws_connection "c2" (ws_connection "c1" wallet)).

(** A reply of [getStatus] one block short of the network. *)
Definition reply_99_of_100 : Status :=
  {| blockCount := 99; reply_knownBlockCount := 100; lastBlockHash := "";
     peerCount := 8 |}.

(** The gateway of [wallet_c1] and the socket of [c1] in it. *)
Definition gateway_c1 : WebSocket.t :=
  default (WebSocket.new JUndefined 0) (webSocket wallet_c1).

Definition socket_c1 : WebSocket.Socket :=
  default {| WebSocket.received := []; WebSocket.listeners := 0 |}
          (WebSocket.sockets gateway_c1 !! "c1").

(** The socket of [c2] in the gateway of [wallet_c1]. *)
Definition socket_c2 : WebSocket.Socket :=
  default {| WebSocket.received := []; WebSocket.listeners := 0 |}
          (WebSocket.sockets gateway_c1 !! "c2").

(** A reply of [getStatus] ten blocks short of the network, and one in
    which the wallet is a block ahead of it. *)
Definition reply_90_of_100 : Status :=
  {| blockCount := 90; reply_knownBlockCount := 100; lastBlockHash := "";
     peerCount := 8 |}.

Definition reply_101_of_100 : Status :=
  {| blockCount := 101; reply_knownBlockCount := 100; lastBlockHash := "";
     peerCount := 8 |}.

(** [new ZumService({logLevel: 0, bindPort: 0})] *)
Definition opts_zeros : Opts :=
  {| o_appName := JUndefined; o_pollingInterval := None; o_saveInterval := None;
     o_scanInterval := None; o_maxPollingFailures := None; o_timeout := None;
     o_enableWebSocket := JUndefined; o_path := JUndefined; o_config := JUndefined;
     o_bindAddress := JUndefined; o_bindPort := Some 0; o_rpcPassword := JUndefined;
     o_rpcLegacySecurity := JBool true; o_containerFile := JUndefined;
     o_containerPassword := JUndefined; o_logFile := JUndefined; o_logLevel := Some 0;
     o_syncFromZero := JUndefined; o_daemonRpcAddress := JStr "0.0.0.0";
     o_daemonRpcPort := None |}.

Definition service_zeros : t := construct opts_zeros.

End Sample.

(** ** What an observer of the gateway can tell apart *)

Module Gateway.
Import ZumService.

(** The clients the gateway of the service permits. *)
Definition permitted (s : t) : gset string :=
  match webSocket s with
  | Some w => WebSocket.permittedClients w
  | None => ∅
  end.

(** The permitted clients, the stored password and the ids of the sockets
    that are there. *)
Definition view (s : t) : option (gset string * jsval * gset string) :=
  (λ w, (WebSocket.permittedClients w, WebSocket.password w, dom (WebSocket.sockets w)))
    <$> webSocket s.

(** Every permitted client has a socket. *)
Definition permitted_are_connected (s : t) : Prop :=
  ∀ w id, webSocket s = Some w → id ∈ WebSocket.permittedClients w →
          is_Some (WebSocket.sockets w !! id).

(** The inputs that are about a connection coming, going or answering the
    challenge. *)
Definition connection_input (i : input) : bool :=
  match i with
  | InConnection _ | InChallenge _ _ | InDisconnect _ | InAuthTimeout _ => true
  | _ => false
  end.

End Gateway.

(** ** Console output *)

Module Console.

(** A line on which [_stdio] ends the process: it has the wrong-password
    marker and not the container-loading marker, which is tested first. *)
Definition halting_line (line : string) : bool :=
  negb (includes "Loading container" line) && includes "The password is wrong" line.

(** The lines of a chunk up to the first halting line, that line left out. *)
Fixpoint before_halt (lines : list string) : list string :=
  match lines with
  | [] => []
  | line :: rest => if halting_line line then [] else line :: before_halt rest
  end.

(** The string starts with a blank. *)
Definition leading_blank (s : string) : Prop :=
  ∃ rest, s = String (Ascii.ascii_of_nat 32) rest.

(** The [data] events among what was emitted. *)
Definition data_events (s : ZumService.t) : list ZumService.emission :=
  filter (λ e, e.1 = "data") (ZumService.emitted s).

(** The calls of [start()] among the inputs. *)
Definition is_start (i : ZumService.input) : bool :=
  match i with
  | ZumService.InStart => true
  | _ => false
  end.

End Console.

(** ** Replies of [getStatus] *)

Module Reply.
Import ZumService.
Local Open Scope Z_scope.

(** The wallet is more than one block behind the network. *)
Definition far_behind (r : Status) : bool :=
  reply_knownBlockCount r - blockCount r >? 1.

(** The wallet is at the height of the network or one block below. *)
Definition near_tip (r : Status) : bool :=
  (blockCount r + 1 =? reply_knownBlockCount r)
  || (blockCount r =? reply_knownBlockCount r).

End Reply.

(** ** Options of the constructor *)

Module Options.


End Options.

(** * Properties *)

Import ZumService.
Local Open Scope Z_scope.

Arguments emit : simpl never.

(** ** The gateway's broadcast *)

Section BroadcastFacts.
Context {ext : Externals}.

Lemma fanout_permitted name data keys w :
  WebSocket.permittedClients
    (foldr (λ key acc, WebSocket.socket_emit key name data acc) w keys)
  = WebSocket.permittedClients w.
Proof. induction keys as [|k keys IH]; simpl; auto. Qed.

Lemma fanout_sockets name data keys w id :
  NoDup keys →
  WebSocket.sockets
    (foldr (λ key acc, WebSocket.socket_emit key name data acc) w keys) !! id
  = if bool_decide (id ∈ keys)
    then push (name, data) <$> WebSocket.sockets w !! id
    else WebSocket.sockets w !! id.
Proof.
  induction keys as [|k keys IH]; intros Hnd.
  - reflexivity.
  - apply NoDup_cons in Hnd as [Hk Hnd]. simpl.
    specialize (IH Hnd).
    destruct (decide (k = id)) as [->|Hne].
    + rewrite lookup_alter_eq.
      rewrite IH. rewrite (bool_decide_eq_false_2 _ Hk).
      rewrite bool_decide_eq_true_2 by (left).
      reflexivity.
    + rewrite lookup_alter_ne by done. rewrite IH.
      destruct (decide (id ∈ keys)) as [Hin|Hnin].
      * rewrite !bool_decide_eq_true_2; auto. by right.
      * rewrite !bool_decide_eq_false_2; auto.
        intros [->|?]%elem_of_cons; done.
Qed.

(** A broadcast of a named event reaches every permitted connection once,
    with [{}] in place of a payload that is absent or falsy, and no other
    connection. *)
Lemma broadcast_sockets name data w id :
  String.eqb name "" = false →
  WebSocket.sockets (WebSocket.broadcast (JStr name) data w).2 !! id
  = if bool_decide (id ∈ WebSocket.permittedClients w)
    then push (name, js_or data (JObj [])) <$> WebSocket.sockets w !! id
    else WebSocket.sockets w !! id.
Proof.
  intros Hname.
  assert (Hev : js_or (JStr name) (JBool false) = JStr name)
    by (unfold js_or; simpl; by rewrite Hname).
  unfold WebSocket.broadcast. rewrite Hev.
  replace (truthy (JStr name)) with true by (simpl; by rewrite Hname).
  cbn [negb snd].
  rewrite fanout_sockets by apply NoDup_elements.
  destruct (decide (id ∈ WebSocket.permittedClients w)) as [Hin|Hnin].
  - rewrite !bool_decide_eq_true_2; auto. by apply elem_of_elements.
  - rewrite !bool_decide_eq_false_2; auto. by rewrite elem_of_elements.
Qed.

Lemma broadcast_permitted e data w :
  WebSocket.permittedClients (WebSocket.broadcast e data w).2
  = WebSocket.permittedClients w.
Proof.
  unfold WebSocket.broadcast.
  destruct (negb _); [reflexivity|].
  destruct (js_or e _); try reflexivity. simpl. apply fanout_permitted.
Qed.

End BroadcastFacts.

(** ** What [emit] changes and what it leaves alone *)

Section EmitFacts.
Context {ext : Externals}.

Ltac emit_cases name args s :=
  unfold emit, on_webSocket; cbv zeta;
  destruct (assoc name gateway_listeners) as [h|];
  [destruct (h args) as [e d]|];
  cbn [webSocket set_emitted];
  destruct (webSocket s);
  destruct (String.eqb name "synced");
  destruct (String.eqb name "down");
  cbn; try destruct (scanIntervalPtr s); reflexivity.

Lemma emit_conf name args s : conf (emit name args s) = conf s.
Proof. emit_cases name args s. Qed.

Lemma emit_db name args s : db (emit name args s) = db s.
Proof. emit_cases name args s. Qed.

Lemma emit_scansInFlight name args s :
  scansInFlight (emit name args s) = scansInFlight s.
Proof. emit_cases name args s. Qed.

Lemma emit_stored name args s : stored (emit name args s) = stored s.
Proof. emit_cases name args s. Qed.

Lemma emit_knownBlockCount name args s :
  knownBlockCount (emit name args s) = knownBlockCount s.
Proof. emit_cases name args s. Qed.

Lemma emit_synced name args s : synced (emit name args s) = synced s.
Proof. emit_cases name args s. Qed.

Lemma emit_trigger name args s : trigger (emit name args s) = trigger s.
Proof. emit_cases name args s. Qed.

Lemma emit_spawned name args s : spawned (emit name args s) = spawned s.
Proof. emit_cases name args s. Qed.

Lemma emit_exited name args s : exited (emit name args s) = exited s.
Proof. emit_cases name args s. Qed.

Lemma emit_clock name args s : clock (emit name args s) = clock s.
Proof. emit_cases name args s. Qed.

Lemma emit_nonceCalls name args s : nonceCalls (emit name args s) = nonceCalls s.
Proof. emit_cases name args s. Qed.

Lemma emit_emitted name args s :
  emitted (emit name args s) = emitted s ++ [(name, args)].
Proof. emit_cases name args s. Qed.

Lemma emit_isRunning name args s :
  isRunning (emit name args s)
  = if String.eqb name "down" then false else isRunning s.
Proof.
  destruct (String.eqb name "synced") eqn:Hs.
  - apply String.eqb_eq in Hs as ->. unfold emit, on_webSocket. cbn.
    destruct (webSocket s); cbn; destruct (scanIntervalPtr s); reflexivity.
  - unfold emit, on_webSocket; cbv zeta.
    destruct (assoc name gateway_listeners) as [h|];
      [destruct (h args) as [e d]|];
      cbn [webSocket set_emitted]; rewrite Hs;
      destruct (webSocket s); destruct (String.eqb name "down"); reflexivity.
Qed.

Lemma count_emitted_emit name args s which :
  count_emitted which (emit name args s)
  = (count_emitted which s + if String.eqb name which then 1 else 0)%nat.
Proof.
  unfold count_emitted. rewrite emit_emitted, filter_app, length_app.
  f_equal. cbn. unfold filter, list_filter. cbn.
  destruct (String.eqb_spec name which) as [->|Hne].
  - rewrite decide_True by reflexivity. reflexivity.
  - rewrite decide_False by done. reflexivity.
Qed.

End EmitFacts.

(** ** The constructor *)

Section ConstructorFacts.
Context {ext : Externals}.

Lemma new_conf opts s :
  new opts = Some s →
  enableWebSocket (conf s) = js_or (o_enableWebSocket opts) (JBool true)
  ∧ webSocket s = _setupWebSocket (conf s)
  ∧ rpcPassword (conf s) = js_or (o_rpcPassword opts) (JBool false)
  ∧ rpcLegacySecurity (conf s) = js_or (o_rpcLegacySecurity opts) (JBool false)
  ∧ pollingInterval (conf s) = num_or (o_pollingInterval opts) 10
  ∧ maxPollingFailures (conf s) = num_or (o_maxPollingFailures opts) 3
  ∧ trigger s = None ∧ emitted s = [] ∧ exited s = None.
Proof.
  unfold new. intros Hnew.
  apply bind_Some in Hnew as (logFile1 & _ & Hnew).
  apply bind_Some in Hnew as (path1 & _ & Hnew).
  apply bind_Some in Hnew as (config1 & _ & Hnew).
  apply bind_Some in Hnew as (containerFile1 & _ & Hnew).
  apply bind_Some in Hnew as (dataDir1 & _ & Hnew).
  injection Hnew as <-. cbn. repeat split; reflexivity.
Qed.

Lemma js_or_truthy a b : truthy b = true → truthy (js_or a b) = true.
Proof. unfold js_or. destruct (truthy a) eqn:Ha; auto. Qed.

(** C10.  Whatever options object the constructor is given, also one with
    [enableWebSocket: false], the [enableWebSocket] field of the service
    it returns is true in every condition and the gateway is set up; the
    field is the value [true] itself when the option is a boolean or is
    absent. *)
Theorem C10_enableWebSocket_always_on opts s :
  new opts = Some s →
  truthy (enableWebSocket (conf s)) = true
  ∧ is_Some (webSocket s)
  ∧ (∀ b, o_enableWebSocket opts = JBool b → enableWebSocket (conf s) = JBool true)
  ∧ (o_enableWebSocket opts = JUndefined → enableWebSocket (conf s) = JBool true).
Proof.
  intros Hnew. destruct (new_conf _ _ Hnew) as (Hen & Hws & _).
  assert (Ht : truthy (enableWebSocket (conf s)) = true)
    by (rewrite Hen; apply js_or_truthy; reflexivity).
  split; [exact Ht|]. split.
  - rewrite Hws. unfold _setupWebSocket. rewrite Ht. eauto.
  - split.
    + intros b Hb. rewrite Hen, Hb. destruct b; reflexivity.
    + intros Hu. rewrite Hen, Hu. reflexivity.
Qed.

End ConstructorFacts.

(** ** The scan loop *)

Section ScanFacts.
Context {ext : Externals}.

Lemma batch_step_spec cnt : batch_step cnt = spec_batch cnt.
Proof.
  unfold batch_step, spec_batch.
  destruct (cnt >? 100); [reflexivity|]. reflexivity.
Qed.

Lemma scan_batch_bounds height known :
  height < known →
  0 < scan_batch height known ≤ known - height.
Proof.
  intros Hlt. unfold scan_batch, batch_clamp, batch_step.
  rewrite !Z.gtb_ltb.
  destruct (Z.ltb_spec 100 (known - height));
    [|destruct (Z.ltb_spec 10 (known - height))];
    match goal with
    | |- context [?a <? ?b] => destruct (Z.ltb_spec a b)
    end; lia.
Qed.

Lemma scan_tick_idle s :
  knownBlockCount s ≤ scanHeight s → scan_tick s = (s, None).
Proof.
  intros Hge. unfold scan_tick. destruct (synced s); [|reflexivity]. cbn.
  rewrite Z.geb_leb. destruct (Z.leb_spec (knownBlockCount s) (scanHeight s)); [reflexivity|lia].
Qed.

Lemma scan_tick_request s :
  synced s = true → scanHeight s < knownBlockCount s →
  scan_tick s
  = (emit "scan" [JNum (scanHeight s);
                  JNum (scanHeight s + scan_batch (scanHeight s) (knownBlockCount s))] s,
     Some {| firstBlockIndex := scanHeight s;
             scan_blockCount := scan_batch (scanHeight s) (knownBlockCount s) |}).
Proof.
  intros Hs Hlt. unfold scan_tick. rewrite Hs. cbn.
  rewrite Z.geb_leb. destruct (Z.leb_spec (knownBlockCount s) (scanHeight s)); [lia|reflexivity].
Qed.

(** C4.  On a scan tick of a synced service whose cursor is below the
    known block count, the request starts at the cursor and its batch is
    the step function of the backlog (over 100: 1000; else over 10: 10;
    else 1), clamped so that cursor plus batch stays within the known
    block count; the batch is positive and at most the backlog.  For
    backlogs 5, 50 and 500 the step function gives 1, 10 and 1000, and the
    clamped batches are 1, 10 and 499.  When the cursor is not below the
    known block count the tick does nothing. *)
Theorem C4_scan_batch_step_and_clamp (s : t) :
  (synced s = true → scanHeight s < knownBlockCount s →
   ∃ cnt,
     scan_tick s
     = (emit "scan" [JNum (scanHeight s); JNum (scanHeight s + cnt)] s,
        Some {| firstBlockIndex := scanHeight s; scan_blockCount := cnt |})
     ∧ cnt = batch_clamp (scanHeight s) (knownBlockCount s)
               (spec_batch (knownBlockCount s - scanHeight s))
     ∧ 0 < cnt ≤ knownBlockCount s - scanHeight s
     ∧ scanHeight s + cnt ≤ knownBlockCount s)
  ∧ (knownBlockCount s ≤ scanHeight s → scan_tick s = (s, None))
  ∧ (batch_step 5 = 1 ∧ batch_step 50 = 10 ∧ batch_step 500 = 1000)
  ∧ (∀ h, scan_batch h (h + 5) = 1 ∧ scan_batch h (h + 50) = 10
          ∧ scan_batch h (h + 500) = 499).
Proof.
  split; [|split; [|split]].
  - intros Hs Hlt. exists (scan_batch (scanHeight s) (knownBlockCount s)).
    split; [by apply scan_tick_request|]. split.
    + unfold scan_batch. by rewrite batch_step_spec.
    + pose proof (scan_batch_bounds _ _ Hlt). lia.
  - apply scan_tick_idle.
  - repeat split; reflexivity.
  - intros h. unfold scan_batch, batch_clamp.
    replace (h + 5 - h) with 5 by lia.
    replace (h + 50 - h) with 50 by lia.
    replace (h + 500 - h) with 500 by lia.
    change (batch_step 5) with 1. change (batch_step 50) with 10.
    change (batch_step 500) with 1000.
    rewrite !Z.gtb_ltb.
    destruct (Z.ltb_spec (h + 5) (h + 1)); [lia|].
    destruct (Z.ltb_spec (h + 50) (h + 10)); [lia|].
    destruct (Z.ltb_spec (h + 500) (h + 1000)); [|lia].
    repeat split; lia.
Qed.

End ScanFacts.

(** ** What the callbacks leave alone

    The callbacks of the monitor, of the supervisor and of the gateway
    assign twelve fields of the state.  The store, the scan calls in
    flight and the journal of the store are not among them: only the scan
    loop touches those. *)

Section UntouchedFacts.
Context {ext : Externals} {A : Type} (f : t → A) (Hf : Untouched f).

Lemma on_webSocket_untouched g s : f (on_webSocket g s) = f s.
Proof. unfold on_webSocket. destruct (webSocket s); [apply Hf|reflexivity]. Qed.

Lemma emit_untouched name args s : f (emit name args s) = f s.
Proof.
  unfold emit. cbv zeta.
  destruct (assoc name gateway_listeners) as [h|]; [destruct (h args) as [e d]|];
    (destruct (String.eqb name "synced");
     [match goal with |- context [if ?b then _ else _] => destruct b end
     |destruct (String.eqb name "down")]);
    rewrite ?(ut_scanIntervalPtr f Hf), ?(ut_isRunning f Hf), ?on_webSocket_untouched;
    apply Hf.
Qed.

Ltac untouched :=
  repeat first
    [ rewrite emit_untouched | rewrite on_webSocket_untouched
    | rewrite (ut_knownBlockCount f Hf) | rewrite (ut_isRunning f Hf)
    | rewrite (ut_synced f Hf) | rewrite (ut_trigger f Hf) | rewrite (ut_checks f Hf)
    | rewrite (ut_scanIntervalPtr f Hf) | rewrite (ut_webSocket f Hf)
    | rewrite (ut_emitted f Hf) | rewrite (ut_exited f Hf) | rewrite (ut_clock f Hf)
    | rewrite (ut_nonceCalls f Hf) | rewrite (ut_uncaught f Hf) ].

Ltac split_ifs :=
  repeat match goal with
         | |- context [if ?b then _ else _] => destruct b
         end.

Lemma _triggerUp_untouched s : f (_triggerUp s) = f s.
Proof.
  unfold _triggerUp. destruct (isRunning s).
  - destruct (trigger s); untouched; reflexivity.
  - destruct (trigger _); untouched; reflexivity.
Qed.

Lemma _triggerDown_untouched s : f (_triggerDown s) = f s.
Proof. unfold _triggerDown. destruct (trigger s); untouched; reflexivity. Qed.

Lemma advance_untouched now s : f (advance now s) = f s.
Proof.
  unfold advance. destruct (trigger s) as [tm|]; [|untouched; reflexivity].
  destruct (negb (fired tm) && (due tm <=? now)); untouched; reflexivity.
Qed.

Lemma poll_cycle_untouched o s : f (poll_cycle o s) = f s.
Proof.
  destruct o as [r|err]; unfold poll_cycle.
  - rewrite _triggerUp_untouched. split_ifs; untouched; reflexivity.
  - rewrite _triggerDown_untouched. apply emit_untouched.
Qed.

Lemma poll_tick_untouched o s : f (poll_tick o s) = f s.
Proof. unfold poll_tick. rewrite poll_cycle_untouched. apply advance_untouched. Qed.

Lemma save_cycle_untouched o s : f (save_cycle o s) = f s.
Proof. destruct o; apply emit_untouched. Qed.

Lemma _stdio_untouched line s : f (_stdio line s) = f s.
Proof.
  unfold _stdio, _startChecks.
  repeat (destruct (includes _ line); [untouched; reflexivity|]).
  reflexivity.
Qed.

Lemma on_child_data_untouched lines s : f (on_child_data lines s) = f s.
Proof.
  revert s. induction lines as [|line rest IH]; intros s; cbn; [reflexivity|].
  destruct (exited s); [reflexivity|].
  destruct (exited (_stdio line s)); [apply _stdio_untouched|].
  rewrite IH, emit_untouched. apply _stdio_untouched.
Qed.

Lemma on_addresses_untouched o s : f (on_addresses o s) = f s.
Proof. destruct o; apply emit_untouched. Qed.



Lemma socket_emit_untouched id e d s : f (socket_emit id e d s) = f s.
Proof. apply on_webSocket_untouched. Qed.

Lemma ws_disconnect_untouched id s : f (ws_disconnect id s) = f s.
Proof. unfold ws_disconnect. untouched. reflexivity. Qed.

Lemma ws_connection_untouched id s : f (ws_connection id s) = f s.
Proof. unfold ws_connection, socket_emit. untouched. reflexivity. Qed.

Lemma ws_challenge_untouched id pw s : f (ws_challenge id pw s) = f s.
Proof.
  unfold ws_challenge. destruct (webSocket s) as [w|]; [|reflexivity].
  destruct (negb _); [reflexivity|].
  destruct (strict_eq pw _).
  - rewrite socket_emit_untouched, emit_untouched.
    match goal with |- context [if ?b then _ else _] => destruct b end;
      unfold _registerWebSocketClientEvents; untouched; reflexivity.
  - rewrite ws_disconnect_untouched, socket_emit_untouched. apply emit_untouched.
Qed.

Lemma ws_auth_timeout_untouched id s : f (ws_auth_timeout id s) = f s.
Proof.
  unfold ws_auth_timeout. destruct (webSocket s) as [w|]; [|reflexivity].
  destruct (decide _); [reflexivity|].
  destruct (_ !! id); [apply ws_disconnect_untouched|reflexivity].
Qed.

Lemma ws_ready_untouched s : f (ws_ready s) = f s.
Proof. unfold ws_ready. destruct (webSocket s); [apply emit_untouched|reflexivity]. Qed.

Lemma ws_error_untouched err s : f (ws_error err s) = f s.
Proof. unfold ws_error. destruct (webSocket s); untouched; reflexivity. Qed.

Lemma command_listener_untouched id evt raw s : f (command_listener id evt raw s).2 = f s.
Proof.
  unfold command_listener.
  destruct (match JSON_parse raw with Some v => v | None => JObj [] end);
    cbn [snd]; untouched; try reflexivity.
  destruct (truthy _); cbn [snd]; untouched; reflexivity.
Qed.

Lemma run_listeners_untouched n id evt raw s : f (run_listeners n id evt raw s).2 = f s.
Proof.
  revert s. induction n as [|n IH]; intros s; cbn; [reflexivity|].
  pose proof (command_listener_untouched id evt raw s) as Hc.
  destruct (command_listener id evt raw s) as [[p|what] s1]; cbn [fst snd] in *.
  - specialize (IH s1). destruct (run_listeners n id evt raw s1) as [ps s2].
    cbn [fst snd] in *. congruence.
  - by rewrite (ut_uncaught f Hf).
Qed.

Lemma ws_request_untouched id evt raw s : f (ws_request id evt raw s).2 = f s.
Proof.
  unfold ws_request. destruct (webSocket s) as [w|]; [|reflexivity].
  destruct (_ !! id); [|reflexivity].
  destruct (bool_decide _); [apply run_listeners_untouched|reflexivity].
Qed.

Lemma settle_all_untouched o ps s :
  f (foldl (λ s p, request_settle p o s) s ps) = f s.
Proof.
  revert s. induction ps as [|p ps IH]; intros s; cbn; [reflexivity|].
  rewrite IH. apply socket_emit_untouched.
Qed.

Lemma transactions_untouched txs s :
  f (foldl (λ s tx, emit "transaction" [tx] s) s txs) = f s.
Proof.
  revert s. induction txs as [|tx txs IH]; intros s; cbn; [reflexivity|].
  rewrite IH. apply emit_untouched.
Qed.

(** The inputs other than [start()] and the two of the scan loop. *)
Lemma step_untouched i s : plain_input i = true → f (step i s) = f s.
Proof.
  intros Hi. unfold step. destruct (exited s); [reflexivity|].
  destruct i; try discriminate Hi.
  - unfold stop. untouched. reflexivity.
  - apply on_child_data_untouched.
  - unfold on_child_error. untouched. reflexivity.
  - apply emit_untouched.
  - apply on_addresses_untouched.
  - destruct (pollingIntervalPtr s); [apply poll_tick_untouched|reflexivity].
  - destruct (saveIntervalPtr s); [apply save_cycle_untouched|reflexivity].
  - apply ws_connection_untouched.
  - apply ws_challenge_untouched.
  - apply ws_disconnect_untouched.
  - apply ws_auth_timeout_untouched.
  - pose proof (ws_request_untouched id evt raw s) as Hr.
    destruct (ws_request id evt raw s) as [ps s1]. cbn [fst snd] in Hr.
    by rewrite settle_all_untouched.
  - apply ws_ready_untouched.
  - apply ws_error_untouched.
Qed.

End UntouchedFacts.

Lemma db_untouched : Untouched db.
Proof. by split. Qed.

Lemma scansInFlight_untouched : Untouched scansInFlight.
Proof. by split. Qed.

Lemma stored_untouched : Untouched stored.
Proof. by split. Qed.

(** ** The scan cursor *)

Section CursorFacts.
Context {ext : Externals}.

Lemma scanHeight_db s s' : db s' = db s → scanHeight s' = scanHeight s.
Proof. unfold scanHeight. by intros ->. Qed.




Lemma transactions_emitted txs s :
  emitted (foldl (λ s tx, emit "transaction" [tx] s) s txs)
  = emitted s ++ map (λ tx, ("transaction", [tx])) txs.
Proof.
  revert s. induction txs as [|tx txs IH]; intros s; cbn.
  - by rewrite app_nil_r.
  - rewrite IH, emit_emitted, <- app_assoc. reflexivity.
Qed.

Lemma transactions_stored txs s :
  stored (foldl (λ s tx, emit "transaction" [tx] s) s txs) = stored s.
Proof.
  apply (transactions_untouched stored stored_untouched).
Qed.

Lemma scan_settle_resolved_store rq txs s :
  db (scan_settle rq (Resolved txs) s)
  = <["scanHeight" := firstBlockIndex rq + scan_blockCount rq]> (db s).
Proof.
  unfold scan_settle, db_put. cbn. by rewrite (transactions_untouched db db_untouched).
Qed.


Lemma scan_settle_resolved_emitted rq txs s :
  emitted (scan_settle rq (Resolved txs) s)
  = emitted s ++ map (λ tx, ("transaction", [tx])) txs.
Proof. unfold scan_settle, db_put. cbn. apply transactions_emitted. Qed.

(** The one [db.put] of a settlement is made when all the transaction
    events of the batch have been emitted. *)
Lemma scan_settle_resolved_stored rq txs s :
  stored (scan_settle rq (Resolved txs) s)
  = stored s ++ [((length (emitted s) + length txs)%nat,
                  ("scanHeight", firstBlockIndex rq + scan_blockCount rq))].
Proof.
  unfold scan_settle, db_put. cbn.
  by rewrite transactions_stored, transactions_emitted, length_app, length_map.
Qed.

Lemma scan_settle_scansInFlight rq o s :
  scansInFlight (scan_settle rq o s) = scansInFlight s.
Proof.
  destruct o as [txs|err]; unfold scan_settle, db_put; cbn.
  - apply (transactions_untouched scansInFlight scansInFlight_untouched).
  - apply emit_scansInFlight.
Qed.

(** A settlement stores the [height + cnt] of its own tick, whatever the
    cursor is by then. *)
Lemma scan_settle_cursor rq txs s :
  scanHeight (scan_settle rq (Resolved txs) s)
  = if firstBlockIndex rq + scan_blockCount rq =? 0 then 1
    else firstBlockIndex rq + scan_blockCount rq.
Proof.
  unfold scanHeight. by rewrite scan_settle_resolved_store, lookup_insert_eq.
Qed.

Lemma scanHeight_nonzero s : scanHeight s ≠ 0.
Proof.
  unfold scanHeight. destruct (db s !! "scanHeight") as [h|]; [|lia].
  destruct (Z.eqb_spec h 0); lia.
Qed.









End CursorFacts.

(** ** The health and sync monitor *)

Section MonitorFacts.
Context {ext : Externals}.

Lemma count_set_synced name v s : count_emitted name (set_synced v s) = count_emitted name s.
Proof. reflexivity. Qed.
Lemma count_set_knownBlockCount name v s :
  count_emitted name (set_knownBlockCount v s) = count_emitted name s.
Proof. reflexivity. Qed.
Lemma count_set_isRunning name v s :
  count_emitted name (set_isRunning v s) = count_emitted name s.
Proof. reflexivity. Qed.
Lemma count_set_trigger name v s : count_emitted name (set_trigger v s) = count_emitted name s.
Proof. reflexivity. Qed.
Lemma count_set_clock name v s : count_emitted name (set_clock v s) = count_emitted name s.
Proof. reflexivity. Qed.

Ltac monitor_frame :=
  repeat first
    [ rewrite emit_knownBlockCount | rewrite emit_synced | rewrite emit_trigger
    | rewrite emit_clock | rewrite emit_conf | rewrite emit_isRunning
    | rewrite count_emitted_emit
    | rewrite count_set_synced | rewrite count_set_knownBlockCount
    | rewrite count_set_isRunning | rewrite count_set_trigger | rewrite count_set_clock
    | progress cbn [conf knownBlockCount synced trigger clock isRunning fired due
                    set_db set_knownBlockCount set_isRunning set_synced set_trigger
                    set_checks set_scanIntervalPtr set_webSocket set_spawned
                    set_emitted set_exited set_clock set_nonceCalls set_uncaught
                    String.eqb Ascii.eqb Bool.eqb Nat.add] ].

Ltac case_ifs :=
  repeat match goal with
         | |- context [if ?b then _ else _] => destruct b eqn:?
         end.

Lemma _triggerUp_synced s : synced (_triggerUp s) = synced s.
Proof. unfold _triggerUp. case_ifs; destruct (trigger _); monitor_frame; reflexivity. Qed.

Lemma _triggerUp_knownBlockCount s : knownBlockCount (_triggerUp s) = knownBlockCount s.
Proof. unfold _triggerUp. case_ifs; destruct (trigger _); monitor_frame; reflexivity. Qed.

Lemma _triggerUp_count_synced s :
  count_emitted "synced" (_triggerUp s) = count_emitted "synced" s.
Proof.
  unfold _triggerUp. case_ifs; destruct (trigger _); monitor_frame; auto with arith.
Qed.

Lemma _triggerUp_trigger s : trigger (_triggerUp s) = None.
Proof.
  unfold _triggerUp. destruct (trigger (if isRunning s then _ else _)) eqn:Ht;
    [reflexivity|exact Ht].
Qed.

Lemma advance_synced now s : synced (advance now s) = synced s.
Proof. unfold advance. destruct (trigger s); case_ifs; monitor_frame; reflexivity. Qed.

Lemma advance_count_synced now s :
  count_emitted "synced" (advance now s) = count_emitted "synced" s.
Proof.
  unfold advance. destruct (trigger s); case_ifs; monitor_frame; auto with arith.
Qed.

Lemma poll_cycle_knownBlockCount r s :
  knownBlockCount (poll_cycle (Resolved r) s) = blockCount r.
Proof.
  unfold poll_cycle. rewrite _triggerUp_knownBlockCount.
  case_ifs; monitor_frame; reflexivity.
Qed.

Lemma poll_cycle_near_tip r s :
  blockCount r = reply_knownBlockCount r ∨ blockCount r = reply_knownBlockCount r - 1 →
  synced (poll_cycle (Resolved r) s) = true
  ∧ count_emitted "synced" (poll_cycle (Resolved r) s)
    = (count_emitted "synced" s + if synced s then 0 else 1)%nat.
Proof.
  intros Hnear. unfold poll_cycle.
  rewrite _triggerUp_synced, _triggerUp_count_synced.
  assert (Hgt : (reply_knownBlockCount r - blockCount r >? 1) = false).
  { rewrite Z.gtb_ltb. apply Z.ltb_ge. lia. }
  assert (Heq : ((blockCount r + 1 =? reply_knownBlockCount r)
                 || (blockCount r =? reply_knownBlockCount r)) = true).
  { apply orb_true_iff. rewrite !Z.eqb_eq. lia. }
  rewrite Hgt, Heq. monitor_frame.
  destruct (synced s) eqn:Hs; monitor_frame; split; auto with arith.
Qed.

Lemma poll_cycle_while_synced o s :
  synced s = true →
  count_emitted "synced" (poll_cycle o s) = count_emitted "synced" s.
Proof.
  intros Hs. destruct o as [r|err]; unfold poll_cycle.
  - rewrite _triggerUp_count_synced.
    case_ifs; monitor_frame; auto with arith;
      match goal with
      | H : synced _ = false |- _ => revert H; monitor_frame; congruence
      end.
  - unfold _triggerDown. destruct (trigger _); monitor_frame; auto with arith.
Qed.

Lemma poll_tick_while_synced o s :
  synced s = true →
  count_emitted "synced" (poll_tick o s) = count_emitted "synced" s.
Proof.
  intros Hs. unfold poll_tick.
  rewrite poll_cycle_while_synced by (by rewrite advance_synced).
  apply advance_count_synced.
Qed.

Lemma run_polls_while_synced os s :
  (∀ k, synced (run_polls (take k os) s) = true) →
  count_emitted "synced" (run_polls os s) = count_emitted "synced" s.
Proof.
  revert s. induction os as [|o os IH]; intros s Hall; [reflexivity|].
  cbn. change (foldl _ (poll_tick o s) os) with (run_polls os (poll_tick o s)).
  rewrite IH.
  - apply poll_tick_while_synced. exact (Hall 0%nat).
  - intros k. exact (Hall (S k)).
Qed.

(** C6.  [synced] is edge-triggered.  A successful polling cycle whose
    reply has [blockCount] equal to [knownBlockCount] or to
    [knownBlockCount - 1] leaves the service synced and, when the service
    was not synced before, emits [synced] exactly once; a cycle that
    starts synced emits no [synced], and over any run of cycles during
    which the service stays synced none is emitted. *)
Theorem C6_synced_edge_triggered :
  (∀ s r,
     blockCount r = reply_knownBlockCount r
     ∨ blockCount r = reply_knownBlockCount r - 1 →
     synced s = false →
     synced (poll_cycle (Resolved r) s) = true
     ∧ count_emitted "synced" (poll_cycle (Resolved r) s)
       = S (count_emitted "synced" s))
  ∧ (∀ s o, synced s = true →
            count_emitted "synced" (poll_cycle o s) = count_emitted "synced" s)
  ∧ (∀ os s,
       (∀ k, synced (run_polls (take k os) s) = true) →
       count_emitted "synced" (run_polls os s) = count_emitted "synced" s).
Proof.
  split; [|split].
  - intros s r Hnear Hs. destruct (poll_cycle_near_tip r s Hnear) as [H1 H2].
    split; [exact H1|]. rewrite H2, Hs. lia.
  - intros s o. apply poll_cycle_while_synced.
  - exact run_polls_while_synced.
Qed.

(** C7 (as the code has it).  A successful polling cycle sets the
    [knownBlockCount] of the service to the [blockCount] field of the
    reply, and the next scan tick gates and sizes its batch against that
    value. *)
Theorem C7_knownBlockCount_is_reply_blockCount (s : t) (r : Status) :
  let s' := poll_cycle (Resolved r) s in
  knownBlockCount s' = blockCount r
  ∧ (blockCount r ≤ scanHeight s' → scan_tick s' = (s', None))
  ∧ (synced s' = true → scanHeight s' < blockCount r →
     ∃ s'', scan_tick s'
            = (s'', Some {| firstBlockIndex := scanHeight s';
                            scan_blockCount := scan_batch (scanHeight s') (blockCount r) |})).
Proof.
  intros s'. assert (Hk : knownBlockCount s' = blockCount r)
    by apply poll_cycle_knownBlockCount.
  split; [exact Hk|]. split.
  - intros Hge. apply scan_tick_idle. by rewrite Hk.
  - intros Hs Hlt. eexists. rewrite scan_tick_request by (rewrite ?Hk; done).
    rewrite Hk. reflexivity.
Qed.

(** *** The down-debounce timer *)

Lemma poll_failure_arms err s :
  trigger s = None →
  trigger (poll_cycle (Rejected err) s)
  = Some {| due := clock s + pollingInterval (conf s) * maxPollingFailures (conf s);
            fired := false |}.
Proof.
  intros Ht. unfold poll_cycle, _triggerDown. monitor_frame. rewrite Ht.
  monitor_frame. reflexivity.
Qed.

Lemma poll_failure_pending err s tm :
  trigger s = Some tm → trigger (poll_cycle (Rejected err) s) = Some tm.
Proof.
  intros Ht. unfold poll_cycle, _triggerDown. monitor_frame. rewrite Ht.
  monitor_frame. exact Ht.
Qed.

Lemma poll_failure_count err s which :
  count_emitted which (poll_cycle (Rejected err) s)
  = (count_emitted which s + if String.eqb "error" which then 1 else 0)%nat.
Proof.
  unfold poll_cycle, _triggerDown. destruct (trigger _); monitor_frame; reflexivity.
Qed.

Lemma poll_failure_frame err s :
  conf (poll_cycle (Rejected err) s) = conf s
  ∧ clock (poll_cycle (Rejected err) s) = clock s
  ∧ isRunning (poll_cycle (Rejected err) s) = isRunning s.
Proof.
  unfold poll_cycle, _triggerDown. destruct (trigger _); monitor_frame; auto.
Qed.

(** A failed cycle emits [error], and arms the timer exactly when none is
    set. *)
Lemma poll_failure_error_and_timer err s :
  emitted (poll_cycle (Rejected err) s)
  = emitted s ++ [("error", [JStr ("Error retrieving wallet status: " +:+ format_s err)])]
  ∧ trigger (poll_cycle (Rejected err) s)
    = match trigger s with
      | Some tm => Some tm
      | None =>
          Some {| due := clock s + pollingInterval (conf s) * maxPollingFailures (conf s);
                  fired := false |}
      end.
Proof.
  split.
  - unfold poll_cycle, _triggerDown. destruct (trigger _); cbn; apply emit_emitted.
  - destruct (trigger s) eqn:Ht; [by apply poll_failure_pending|by apply poll_failure_arms].
Qed.

Lemma advance_idle now s :
  trigger s = None → advance now s = set_clock now s.
Proof. intros Ht. unfold advance. by rewrite Ht. Qed.

Lemma advance_fires now s tm :
  trigger s = Some tm → fired tm = false → due tm ≤ now →
  count_emitted "down" (advance now s) = S (count_emitted "down" s)
  ∧ isRunning (advance now s) = false
  ∧ trigger (advance now s) = Some {| due := due tm; fired := true |}
  ∧ conf (advance now s) = conf s.
Proof.
  intros Ht Hf Hdue. unfold advance. rewrite Ht, Hf.
  replace (due tm <=? now) with true by (symmetry; by apply Z.leb_le).
  cbn [negb andb]. monitor_frame. repeat split; try reflexivity; lia.
Qed.

(** During a run of failed cycles the timer fires at most once: the field
    keeps the fired timer, so no further one is armed. *)
Lemma run_polls_cons o os s : run_polls (o :: os) s = run_polls os (poll_tick o s).
Proof. reflexivity. Qed.

Lemma failure_streak_pending errs s tm :
  trigger s = Some tm →
  (count_emitted "down" (run_polls (Rejected <$> errs) s)
   ≤ count_emitted "down" s + if fired tm then 0 else 1)%nat.
Proof.
  revert s tm. induction errs as [|err errs IH]; intros s tm Ht; [cbn; lia|].
  rewrite fmap_cons, run_polls_cons. unfold poll_tick.
  set (now := clock s + pollingInterval (conf s) * 1000).
  destruct (negb (fired tm) && (due tm <=? now)) eqn:Hfire.
  - apply andb_true_iff in Hfire as [Hf Hdue].
    apply negb_true_iff in Hf. apply Z.leb_le in Hdue.
    destruct (advance_fires now s tm Ht Hf Hdue) as (Hc & _ & Ht' & _).
    etrans; [eapply IH; by apply poll_failure_pending|].
    rewrite poll_failure_count, Hc, Hf. monitor_frame. lia.
  - assert (Ha : advance now s = set_clock now s)
      by (unfold advance; by rewrite Ht, Hfire).
    etrans; [eapply (IH _ tm); apply poll_failure_pending; by rewrite Ha|].
    rewrite poll_failure_count, Ha. monitor_frame. destruct (fired tm); lia.
Qed.

Lemma failure_streak_at_most_one_down errs s :
  trigger s = None →
  (count_emitted "down" (run_polls (Rejected <$> errs) s)
   ≤ S (count_emitted "down" s))%nat.
Proof.
  intros Ht. destruct errs as [|err errs]; [cbn; lia|].
  rewrite fmap_cons, run_polls_cons.
  unfold poll_tick. rewrite (advance_idle _ s Ht).
  etrans; [eapply failure_streak_pending; by apply poll_failure_arms|].
  rewrite poll_failure_count. monitor_frame. lia.
Qed.

(** C1 (what the code does).  The timer is armed with a delay of
    [pollingInterval * maxPollingFailures] milliseconds while the polling
    interval is [pollingInterval * 1000] milliseconds.  So, for any
    [maxPollingFailures] up to 1000, [down] is emitted that many
    milliseconds after a single failed cycle, before the next cycle: after
    two failed cycles in a row, also when [maxPollingFailures] is above
    two, [down] has been emitted once and the service is marked not
    running. *)
Theorem C1_down_fires_before_maxPollingFailures (s : t) (e1 e2 : jsval) :
  trigger s = None →
  0 < pollingInterval (conf s) →
  2 < maxPollingFailures (conf s) ≤ 1000 →
  let s1 := run_polls [Rejected e1] s in
  let s2 := run_polls [Rejected e1; Rejected e2] s in
  count_emitted "down"
    (advance (clock s1 + pollingInterval (conf s) * maxPollingFailures (conf s)) s1)
  = S (count_emitted "down" s)
  ∧ count_emitted "down" s2 = S (count_emitted "down" s)
  ∧ isRunning s2 = false.
Proof.
  intros Ht Hp Hm s1' s2. subst s1' s2. rewrite !run_polls_cons.
  change (run_polls [] ?x) with x.
  set (s1 := poll_tick (Rejected e1) s).
  assert (Hs1 : s1 = poll_cycle (Rejected e1)
                       (set_clock (clock s + pollingInterval (conf s) * 1000) s))
    by (subst s1; unfold poll_tick; by rewrite advance_idle).
  assert (Ht1 : trigger s1
                = Some {| due := clock s + pollingInterval (conf s) * 1000
                                 + pollingInterval (conf s) * maxPollingFailures (conf s);
                          fired := false |})
    by (rewrite Hs1; by rewrite poll_failure_arms).
  destruct (poll_failure_frame e1 (set_clock (clock s + pollingInterval (conf s) * 1000) s))
    as (Hc1 & Hk1 & _).
  rewrite <- Hs1 in Hc1, Hk1.
  assert (Hn1 : count_emitted "down" s1 = count_emitted "down" s)
    by (rewrite Hs1, poll_failure_count; monitor_frame; lia).
  clearbody s1. cbn in Hc1, Hk1. unfold poll_tick.
  split.
  { destruct (advance_fires
                (clock s1 + pollingInterval (conf s) * maxPollingFailures (conf s))
                s1 _ Ht1 eq_refl) as (Hd & _); [cbn; lia|].
    by rewrite Hd, Hn1. }
  destruct (advance_fires (clock s1 + pollingInterval (conf s1) * 1000) s1 _ Ht1 eq_refl)
    as (Hd & Hr & _ & _).
  { cbn. rewrite Hk1, Hc1. nia. }
  destruct (poll_failure_frame e2
              (advance (clock s1 + pollingInterval (conf s1) * 1000) s1)) as (_ & _ & Hr2).
  rewrite Hr2, Hr, poll_failure_count, Hd, Hn1. monitor_frame.
  split; [lia|reflexivity].
Qed.

End MonitorFacts.

(** ** The process supervisor *)

Section SupervisorFacts.
Context {ext : Externals}.

Lemma count_set_exited name v s : count_emitted name (set_exited v s) = count_emitted name s.
Proof. reflexivity. Qed.

Lemma step_after_exit i s code : exited s = Some code → step i s = s.
Proof. intros He. unfold step. by rewrite He. Qed.

Lemma run_after_exit inputs s code : exited s = Some code → run inputs s = s.
Proof.
  intros He. induction inputs as [|i inputs IH]; [reflexivity|].
  cbn. rewrite (step_after_exit i s code He). exact IH.
Qed.

(** C2 (as the code has it).  A console line that contains the
    wrong-password marker and not the container-loading marker, which is
    tested first, makes the supervisor emit four [error] signals, two
    banner lines around the two messages, and call [process.exit(1)]:
    nothing is spawned, the rest of the chunk is not looked at, and
    nothing that reaches the process afterwards has any effect. *)
Theorem C2_wrong_password_halts (s : t) (line : string) :
  includes "The password is wrong" line = true →
  includes "Loading container" line = false →
  let s' := _stdio line s in
  emitted s'
  = emitted s ++ [("error", [JStr "************************************************"]);
                  ("error", [JStr "THE PASSWORD FOR THE WALLET CONTAINER IS INVALID"]);
                  ("error", [JStr "HALTING THE SERVICE DUE TO ERROR"]);
                  ("error", [JStr "************************************************"])]
  ∧ count_emitted "error" s' = (count_emitted "error" s + 4)%nat
  ∧ exited s' = Some 1
  ∧ spawned s' = spawned s
  ∧ (∀ rest, exited s = None → on_child_data (line :: rest) s = s')
  ∧ (∀ inputs, run inputs s' = s').
Proof.
  intros Hwrong Hload s'.
  assert (Hs' : s' = set_exited (Some 1)
                       (emit "error" [JStr "************************************************"]
                       (emit "error" [JStr "HALTING THE SERVICE DUE TO ERROR"]
                       (emit "error" [JStr "THE PASSWORD FOR THE WALLET CONTAINER IS INVALID"]
                       (emit "error" [JStr "************************************************"] s)))))
    by (subst s'; unfold _stdio; by rewrite Hload, Hwrong).
  assert (He : exited s' = Some 1) by (by rewrite Hs').
  split; [|split; [|split; [|split; [|split]]]].
  - rewrite Hs'. cbn [emitted set_exited]. rewrite !emit_emitted, <- !app_assoc. reflexivity.
  - rewrite Hs', count_set_exited, !count_emitted_emit. cbn. lia.
  - exact He.
  - rewrite Hs'. cbn [spawned set_exited]. by rewrite !emit_spawned.
  - intros rest Hrun. cbn [on_child_data]. rewrite Hrun. fold s'. by rewrite He.
  - intros inputs. by apply (run_after_exit inputs s' 1).
Qed.

Lemma count_set_spawned name v s :
  count_emitted name (set_spawned v s) = count_emitted name s.
Proof. reflexivity. Qed.

(** *** Words of the argument string *)

Lemma append_assoc (a b c : string) : (a +:+ b) +:+ c = a +:+ b +:+ c.
Proof.
  induction a as [|x a IH]; [reflexivity|].
  change (String x ((a +:+ b) +:+ c) = String x (a +:+ b +:+ c)). by rewrite IH.
Qed.

Lemma carries_app tok s x : carries tok s → carries tok (s +:+ x).
Proof.
  intros (before & after & ->). exists before, (after +:+ x).
  by rewrite !append_assoc.
Qed.

Lemma carries_if tok (b : bool) s1 s2 :
  carries tok s1 → carries tok s2 → carries tok (if b then s1 else s2).
Proof. by destruct b. Qed.

(** The two places where [_buildargs] writes the credential. *)
Lemma carries_rpc_password before after :
  carries "--rpc-password" (before +:+ " --rpc-password " +:+ after).
Proof. by exists before, after. Qed.

Lemma carries_rpc_legacy_security before after :
  carries "--rpc-legacy-security"
          ((before +:+ " --rpc-legacy-security") +:+ " --container-file " +:+ after).
Proof. exists before, ("--container-file " +:+ after). by rewrite append_assoc. Qed.

(** A word between two spaces that [split(' ')] returns whole is one of
    the elements of the split. *)
Lemma split_space_aux_carries tok before after cur :
  (∀ rest, split_space_aux "" (tok +:+ " " +:+ rest) = tok :: split_space_aux "" rest) →
  tok ∈ split_space_aux cur (before +:+ " " +:+ tok +:+ " " +:+ after).
Proof.
  intros Htok. revert cur. induction before as [|x before IH]; intros cur.
  - change ("" +:+ " " +:+ tok +:+ " " +:+ after)
      with (String (Ascii.ascii_of_nat 32) (tok +:+ " " +:+ after)).
    cbn [split_space_aux]. rewrite Ascii.eqb_refl, Htok. set_solver.
  - set (rest := before +:+ " " +:+ tok +:+ " " +:+ after) in *.
    change (tok ∈ (if Ascii.eqb x (Ascii.ascii_of_nat 32)
                   then cur :: split_space_aux "" rest
                   else split_space_aux (cur +:+ String x EmptyString) rest)).
    destruct (Ascii.eqb x (Ascii.ascii_of_nat 32)); [|apply IH].
    apply elem_of_cons. right. apply IH.
Qed.

Lemma split_space_carries tok s :
  (∀ rest, split_space_aux "" (tok +:+ " " +:+ rest) = tok :: split_space_aux "" rest) →
  carries tok s → tok ∈ split_space s.
Proof. intros Htok (before & after & ->). by apply split_space_aux_carries. Qed.

Ltac carried :=
  repeat first
    [ apply carries_if
    | match goal with
      | |- carries _ (?b +:+ " --rpc-password " +:+ ?a) => apply (carries_rpc_password b a)
      | |- carries _ ((?b +:+ " --rpc-legacy-security") +:+ " --container-file " +:+ ?a) =>
          apply (carries_rpc_legacy_security b a)
      end
    | apply carries_app ].

Lemma _buildargs_refuses s :
  credential_given (conf s) && container_present (conf s) = false →
  ∃ msg, _buildargs s = (None, emit "error" [JStr msg] s).
Proof.
  unfold credential_given, container_present, _buildargs. intros Hbad.
  destruct (truthy (rpcPassword (conf s))); cbn in Hbad;
    [|destruct (truthy (rpcLegacySecurity (conf s))); cbn in Hbad; [|by eexists]];
    (destruct (truthy (containerFile (conf s))); cbn in Hbad; cbn [negb];
     [|by eexists];
     rewrite Hbad; cbn [negb]; by eexists).
Qed.

Lemma _buildargs_accepts s :
  credential_given (conf s) && container_present (conf s) = true →
  ∃ args s', _buildargs s = (Some args, s')
             ∧ conf s' = conf s ∧ spawned s' = spawned s
             ∧ count_emitted "error" s' = count_emitted "error" s
             ∧ count_emitted "start" s' = count_emitted "start" s
             ∧ credential_option (conf s) ∈ args.
Proof.
  unfold credential_given, container_present, credential_option, _buildargs. intros Hok.
  apply andb_true_iff in Hok as [Hcred Hcont].
  apply andb_true_iff in Hcont as [Hfile Hdisk].
  rewrite Hfile, Hdisk. cbn [negb].
  destruct (truthy (rpcPassword (conf s)));
    [|destruct (truthy (rpcLegacySecurity (conf s))); [|discriminate]];
    (destruct (negb (truthy (containerPassword (conf s))));
     do 2 eexists; (split; [reflexivity|]);
     rewrite ?emit_conf, ?emit_spawned, ?count_emitted_emit; cbn [String.eqb Ascii.eqb Bool.eqb];
     (split; [reflexivity|]); (split; [reflexivity|]);
     (split; [lia|]); (split; [lia|]);
     (apply split_space_carries; [intros rest; reflexivity|carried])).
Qed.

(** The argument list depends on the configuration only, and with a
    password in it not on the legacy mode. *)
Lemma _buildargs_legacy_ignored s s' v :
  truthy (rpcPassword (conf s)) = true →
  conf s' = with_rpcLegacySecurity v (conf s) →
  (_buildargs s').1 = (_buildargs s).1.
Proof.
  intros Hpw Hconf. unfold _buildargs. rewrite Hconf.
  cbn [config bindAddress bindPort rpcPassword rpcLegacySecurity containerFile
       containerPassword logFile logLevel syncFromZero daemonRpcAddress daemonRpcPort
       with_rpcLegacySecurity].
  rewrite Hpw.
  destruct (negb (truthy (containerFile (conf s)))); [reflexivity|].
  destruct (negb _); [reflexivity|].
  destruct (negb (truthy (containerPassword (conf s)))); reflexivity.
Qed.

Lemma _buildargs_keeps s :
  conf (_buildargs s).2 = conf s ∧ spawned (_buildargs s).2 = spawned s.
Proof.
  unfold _buildargs.
  destruct (truthy (rpcPassword (conf s)));
    [|destruct (truthy (rpcLegacySecurity (conf s)));
      [|cbn; by rewrite emit_conf, emit_spawned]];
    (destruct (negb (truthy (containerFile (conf s))));
     [cbn; by rewrite emit_conf, emit_spawned|];
     destruct (negb _); [cbn; by rewrite emit_conf, emit_spawned|];
     destruct (negb (truthy (containerPassword (conf s)))); cbn;
     by rewrite ?emit_conf, ?emit_spawned).
Qed.

(** What [start()] returns and spawns, read off the argument list. *)
Lemma start_outcome s :
  let s0 := set_synced false (emit "info" [JStr "Attempting to start zum-service..."] s) in
  (start s).1 = match (_buildargs s0).1 with Some _ => JUndefined | None => JBool false end
  ∧ spawned (start s).2
    = match (_buildargs s0).1 with
      | Some args => (path (conf s), args) :: spawned s
      | None => spawned s
      end.
Proof.
  intros s0. unfold start. fold s0.
  assert (Hconf : conf s0 = conf s) by (subst s0; cbn; apply emit_conf).
  assert (Hsp : spawned s0 = spawned s) by (subst s0; cbn; apply emit_spawned).
  destruct (_buildargs_keeps s0) as [Hc1 Hs1].
  destruct (_buildargs s0) as [[args|] s1]; cbn [fst snd] in *.
  - rewrite emit_spawned. cbn [spawned set_spawned]. by rewrite Hc1, Hs1, Hconf, Hsp.
  - by rewrite emit_spawned, Hs1, Hsp.
Qed.

(** C8 (as the code has it).  [start()] spawns the child exactly when an
    RPC password or the legacy mode is set, both being accepted too, and
    the container file is defined and exists on disk.  For every other
    configuration it emits [error] (once from the argument builder, once
    itself), returns [false] and spawns nothing.  The arguments of the
    child carry the option [--rpc-password] when a password is set and
    [--rpc-legacy-security] otherwise; with a password set, what
    [start()] returns and spawns is the same whatever the legacy mode
    is. *)
Theorem C8_start_validates_configuration (s : t) :
  (credential_given (conf s) && container_present (conf s) = false →
   (start s).1 = JBool false
   ∧ spawned (start s).2 = spawned s
   ∧ count_emitted "error" (start s).2 = (count_emitted "error" s + 2)%nat
   ∧ count_emitted "start" (start s).2 = count_emitted "start" s)
  ∧ (credential_given (conf s) && container_present (conf s) = true →
     (start s).1 = JUndefined
     ∧ (∃ args, spawned (start s).2 = (path (conf s), args) :: spawned s
                ∧ credential_option (conf s) ∈ args)
     ∧ count_emitted "error" (start s).2 = count_emitted "error" s
     ∧ count_emitted "start" (start s).2 = S (count_emitted "start" s))
  ∧ (truthy (rpcPassword (conf s)) = true →
     ∀ v s', conf s' = with_rpcLegacySecurity v (conf s) → spawned s' = spawned s →
             (start s').1 = (start s).1
             ∧ spawned (start s').2 = spawned (start s).2).
Proof.
  set (s0 := set_synced false (emit "info" [JStr "Attempting to start zum-service..."] s)).
  assert (Hconf : conf s0 = conf s) by (subst s0; cbn; apply emit_conf).
  assert (Hsp : spawned s0 = spawned s) by (subst s0; cbn; apply emit_spawned).
  assert (Herr : count_emitted "error" s0 = count_emitted "error" s)
    by (subst s0; rewrite count_set_synced, count_emitted_emit; cbn; lia).
  assert (Hst : count_emitted "start" s0 = count_emitted "start" s)
    by (subst s0; rewrite count_set_synced, count_emitted_emit; cbn; lia).
  split; [|split].
  - intros Hcheck; rewrite <- Hconf in Hcheck; unfold start; fold s0.
    destruct (_buildargs_refuses s0 Hcheck) as [msg ->]. cbn [fst snd].
    rewrite !emit_spawned, !count_emitted_emit, Hsp, Herr, Hst. cbn.
    repeat split; lia.
  - intros Hcheck; rewrite <- Hconf in Hcheck; unfold start; fold s0.
    destruct (_buildargs_accepts s0 Hcheck)
      as (args & s1 & -> & Hc1 & Hs1 & He1 & Ht1 & Hopt).
    cbn [fst snd]. rewrite emit_spawned, !count_emitted_emit.
    cbn [spawned set_spawned]. rewrite !count_set_spawned, Hc1, Hs1, He1, Ht1.
    rewrite Hconf in Hopt. rewrite Hconf, Hsp, Herr, Hst. cbn.
    split; [reflexivity|]. split; [by exists args|]. split; lia.
  - intros Hpw v s' Hconf' Hsp'.
    destruct (start_outcome s) as [Hret Hspawn].
    destruct (start_outcome s') as [Hret' Hspawn'].
    rewrite Hret, Hret', Hspawn, Hspawn'.
    rewrite (_buildargs_legacy_ignored s0 _ v).
    + rewrite Hconf', Hsp'. done.
    + by rewrite Hconf.
    + cbn. rewrite !emit_conf. by rewrite Hconf'.
Qed.

End SupervisorFacts.

(** ** The gateway *)

Section GatewayFacts.
Context {ext : Externals}.

Lemma emit_webSocket name args s :
  webSocket (emit name args s)
  = match assoc name gateway_listeners with
    | Some h => (λ w, (WebSocket.broadcast (h args).1 (h args).2 w).2) <$> webSocket s
    | None => webSocket s
    end.
Proof.
  unfold emit, on_webSocket; cbv zeta.
  destruct (assoc name gateway_listeners) as [h|];
    [destruct (h args) as [e d]|];
    cbn [webSocket set_emitted fst snd];
    destruct (webSocket s) eqn:Hw;
    destruct (String.eqb name "synced");
    destruct (String.eqb name "down");
    cbn; try destruct (scanIntervalPtr s); cbn; rewrite ?Hw; reflexivity.
Qed.

Lemma wire_broadcast name data s w id :
  webSocket s = Some w →
  String.eqb name "" = false →
  match WebSocket.sockets (WebSocket.broadcast (JStr name) data w).2 !! id with
  | Some sk => WebSocket.received sk
  | None => []
  end
  = if authenticated id s
    then wire id s ++ [(name, js_or data (JObj []))]
    else wire id s.
Proof.
  intros Hw Hname. unfold wire, authenticated. rewrite Hw, broadcast_sockets by done.
  destruct (bool_decide (id ∈ WebSocket.permittedClients w)); cbn [andb]; [|reflexivity].
  destruct (WebSocket.sockets w !! id) as [sk|] eqn:Hsk; reflexivity.
Qed.

(** What a connection is sent when the service emits an event the gateway
    listens to. *)
Lemma wire_emit name args s id h e :
  assoc name gateway_listeners = Some h →
  (h args).1 = JStr e →
  String.eqb e "" = false →
  wire id (emit name args s)
  = if authenticated id s
    then wire id s ++ [(e, js_or (h args).2 (JObj []))]
    else wire id s.
Proof.
  intros Hh He Hne. unfold wire at 1. rewrite emit_webSocket, Hh, He.
  destruct (webSocket s) as [w|] eqn:Hw; cbn [fmap option_fmap option_map].
  - by rewrite (wire_broadcast e _ s w id Hw Hne).
  - unfold authenticated, wire. by rewrite Hw.
Qed.

(** An event the gateway does not listen to reaches no connection. *)
Lemma wire_emit_unheard name args s id :
  assoc name gateway_listeners = None → wire id (emit name args s) = wire id s.
Proof. intros Hh. unfold wire. by rewrite emit_webSocket, Hh. Qed.

(** The events that are relayed under their own name: a connection that
    passed the handshake is sent the event with the first argument as
    payload ([{}] when that is absent or falsy; the two block numbers as
    one object for [scan]); any other connection is sent nothing. *)
Lemma fanout_named name args s id :
  name ∈ ["alive"; "close"; "data"; "down"; "error"; "info"; "save"; "scan";
          "status"; "synced"; "transaction"] →
  ∃ payload,
    wire id (emit name args s)
    = if authenticated id s
      then wire id s ++ [(name, js_or payload (JObj []))]
      else wire id s.
Proof.
  intros Hin. repeat (apply elem_of_cons in Hin as [->|Hin]);
    [..|by apply elem_of_nil in Hin];
    eexists; erewrite wire_emit; try reflexivity.
Qed.

(** A connection that has not passed the handshake is sent nothing,
    whatever the service emits. *)
Lemma fanout_skips_unauthenticated name args s id :
  authenticated id s = false → wire id (emit name args s) = wire id s.
Proof.
  intros Hno. destruct (assoc name gateway_listeners) as [h|] eqn:Hh;
    [|by apply wire_emit_unheard].
  unfold wire at 1. rewrite emit_webSocket, Hh.
  destruct (webSocket s) as [w|] eqn:Hw; cbn [fmap option_fmap option_map];
    [|unfold wire; by rewrite Hw].
  unfold WebSocket.broadcast.
  destruct (negb _); [unfold wire; by rewrite Hw|].
  destruct (js_or (h args).1 _) as [| |?|?|ename|?]; try (unfold wire; by rewrite Hw).
  cbn [snd]. rewrite fanout_sockets by apply NoDup_elements.
  unfold authenticated in Hno. rewrite Hw in Hno. unfold wire. rewrite Hw.
  destruct (decide (id ∈ WebSocket.permittedClients w)) as [Hin|Hnin].
  - rewrite (bool_decide_eq_true_2 _ Hin) in Hno. cbn in Hno.
    apply bool_decide_eq_false in Hno.
    destruct (WebSocket.sockets w !! id) eqn:Hsk; [exfalso; eauto|].
    by destruct (bool_decide _).
  - rewrite bool_decide_eq_false_2; [reflexivity|]. by rewrite elem_of_elements.
Qed.

(** No listener of the gateway broadcasts under the name [warning]. *)
Lemma no_frame_named_warning name h args :
  assoc name gateway_listeners = Some h → (h args).1 ≠ JStr "warning".
Proof.
  unfold gateway_listeners. cbn [assoc].
  repeat (destruct (String.eqb name _); [intros [= <-]; discriminate|]).
  discriminate.
Qed.

Lemma broadcast_keeps_sockets e d w id :
  is_Some (WebSocket.sockets (WebSocket.broadcast e d w).2 !! id)
  ↔ is_Some (WebSocket.sockets w !! id).
Proof.
  unfold WebSocket.broadcast.
  destruct (negb _); [reflexivity|].
  destruct (js_or e _); try reflexivity. cbn [snd].
  rewrite fanout_sockets by apply NoDup_elements.
  destruct (bool_decide _); [apply fmap_is_Some|reflexivity].
Qed.

(** Emitting an event does not change who has passed the handshake. *)
Lemma emit_authenticated name args s id :
  authenticated id (emit name args s) = authenticated id s.
Proof.
  unfold authenticated. rewrite emit_webSocket.
  destruct (assoc name gateway_listeners) as [h|]; [|reflexivity].
  destruct (webSocket s) as [w|]; [|reflexivity]. cbn [fmap option_fmap option_map].
  rewrite broadcast_permitted. f_equal.
  apply bool_decide_ext, broadcast_keeps_sockets.
Qed.

(** A new connection is sent the challenge and nothing else. *)
Lemma connection_is_challenged id s w :
  webSocket s = Some w → id ∉ WebSocket.permittedClients w →
  wire id (ws_connection id s) = [("challenge", JBool true)]
  ∧ authenticated id (ws_connection id s) = false.
Proof.
  intros Hw Hnot. unfold ws_connection.
  set (s1 := socket_emit id "challenge" (JBool true) _).
  assert (Hw1 : wire id s1 = [("challenge", JBool true)]).
  { subst s1. unfold wire, socket_emit, on_webSocket. rewrite Hw. cbn.
    by rewrite lookup_alter_eq, lookup_insert_eq. }
  assert (Ha1 : authenticated id s1 = false).
  { subst s1. unfold authenticated, socket_emit, on_webSocket. rewrite Hw. cbn.
    by rewrite bool_decide_eq_false_2. }
  split.
  - by rewrite fanout_skips_unauthenticated.
  - by rewrite emit_authenticated.
Qed.

(** C3 (what the code does).  A [warning] of the service reaches the
    authenticated connections under the event name [info]: the listener
    the gateway attaches for [warning] broadcasts [{event: 'info'}]. *)
Theorem C3_warning_is_broadcast_as_info (s : t) (id msg : string) :
  authenticated id s = true →
  wire id (emit "warning" [JStr msg] s)
  = wire id s ++ [("info", js_or (JStr msg) (JObj []))].
Proof.
  intros Hauth. erewrite wire_emit; try reflexivity.
  by rewrite Hauth.
Qed.

(** *** Request dispatch *)

Lemma get_set_field k v fields : get_field k (set_field k v fields) = v.
Proof.
  induction fields as [|[k' v'] rest IH]; cbn.
  - by rewrite String.eqb_refl.
  - destruct (String.eqb k k') eqn:Hk; cbn; rewrite Hk; [reflexivity|exact IH].
Qed.

Lemma wire_socket_emit id e d s :
  connected id s → wire id (socket_emit id e d s) = wire id s ++ [(e, d)].
Proof.
  intros (w & sk & Hw & Hsk). unfold wire, socket_emit, on_webSocket.
  rewrite Hw. cbn. rewrite lookup_alter_eq, Hsk. reflexivity.
Qed.

Lemma wire_socket_emit_other id id' e d s :
  id' ≠ id → wire id' (socket_emit id e d s) = wire id' s.
Proof.
  intros Hne. unfold wire, socket_emit, on_webSocket.
  destruct (webSocket s) as [w|] eqn:Hw; cbn; rewrite ?Hw; [|reflexivity].
  by rewrite lookup_alter_ne.
Qed.

Lemma connected_socket_emit id id' e d s :
  connected id s → connected id (socket_emit id' e d s).
Proof.
  intros (w & sk & Hw & Hsk). unfold connected, socket_emit, on_webSocket.
  rewrite Hw. cbn.
  destruct (decide (id' = id)) as [->|Hne].
  - eexists _, (push (e, d) sk). split; [reflexivity|].
    cbn. by rewrite lookup_alter_eq, Hsk.
  - eexists _, sk. split; [reflexivity|].
    cbn. by rewrite lookup_alter_ne.
Qed.

Lemma command_listener_object id evt raw s fields :
  match JSON_parse raw with Some v => v | None => JObj [] end = JObj fields →
  ∃ s', command_listener id evt raw s
        = (Called {| p_socket := id; p_event := evt;
                     p_data := set_field "nonce" (chosen_nonce fields s) fields |}, s')
        ∧ webSocket s' = webSocket s.
Proof.
  intros Hdata. unfold command_listener, chosen_nonce. rewrite Hdata.
  destruct (truthy (get_field "nonce" fields)); eexists; split; reflexivity.
Qed.

(** C9 (as the code has it).  A connection that passed the handshake once
    sends a command whose payload is the text of a JSON object, or is not
    JSON at all (then it counts as [{}]).  One call of the RPC client is
    made for it.  Its nonce is the [nonce] member of the payload when that
    is truthy and a generated one otherwise: also for a supplied [0],
    empty string, [false] or [null].  Whenever the call settles, that
    connection and no other is sent one frame under the command name:
    [{nonce, data}] on success, [{nonce, error}] on failure.  So responses
    to several calls in flight carry each its own nonce, in whatever order
    they settle. *)
Theorem C9_response_carries_request_nonce
  (s : t) (id evt raw : string) (w : WebSocket.t) (sk : WebSocket.Socket)
  (fields : list (string * jsval)) :
  webSocket s = Some w →
  WebSocket.sockets w !! id = Some sk →
  WebSocket.listeners sk = 1%nat →
  evt ∈ commands →
  match JSON_parse raw with Some v => v | None => JObj [] end = JObj fields →
  ∃ p s',
    ws_request id evt raw s = ([p], s')
    ∧ p_socket p = id ∧ p_event p = evt
    ∧ get_field "nonce" (p_data p) = chosen_nonce fields s
    ∧ wire id s' = wire id s
    ∧ (∀ result s2,
         connected id s2 →
         wire id (request_settle p (Resolved result) s2)
         = wire id s2 ++ [(evt, JObj [("nonce", chosen_nonce fields s); ("data", result)])])
    ∧ (∀ err s2,
         connected id s2 →
         wire id (request_settle p (Rejected err) s2)
         = wire id s2 ++ [(evt, JObj [("nonce", chosen_nonce fields s);
                                      ("error", JStr (to_string err))])])
    ∧ (∀ o s2 id', id' ≠ id → wire id' (request_settle p o s2) = wire id' s2)
    ∧ (∀ p' o o' s2,
         p_socket p' = id → connected id s2 →
         wire id (request_settle p' o' (request_settle p o s2))
         = wire id s2 ++ [(evt, response p o); (p_event p', response p' o')]
         ∧ wire id (request_settle p o (request_settle p' o' s2))
           = wire id s2 ++ [(p_event p', response p' o'); (evt, response p o)]).
Proof.
  intros Hw Hsk Hone Hevt Hdata.
  destruct (command_listener_object id evt raw s fields Hdata) as (s' & Hcall & Hws).
  exists {| p_socket := id; p_event := evt;
            p_data := set_field "nonce" (chosen_nonce fields s) fields |}, s'.
  split; [|split; [reflexivity|split; [reflexivity|split; [apply get_set_field|]]]].
  - unfold ws_request. rewrite Hw, Hsk, Hone.
    rewrite bool_decide_eq_true_2 by done. cbn [run_listeners]. by rewrite Hcall.
  - split; [unfold wire; by rewrite Hws|].
    split; [|split; [|split]].
    + intros result s2 Hc. unfold request_settle. cbn [p_socket p_event].
      rewrite wire_socket_emit by done. unfold response. cbn [p_data].
      by rewrite get_set_field.
    + intros err s2 Hc. unfold request_settle. cbn [p_socket p_event].
      rewrite wire_socket_emit by done. unfold response. cbn [p_data].
      by rewrite get_set_field.
    + intros o s2 id' Hne. unfold request_settle. by apply wire_socket_emit_other.
    + intros p' o o' s2 Hp' Hc. unfold request_settle. rewrite Hp'. cbn [p_socket p_event].
      rewrite !wire_socket_emit, <- !app_assoc by (try apply connected_socket_emit; done).
      split; reflexivity.
Qed.

End GatewayFacts.

(** * Further properties of the code *)

Set Warnings "-clear-no-such-hyp".

(** ** [emit] and the three intervals *)

Section EmitIntervals.
Context {ext : Externals}.

Lemma emit_scanIntervalPtr name args s :
  scanIntervalPtr (emit name args s)
  = if String.eqb name "synced" then true else scanIntervalPtr s.
Proof.
  unfold emit, on_webSocket. cbv zeta.
  destruct (assoc name gateway_listeners) as [h|]; [destruct (h args)|];
    cbn [webSocket set_emitted]; destruct (webSocket s);
    destruct (String.eqb name "synced"); destruct (String.eqb name "down");
    cbn; try destruct (scanIntervalPtr s) eqn:Hs; cbn; rewrite ?Hs; reflexivity.
Qed.

Lemma emit_pollingIntervalPtr name args s :
  pollingIntervalPtr (emit name args s) = pollingIntervalPtr s.
Proof.
  unfold emit, on_webSocket. cbv zeta.
  destruct (assoc name gateway_listeners) as [h|]; [destruct (h args)|];
    cbn [webSocket set_emitted]; destruct (webSocket s);
    destruct (String.eqb name "synced"); destruct (String.eqb name "down");
    cbn; try destruct (scanIntervalPtr s); reflexivity.
Qed.

Lemma emit_saveIntervalPtr name args s :
  saveIntervalPtr (emit name args s) = saveIntervalPtr s.
Proof.
  unfold emit, on_webSocket. cbv zeta.
  destruct (assoc name gateway_listeners) as [h|]; [destruct (h args)|];
    cbn [webSocket set_emitted]; destruct (webSocket s);
    destruct (String.eqb name "synced"); destruct (String.eqb name "down");
    cbn; try destruct (scanIntervalPtr s); reflexivity.
Qed.

End EmitIntervals.

(** From here on [emit] is reasoned about through its lemmas only. *)
Opaque emit.


(** ** lib/websocket.js: [broadcast], [send] and the stored password *)

Section GatewayDelivery.
Context {ext : Externals}.

Lemma named_event name :
  name ≠ "" → js_or (JStr name) (JBool false) = JStr name ∧ truthy (JStr name) = true.
Proof.
  intros Hne. unfold js_or. cbn.
  destruct (String.eqb_spec name ""); [done|]. split; reflexivity.
Qed.

(** X1.  [broadcast] of a named event returns [true], leaves the set of
    permitted clients as it was, and appends exactly one frame, the event
    with its payload ([{}] for a payload that is absent or falsy), to the
    socket of every permitted client; every other socket is untouched. *)
Theorem X1_broadcast_delivers_once_to_each_permitted
  (name : string) (data : jsval) (w : WebSocket.t) :
  name ≠ "" →
  (WebSocket.broadcast (JStr name) data w).1 = true
  ∧ WebSocket.permittedClients (WebSocket.broadcast (JStr name) data w).2
    = WebSocket.permittedClients w
  ∧ WebSocket.password (WebSocket.broadcast (JStr name) data w).2 = WebSocket.password w
  ∧ ∀ id,
      WebSocket.sockets (WebSocket.broadcast (JStr name) data w).2 !! id
      = if bool_decide (id ∈ WebSocket.permittedClients w)
        then push (name, js_or data (JObj [])) <$> WebSocket.sockets w !! id
        else WebSocket.sockets w !! id.
Proof.
  intros Hne. destruct (named_event name Hne) as [Hev Ht].
  split; [|split; [apply broadcast_permitted|split]].
  - unfold WebSocket.broadcast. by rewrite Hev, Ht.
  - unfold WebSocket.broadcast. rewrite Hev, Ht. cbn [negb snd].
    generalize (elements (WebSocket.permittedClients w)).
    intros keys. induction keys as [|k keys IH]; [reflexivity|exact IH].
  - intros id. apply broadcast_sockets. by apply String.eqb_neq.
Qed.

(** X2.  Without an event ([undefined], [false], the empty string or any
    other falsy value) [broadcast] and [send] return [false] and send
    nothing. *)
Theorem X2_no_event_nothing_sent (event data : jsval) (id : string) (w : WebSocket.t) :
  truthy event = false →
  WebSocket.broadcast event data w = (false, w)
  ∧ WebSocket.send id event data w = (false, w).
Proof.
  intros Hfalsy. unfold WebSocket.broadcast, WebSocket.send, js_or.
  rewrite Hfalsy. split; reflexivity.
Qed.

(** X3.  [send] of a named event returns [true] and appends exactly one
    frame to the socket it is given, whether or not that socket is among
    the permitted clients; it touches no other socket and does not change
    who is permitted. *)
Theorem X3_send_reaches_only_its_socket
  (id name : string) (data : jsval) (w : WebSocket.t) :
  name ≠ "" →
  (WebSocket.send id (JStr name) data w).1 = true
  ∧ WebSocket.permittedClients (WebSocket.send id (JStr name) data w).2
    = WebSocket.permittedClients w
  ∧ WebSocket.sockets (WebSocket.send id (JStr name) data w).2 !! id
    = push (name, js_or data (JObj [])) <$> WebSocket.sockets w !! id
  ∧ ∀ id', id' ≠ id →
           WebSocket.sockets (WebSocket.send id (JStr name) data w).2 !! id'
           = WebSocket.sockets w !! id'.
Proof.
  intros Hne. destruct (named_event name Hne) as [Hev Ht].
  unfold WebSocket.send. rewrite Hev, Ht. cbn [negb fst snd].
  split; [reflexivity|]. split; [reflexivity|]. split.
  - unfold WebSocket.socket_emit. cbn. by rewrite lookup_alter_eq.
  - intros id' Hid. unfold WebSocket.socket_emit. cbn. by rewrite lookup_alter_ne.
Qed.

(** X4.  The gateway stores the hash of its password, so the only
    challenge that matches is the string of that hash (the password
    itself matches only if it equals its own hash); a gateway created
    without a password stores [false], and then the one challenge that
    matches is the value [false]. *)
Theorem X4_challenge_that_matches (pw : jsval) (port : Z) (challenge : jsval) :
  strict_eq challenge (WebSocket.password (WebSocket.new pw port)) = true
  ↔ challenge = if truthy pw then JStr (sha256 pw) else JBool false.
Proof.
  unfold WebSocket.new, js_or. cbn [WebSocket.password].
  destruct (truthy pw) eqn:Hpw; cbn [truthy]; rewrite ?Hpw.
  - destruct challenge; cbn; split; try discriminate.
    + intros Heq. apply String.eqb_eq in Heq. by subst.
    + intros [= ->]. apply String.eqb_refl.
  - destruct challenge as [| |b| | |]; cbn; split; try discriminate.
    + destruct b; [discriminate|reflexivity].
    + intros [= ->]. reflexivity.
Qed.

End GatewayDelivery.

(** ** The handshake, as the service and the gateway run it together *)

Section Handshake.
Context {ext : Externals}.

Lemma on_webSocket_gateway f s : webSocket (on_webSocket f s) = f <$> webSocket s.
Proof. unfold on_webSocket. destruct (webSocket s) eqn:Hw; cbn; by rewrite ?Hw. Qed.

Lemma on_webSocket_isRunning f s : isRunning (on_webSocket f s) = isRunning s.
Proof. unfold on_webSocket. by destruct (webSocket s). Qed.

Lemma on_webSocket_emitted f s : emitted (on_webSocket f s) = emitted s.
Proof. unfold on_webSocket. by destruct (webSocket s). Qed.

Lemma emit_info_gateway msg s :
  webSocket (emit "info" [JStr msg] s)
  = (λ w, (WebSocket.broadcast (JStr "info") (JStr msg) w).2) <$> webSocket s.
Proof. by rewrite emit_webSocket. Qed.

Lemma emit_warning_gateway msg s :
  webSocket (emit "warning" [JStr msg] s)
  = (λ w, (WebSocket.broadcast (JStr "info") (JStr msg) w).2) <$> webSocket s.
Proof. by rewrite emit_webSocket. Qed.

Lemma info_sockets msg w id :
  WebSocket.sockets (WebSocket.broadcast (JStr "info") (JStr msg) w).2 !! id
  = if bool_decide (id ∈ WebSocket.permittedClients w)
    then push ("info", js_or (JStr msg) (JObj [])) <$> WebSocket.sockets w !! id
    else WebSocket.sockets w !! id.
Proof. by apply broadcast_sockets. Qed.

(** X5.  A connection whose challenge matches the stored password is added
    to the permitted clients, gets the command listeners attached once
    more, and is sent, in this order: [alive] if the service is running,
    the [info] notice of its own authentication (which every permitted
    client gets), and [auth] with [true]. *)
Theorem X5_matching_challenge_authenticates
  (s : t) (id : string) (pw : jsval) (w : WebSocket.t) (sk : WebSocket.Socket) :
  webSocket s = Some w →
  WebSocket.sockets w !! id = Some sk →
  strict_eq pw (WebSocket.password w) = true →
  let s' := ws_challenge id pw s in
  authenticated id s' = true
  ∧ wire id s'
    = WebSocket.received sk
      ++ (if isRunning s then [("alive", JObj [])] else [])
      ++ [("info", JStr ("[WEBSOCKET] Client authenticated with socketId: " +:+ id));
          ("auth", JBool true)]
  ∧ (∃ w' sk', webSocket s' = Some w' ∧ WebSocket.sockets w' !! id = Some sk'
               ∧ WebSocket.listeners sk' = S (WebSocket.listeners sk))
  ∧ emitted s'
    = emitted s
      ++ [("info", [JStr ("[WEBSOCKET] Client authenticated with socketId: " +:+ id)])].
Proof.
  intros Hw Hsk Hpw s'. subst s'. unfold ws_challenge. rewrite Hw, Hsk, Hpw.
  rewrite bool_decide_eq_true_2 by eauto. cbn [negb].
  set (w1 := WebSocket.with_permitted ({[id]} ∪ WebSocket.permittedClients w) w).
  set (s1 := on_webSocket _ s).
  assert (Hw1 : webSocket s1 = Some w1) by (subst s1; by rewrite on_webSocket_gateway, Hw).
  set (s2 := _registerWebSocketClientEvents id s1).
  set (sk2 := {| WebSocket.received := WebSocket.received sk;
                 WebSocket.listeners := S (WebSocket.listeners sk) |}).
  assert (Hw2 : ∃ w2, webSocket s2 = Some w2
                      ∧ id ∈ WebSocket.permittedClients w2
                      ∧ WebSocket.sockets w2 !! id = Some sk2).
  { subst s2. unfold _registerWebSocketClientEvents.
    rewrite on_webSocket_gateway, Hw1. eexists. split; [reflexivity|].
    cbn. split; [set_solver|]. by rewrite lookup_alter_eq, Hsk. }
  destruct Hw2 as (w2 & Hw2 & Hin2 & Hsk2).
  assert (Hr2 : isRunning s2 = isRunning s)
    by (subst s2 s1; unfold _registerWebSocketClientEvents;
        by rewrite !on_webSocket_isRunning).
  assert (He2 : emitted s2 = emitted s)
    by (subst s2 s1; unfold _registerWebSocketClientEvents;
        by rewrite !on_webSocket_emitted).
  clearbody s2. clear s1 Hw1. rewrite Hr2.
  set (s3 := if isRunning s then _ else s2).
  set (sk3 := {| WebSocket.received :=
                   WebSocket.received sk
                   ++ (if isRunning s then [("alive", JObj [])] else []);
                 WebSocket.listeners := S (WebSocket.listeners sk) |}).
  assert (Hw3 : ∃ w3, webSocket s3 = Some w3
                      ∧ id ∈ WebSocket.permittedClients w3
                      ∧ WebSocket.sockets w3 !! id = Some sk3
                      ∧ emitted s3 = emitted s).
  { subst s3 sk3. destruct (isRunning s).
    - rewrite on_webSocket_gateway, on_webSocket_emitted, Hw2. eexists.
      split; [reflexivity|]. cbn. split; [exact Hin2|]. split; [|exact He2].
      by rewrite lookup_alter_eq, Hsk2.
    - exists w2. rewrite app_nil_r. done. }
  destruct Hw3 as (w3 & Hw3 & Hin3 & Hsk3 & He3). clearbody s3.
  set (msg := "[WEBSOCKET] Client authenticated with socketId: " +:+ id).
  assert (Hw5 : webSocket (socket_emit id "auth" (JBool true) (emit "info" [JStr msg] s3))
                = Some (WebSocket.socket_emit id "auth" (JBool true)
                          (WebSocket.broadcast (JStr "info") (JStr msg) w3).2)).
  { unfold socket_emit. by rewrite on_webSocket_gateway, emit_info_gateway, Hw3. }
  assert (Hsk5 : WebSocket.sockets
                   (WebSocket.socket_emit id "auth" (JBool true)
                      (WebSocket.broadcast (JStr "info") (JStr msg) w3).2) !! id
                 = Some (push ("auth", JBool true) (push ("info", JStr msg) sk3))).
  { unfold WebSocket.socket_emit. cbn [WebSocket.sockets WebSocket.with_sockets].
    rewrite lookup_alter_eq, info_sockets, bool_decide_eq_true_2, Hsk3 by done.
    reflexivity. }
  split; [|split; [|split]].
  - unfold authenticated. rewrite Hw5, Hsk5.
    cbn [WebSocket.permittedClients WebSocket.socket_emit WebSocket.with_sockets].
    rewrite broadcast_permitted, bool_decide_eq_true_2 by done.
    by rewrite bool_decide_eq_true_2 by eauto.
  - unfold wire. rewrite Hw5, Hsk5. cbn. by rewrite <- !app_assoc.
  - eexists _, _. split; [exact Hw5|]. split; [exact Hsk5|]. reflexivity.
  - unfold socket_emit. by rewrite on_webSocket_emitted, emit_emitted, He3.
Qed.


Lemma disconnect_not_connected id s : ¬ connected id (ws_disconnect id s).
Proof.
  intros (w' & sk' & Hw' & Hsk').
  unfold ws_disconnect in Hw'. rewrite emit_info_gateway, on_webSocket_gateway in Hw'.
  destruct (webSocket s) as [w|]; [|discriminate].
  cbn [fmap option_fmap option_map] in Hw'. injection Hw' as Heq. subst w'.
  rewrite fanout_sockets in Hsk' by apply NoDup_elements.
  cbn [WebSocket.sockets WebSocket.with_sockets WebSocket.with_permitted] in Hsk'.
  rewrite lookup_delete_eq in Hsk'. by destruct (bool_decide _).
Qed.




(** X8.  The ten-second timer of a connection leaves a permitted client
    alone and disconnects a connection that is still there without having
    passed the handshake. *)
Theorem X8_auth_timeout (s : t) (id : string) (w : WebSocket.t) :
  webSocket s = Some w →
  (id ∈ WebSocket.permittedClients w → ws_auth_timeout id s = s)
  ∧ (id ∉ WebSocket.permittedClients w → is_Some (WebSocket.sockets w !! id) →
     ws_auth_timeout id s = ws_disconnect id s
     ∧ ¬ connected id (ws_auth_timeout id s)).
Proof.
  intros Hw. unfold ws_auth_timeout. rewrite Hw. split.
  - intros Hin. by rewrite decide_True.
  - intros Hnot [sk Hsk]. rewrite decide_False, Hsk by done. split; [reflexivity|].
    apply disconnect_not_connected.
Qed.

End Handshake.

(** ** Who is permitted changes only through the handshake *)

Section GatewayView.
Context {ext : Externals}.
Import Gateway.

Lemma view_of_gateway s s' : webSocket s' = webSocket s → view s' = view s.
Proof. unfold view. by intros ->. Qed.

Lemma fanout_view name data keys w :
  let w' := foldr (λ key acc, WebSocket.socket_emit key name data acc) w keys in
  WebSocket.permittedClients w' = WebSocket.permittedClients w
  ∧ WebSocket.password w' = WebSocket.password w
  ∧ dom (WebSocket.sockets w') = dom (WebSocket.sockets w).
Proof.
  induction keys as [|k keys IH]; [done|].
  cbn. destruct IH as (Hp & Hpw & Hd). split; [exact Hp|]. split; [exact Hpw|].
  by rewrite dom_alter_L.
Qed.

Lemma broadcast_view e d w :
  let w' := (WebSocket.broadcast e d w).2 in
  WebSocket.permittedClients w' = WebSocket.permittedClients w
  ∧ WebSocket.password w' = WebSocket.password w
  ∧ dom (WebSocket.sockets w') = dom (WebSocket.sockets w).
Proof.
  unfold WebSocket.broadcast. destruct (negb _); [done|].
  destruct (js_or e _); try done. apply fanout_view.
Qed.

Lemma view_emit name args s : view (emit name args s) = view s.
Proof.
  unfold view. rewrite emit_webSocket.
  destruct (assoc name gateway_listeners) as [h|]; [|reflexivity].
  destruct (webSocket s) as [w|]; [|reflexivity]. cbn [fmap option_fmap option_map].
  destruct (broadcast_view (h args).1 (h args).2 w) as (-> & -> & ->). reflexivity.
Qed.

Lemma view_socket_emit id e d s : view (socket_emit id e d s) = view s.
Proof.
  unfold view, socket_emit. rewrite on_webSocket_gateway.
  destruct (webSocket s) as [w|]; [|reflexivity]. cbn. by rewrite dom_alter_L.
Qed.

Lemma view_set_db v s : view (set_db v s) = view s.
Proof. reflexivity. Qed.
Lemma view_set_knownBlockCount v s : view (set_knownBlockCount v s) = view s.
Proof. reflexivity. Qed.
Lemma view_set_isRunning v s : view (set_isRunning v s) = view s.
Proof. reflexivity. Qed.
Lemma view_set_synced v s : view (set_synced v s) = view s.
Proof. reflexivity. Qed.
Lemma view_set_trigger v s : view (set_trigger v s) = view s.
Proof. reflexivity. Qed.
Lemma view_set_scanIntervalPtr v s : view (set_scanIntervalPtr v s) = view s.
Proof. reflexivity. Qed.
Lemma view_set_spawned v s : view (set_spawned v s) = view s.
Proof. reflexivity. Qed.
Lemma view_set_emitted v s : view (set_emitted v s) = view s.
Proof. reflexivity. Qed.
Lemma view_set_exited v s : view (set_exited v s) = view s.
Proof. reflexivity. Qed.
Lemma view_set_clock v s : view (set_clock v s) = view s.
Proof. reflexivity. Qed.
Lemma view_set_nonceCalls v s : view (set_nonceCalls v s) = view s.
Proof. reflexivity. Qed.
Lemma view_set_uncaught v s : view (set_uncaught v s) = view s.
Proof. reflexivity. Qed.
Lemma view_set_checks a b s : view (set_checks a b s) = view s.
Proof. reflexivity. Qed.
Lemma view_set_scansInFlight v s : view (set_scansInFlight v s) = view s.
Proof. reflexivity. Qed.
Lemma view_set_stored v s : view (set_stored v s) = view s.
Proof. reflexivity. Qed.

Ltac view_frame :=
  repeat first
    [ rewrite view_emit | rewrite view_socket_emit
    | rewrite view_set_db | rewrite view_set_knownBlockCount | rewrite view_set_isRunning
    | rewrite view_set_synced | rewrite view_set_trigger | rewrite view_set_scanIntervalPtr
    | rewrite view_set_spawned | rewrite view_set_emitted | rewrite view_set_exited
    | rewrite view_set_clock | rewrite view_set_nonceCalls | rewrite view_set_uncaught
    | rewrite view_set_checks | rewrite view_set_scansInFlight
    | rewrite view_set_stored ].

Ltac view_cases :=
  repeat match goal with
         | |- context [match ?x with _ => _ end] =>
             match type of x with
             | bool => destruct x
             | option _ => destruct x
             | outcome _ => destruct x
             end
         end.

Lemma view__triggerUp s : view (_triggerUp s) = view s.
Proof. unfold _triggerUp. view_cases; view_frame; reflexivity. Qed.

Lemma view__triggerDown s : view (_triggerDown s) = view s.
Proof. unfold _triggerDown. view_cases; view_frame; reflexivity. Qed.

Lemma view_advance now s : view (advance now s) = view s.
Proof. unfold advance. view_cases; view_frame; reflexivity. Qed.

Lemma view_poll_cycle o s : view (poll_cycle o s) = view s.
Proof.
  destruct o; unfold poll_cycle; rewrite ?view__triggerUp, ?view__triggerDown;
    view_cases; view_frame; reflexivity.
Qed.

Lemma view_poll_tick o s : view (poll_tick o s) = view s.
Proof. unfold poll_tick. by rewrite view_poll_cycle, view_advance. Qed.

Lemma view_save_cycle o s : view (save_cycle o s) = view s.
Proof. destruct o; apply view_emit. Qed.

Lemma view__stdio line s : view (_stdio line s) = view s.
Proof. unfold _stdio, _startChecks. view_cases; view_frame; reflexivity. Qed.

Lemma view_on_child_data lines s : view (on_child_data lines s) = view s.
Proof.
  revert s. induction lines as [|line rest IH]; intros s; cbn; [reflexivity|].
  destruct (exited s); [reflexivity|].
  destruct (exited (_stdio line s)); [apply view__stdio|].
  by rewrite IH, view_emit, view__stdio.
Qed.

Lemma view_on_addresses o s : view (on_addresses o s) = view s.
Proof. destruct o; apply view_emit. Qed.

Lemma view__buildargs s : view (_buildargs s).2 = view s.
Proof.
  unfold _buildargs.
  destruct (truthy (rpcPassword (conf s)));
    [|destruct (truthy (rpcLegacySecurity (conf s))); [|cbn; apply view_emit]];
    (destruct (negb (truthy (containerFile (conf s)))); [cbn; apply view_emit|];
     destruct (negb _); [cbn; apply view_emit|];
     destruct (negb (truthy (containerPassword (conf s)))); cbn; rewrite ?view_emit;
     reflexivity).
Qed.

Lemma view_start s : view (start s).2 = view s.
Proof.
  unfold start.
  pose proof (view__buildargs
                (set_synced false
                   (emit "info" [JStr "Attempting to start zum-service..."] s))) as Hb.
  destruct (_buildargs _) as [[args|] s1]; cbn [fst snd] in Hb |- *; view_frame;
    rewrite Hb; view_frame; reflexivity.
Qed.

Lemma view_transactions txs s :
  view (foldl (λ s tx, emit "transaction" [tx] s) s txs) = view s.
Proof.
  revert s. induction txs as [|tx txs IH]; intros s; cbn; [reflexivity|].
  by rewrite IH, view_emit.
Qed.

Lemma view_scan_call s : view (scan_call s) = view s.
Proof.
  unfold scan_call, scan_tick.
  destruct (negb (synced s)); [reflexivity|].
  destruct (_ >=? _); [reflexivity|].
  view_frame; reflexivity.
Qed.

Lemma view_scan_return k o s : view (scan_return k o s) = view s.
Proof.
  unfold scan_return. destruct (_ !! k) as [rq|]; [|reflexivity].
  destruct o; unfold scan_settle, db_put; view_frame; rewrite ?view_transactions;
    view_frame; reflexivity.
Qed.

Lemma view_command_listener id evt raw s : view (command_listener id evt raw s).2 = view s.
Proof.
  unfold command_listener.
  destruct (match JSON_parse raw with Some v => v | None => JObj [] end);
    try reflexivity.
  destruct (truthy _); reflexivity.
Qed.

Lemma view_run_listeners n id evt raw s : view (run_listeners n id evt raw s).2 = view s.
Proof.
  revert s. induction n as [|n IH]; intros s; cbn; [reflexivity|].
  pose proof (view_command_listener id evt raw s) as Hc.
  destruct (command_listener id evt raw s) as [[p|what] s1]; cbn [fst snd] in *.
  - specialize (IH s1). destruct (run_listeners n id evt raw s1) as [ps s2].
    cbn [fst snd] in *. congruence.
  - by rewrite view_set_uncaught.
Qed.

Lemma view_ws_request id evt raw s : view (ws_request id evt raw s).2 = view s.
Proof.
  unfold ws_request. destruct (webSocket s) as [w|]; [|reflexivity].
  destruct (_ !! id); [|reflexivity].
  destruct (bool_decide _); [apply view_run_listeners|reflexivity].
Qed.

Lemma view_settle_all o ps s : view (foldl (λ s p, request_settle p o s) s ps) = view s.
Proof.
  revert s. induction ps as [|p ps IH]; intros s; cbn; [reflexivity|].
  rewrite IH. apply view_socket_emit.
Qed.

Lemma view_ws_ready s : view (ws_ready s) = view s.
Proof. unfold ws_ready. destruct (webSocket s); [apply view_emit|reflexivity]. Qed.

Lemma view_ws_error err s : view (ws_error err s) = view s.
Proof. unfold ws_error. destruct (webSocket s); view_frame; reflexivity. Qed.

(** Everything that is not a connection coming, going or answering the
    challenge leaves the permitted clients, the password and the set of
    sockets as they are. *)
Lemma view_step i s : connection_input i = false → view (step i s) = view s.
Proof.
  intros Hi. unfold step. destruct (exited s); [reflexivity|].
  destruct i; try discriminate Hi.
  - apply view_start.
  - reflexivity.
  - apply view_on_child_data.
  - unfold on_child_error. by rewrite !view_emit.
  - apply view_emit.
  - apply view_on_addresses.
  - destruct (pollingIntervalPtr s); [apply view_poll_tick|reflexivity].
  - destruct (saveIntervalPtr s); [apply view_save_cycle|reflexivity].
  - destruct (scanIntervalPtr s); [apply view_scan_call|reflexivity].
  - apply view_scan_return.
  - pose proof (view_ws_request id evt raw s) as Hr.
    destruct (ws_request id evt raw s) as [ps s1]. cbn [fst snd] in Hr.
    by rewrite view_settle_all.
  - apply view_ws_ready.
  - apply view_ws_error.
Qed.

Lemma view_ws_connection id s :
  view (ws_connection id s) = (λ v, (v.1.1, v.1.2, {[id]} ∪ v.2)) <$> view s.
Proof.
  unfold ws_connection. rewrite view_emit, view_socket_emit.
  unfold view. rewrite on_webSocket_gateway.
  destruct (webSocket s) as [w|]; [|reflexivity]. cbn. by rewrite dom_insert_L.
Qed.

Lemma view_ws_disconnect id s :
  view (ws_disconnect id s) = (λ v, (v.1.1 ∖ {[id]}, v.1.2, v.2 ∖ {[id]})) <$> view s.
Proof.
  unfold ws_disconnect. rewrite view_emit.
  unfold view. rewrite on_webSocket_gateway.
  destruct (webSocket s) as [w|]; [|reflexivity]. cbn. by rewrite dom_delete_L.
Qed.

Lemma view_ws_challenge id pw s :
  view (ws_challenge id pw s)
  = match view s with
    | Some (p, stored, d) =>
        if bool_decide (id ∈ d)
        then if strict_eq pw stored then Some ({[id]} ∪ p, stored, d)
             else Some (p ∖ {[id]}, stored, d ∖ {[id]})
        else Some (p, stored, d)
    | None => None
    end.
Proof.
  unfold ws_challenge.
  destruct (webSocket s) as [w|] eqn:Hw; [|by unfold view; rewrite Hw].
  assert (Hv : view s = Some (WebSocket.permittedClients w, WebSocket.password w,
                              dom (WebSocket.sockets w)))
    by (unfold view; by rewrite Hw).
  rewrite Hv.
  rewrite (bool_decide_ext (id ∈ dom (WebSocket.sockets w))
             (is_Some (WebSocket.sockets w !! id))) by apply elem_of_dom.
  destruct (bool_decide (is_Some _)); cbn [negb]; [|exact Hv].
  destruct (strict_eq pw (WebSocket.password w)).
  - rewrite view_socket_emit, view_emit.
    assert (Hreg : view (_registerWebSocketClientEvents id
                           (on_webSocket
                              (λ w0, WebSocket.with_permitted
                                       ({[id]} ∪ WebSocket.permittedClients w0) w0) s))
                   = Some ({[id]} ∪ WebSocket.permittedClients w, WebSocket.password w,
                           dom (WebSocket.sockets w))).
    { unfold view, _registerWebSocketClientEvents.
      rewrite !on_webSocket_gateway, Hw. cbn. by rewrite dom_alter_L. }
    assert (Hrun : isRunning (_registerWebSocketClientEvents id
                                (on_webSocket
                                   (λ w0, WebSocket.with_permitted
                                            ({[id]} ∪ WebSocket.permittedClients w0) w0) s))
                   = isRunning s)
      by (unfold _registerWebSocketClientEvents; by rewrite !on_webSocket_isRunning).
    rewrite Hrun.
    destruct (isRunning s); [|exact Hreg].
    unfold view. rewrite on_webSocket_gateway. unfold view in Hreg.
    destruct (webSocket (_registerWebSocketClientEvents _ _)) as [w2|]; [|discriminate].
    cbn in Hreg |- *. injection Hreg as Hp Hpw Hd.
    unfold WebSocket.send. cbn. by rewrite dom_alter_L, Hp, Hpw, Hd.
  - rewrite view_ws_disconnect, view_socket_emit, view_emit, Hv. reflexivity.
Qed.

Lemma view_ws_auth_timeout id s :
  view (ws_auth_timeout id s)
  = match view s with
    | Some (p, stored, d) =>
        if bool_decide (id ∈ p) then Some (p, stored, d)
        else if bool_decide (id ∈ d) then Some (p ∖ {[id]}, stored, d ∖ {[id]})
             else Some (p, stored, d)
    | None => None
    end.
Proof.
  unfold ws_auth_timeout.
  destruct (webSocket s) as [w|] eqn:Hw; [|by unfold view; rewrite Hw].
  assert (Hv : view s = Some (WebSocket.permittedClients w, WebSocket.password w,
                              dom (WebSocket.sockets w)))
    by (unfold view; by rewrite Hw).
  rewrite Hv. destruct (decide (id ∈ WebSocket.permittedClients w)) as [Hin|Hnot].
  - by rewrite bool_decide_eq_true_2.
  - rewrite (bool_decide_eq_false_2 _ Hnot).
    destruct (WebSocket.sockets w !! id) as [sk|] eqn:Hsk.
    + rewrite bool_decide_eq_true_2 by (apply elem_of_dom; eauto).
      by rewrite view_ws_disconnect, Hv.
    + rewrite bool_decide_eq_false_2; [exact Hv|].
      rewrite elem_of_dom, Hsk. by intros [? ?].
Qed.

Lemma permitted_view s :
  permitted s = match view s with Some (p, _, _) => p | None => ∅ end.
Proof. unfold permitted, view. by destruct (webSocket s). Qed.

Lemma stored_password_view s w :
  webSocket s = Some w → ∃ p d, view s = Some (p, WebSocket.password w, d).
Proof. intros Hw. unfold view. rewrite Hw. cbn. eauto. Qed.

(** One input: a client that was not permitted is permitted afterwards
    only if the input is its own challenge and matches the password. *)
Lemma permitted_step i s id :
  id ∉ permitted s → id ∈ permitted (step i s) →
  ∃ pw stored p d, i = InChallenge id pw ∧ view s = Some (p, stored, d)
                   ∧ strict_eq pw stored = true.
Proof.
  intros Hnot Hin.
  destruct (connection_input i) eqn:Hi.
  - unfold step in Hin. destruct (exited s); [done|].
    rewrite permitted_view in Hnot, Hin.
    destruct i as [| | | | | | | | | |id'|id' pw|id'|id'| | |]; try discriminate Hi.
    + rewrite view_ws_connection in Hin. by destruct (view s) as [[[p stored] d]|].
    + rewrite view_ws_challenge in Hin.
      destruct (view s) as [[[p stored] d]|] eqn:Hv; [|done].
      destruct (bool_decide (id' ∈ d)); [|done].
      destruct (strict_eq pw stored) eqn:Hpw.
      * apply elem_of_union in Hin as [->%elem_of_singleton|Hin]; [|done].
        by exists pw, stored, p, d.
      * by apply elem_of_difference in Hin as [? _].
    + rewrite view_ws_disconnect in Hin.
      destruct (view s) as [[[p stored] d]|]; [|done].
      by apply elem_of_difference in Hin as [? _].
    + rewrite view_ws_auth_timeout in Hin.
      destruct (view s) as [[[p stored] d]|]; [|done].
      destruct (bool_decide (id' ∈ p)); [done|].
      destruct (bool_decide (id' ∈ d)); [|done].
      by apply elem_of_difference in Hin as [? _].
  - rewrite !permitted_view, (view_step i s Hi) in *. done.
Qed.

Lemma stored_password_step i s :
  (λ v, v.1.2) <$> view (step i s) = (λ v, v.1.2) <$> view s.
Proof.
  destruct (connection_input i) eqn:Hi; [|by rewrite view_step].
  unfold step. destruct (exited s); [done|].
  destruct i as [| | | | | | | | | |id'|id' pw|id'|id'| | |]; try discriminate Hi.
  - rewrite view_ws_connection. by destruct (view s).
  - rewrite view_ws_challenge. destruct (view s) as [[[p stored] d]|]; [|done].
    destruct (bool_decide _); [|done]. by destruct (strict_eq pw stored).
  - rewrite view_ws_disconnect. by destruct (view s).
  - rewrite view_ws_auth_timeout. destruct (view s) as [[[p stored] d]|]; [|done].
    destruct (bool_decide _); [done|]. by destruct (bool_decide _).
Qed.

(** X9.  Over the whole life of the process, a client that is not
    permitted becomes permitted only through a challenge of its own that
    equals the password the gateway stored at construction: no event of
    the service, no other client and no request adds anyone. *)
Theorem X9_only_a_matching_challenge_permits
  (inputs : list input) (s : t) (id : string) (w : WebSocket.t) :
  webSocket s = Some w →
  id ∉ permitted s →
  id ∈ permitted (run inputs s) →
  ∃ pw, InChallenge id pw ∈ inputs ∧ strict_eq pw (WebSocket.password w) = true.
Proof.
  intros Hw. destruct (stored_password_view s w Hw) as (p0 & d0 & Hv0).
  assert (Hst : (λ v, v.1.2) <$> view s = Some (WebSocket.password w))
    by (by rewrite Hv0).
  clear Hw Hv0 p0 d0. revert s Hst.
  induction inputs as [|i inputs IH]; intros s Hst Hnot Hin; [done|].
  cbn in Hin. change (foldl _ (step i s) inputs) with (run inputs (step i s)) in Hin.
  destruct (decide (id ∈ permitted (step i s))) as [Hnow|Hlater].
  - destruct (permitted_step i s id Hnot Hnow) as (pw & stored & p & d & -> & Hv & Hpw).
    exists pw. split; [by left|]. rewrite Hv in Hst. cbn in Hst. congruence.
  - destruct (IH (step i s)) as (pw & Hmem & Hpw); [|done|done|].
    + by rewrite stored_password_step.
    + exists pw. split; [by right|exact Hpw].
Qed.

Lemma permitted_are_connected_view s :
  permitted_are_connected s
  ↔ match view s with Some (p, _, d) => p ⊆ d | None => True end.
Proof.
  unfold permitted_are_connected, view.
  destruct (webSocket s) as [w|]; cbn; [|naive_solver].
  split.
  - intros H id Hin. apply elem_of_dom. by apply (H w).
  - intros Hsub w' id [= <-] Hin. apply elem_of_dom. by apply Hsub.
Qed.

(** X10.  Every permitted client has a socket, and this is kept by
    whatever reaches the process: a client is never left among the
    permitted once its connection is gone. *)
Theorem X10_permitted_clients_stay_connected (inputs : list input) (s : t) :
  permitted_are_connected s → permitted_are_connected (run inputs s).
Proof.
  revert s. induction inputs as [|i inputs IH]; intros s Hinv; [exact Hinv|].
  cbn. apply IH. clear IH. revert Hinv. rewrite !permitted_are_connected_view.
  destruct (connection_input i) eqn:Hi; [|by rewrite view_step].
  unfold step. destruct (exited s); [done|].
  destruct i as [| | | | | | | | | |id'|id' pw|id'|id'| | |]; try discriminate Hi.
  - rewrite view_ws_connection. destruct (view s) as [[[p stored] d]|]; [|done].
    cbn. set_solver.
  - rewrite view_ws_challenge. destruct (view s) as [[[p stored] d]|]; [|done].
    destruct (bool_decide (id' ∈ d)) eqn:Hd; [|done].
    apply bool_decide_eq_true in Hd.
    destruct (strict_eq pw stored); set_solver.
  - rewrite view_ws_disconnect. destruct (view s) as [[[p stored] d]|]; [|done].
    cbn. set_solver.
  - rewrite view_ws_auth_timeout. destruct (view s) as [[[p stored] d]|]; [|done].
    destruct (bool_decide _); [done|]. destruct (bool_decide _); [|done]. set_solver.
Qed.

End GatewayView.

(** ** Request dispatch *)

Section Dispatch.
Context {ext : Externals}.

Lemma get_set_field_other k k' v fields :
  k' ≠ k → get_field k' (set_field k v fields) = get_field k' fields.
Proof.
  intros Hne. induction fields as [|[k0 v0] rest IH]; cbn.
  - destruct (String.eqb_spec k' k); [done|reflexivity].
  - destruct (String.eqb_spec k k0) as [->|Hk]; cbn.
    + destruct (String.eqb_spec k' k0); [done|reflexivity].
    + destruct (String.eqb k' k0); [reflexivity|exact IH].
Qed.


Lemma fanout_listeners name data keys w id sk :
  WebSocket.sockets w !! id = Some sk →
  ∃ sk', WebSocket.sockets
           (foldr (λ key acc, WebSocket.socket_emit key name data acc) w keys) !! id
         = Some sk'
         ∧ WebSocket.listeners sk' = WebSocket.listeners sk.
Proof.
  intros Hsk. induction keys as [|k keys (sk' & Hsk' & Hl)]; [eauto|].
  cbn. destruct (decide (k = id)) as [->|Hne].
  - rewrite lookup_alter_eq, Hsk'. eexists. split; [reflexivity|exact Hl].
  - rewrite lookup_alter_ne by done. eauto.
Qed.

Lemma broadcast_listeners e d w id sk :
  WebSocket.sockets w !! id = Some sk →
  ∃ sk', WebSocket.sockets (WebSocket.broadcast e d w).2 !! id = Some sk'
         ∧ WebSocket.listeners sk' = WebSocket.listeners sk.
Proof.
  intros Hsk. unfold WebSocket.broadcast. destruct (negb _); [eauto|].
  destruct (js_or e _); eauto. by apply fanout_listeners.
Qed.

(** X12.  A connection that has only connected has no command listener:
    whatever command it sends, no call of the RPC client is made and
    nothing changes. *)
Theorem X12_no_commands_before_the_handshake (s : t) (id evt raw : string) :
  ws_request id evt raw (ws_connection id s) = ([], ws_connection id s).
Proof.
  unfold ws_request.
  destruct (webSocket (ws_connection id s)) as [w'|] eqn:Hw'; [|reflexivity].
  unfold ws_connection in Hw'.
  rewrite emit_info_gateway in Hw'. unfold socket_emit in Hw'.
  rewrite !on_webSocket_gateway in Hw'.
  destruct (webSocket s) as [w|]; [|discriminate].
  cbn [fmap option_fmap option_map] in Hw'. apply (inj Some) in Hw'. subst w'.
  edestruct (broadcast_listeners (JStr "info")
               (JStr ("[WEBSOCKET] Client connected with socketId: " +:+ id))
               (WebSocket.socket_emit id "challenge" (JBool true)
                  (WebSocket.with_sockets
                     (<[id:={| WebSocket.received := []; WebSocket.listeners := 0 |}]>
                        (WebSocket.sockets w)) w)) id) as (sk' & -> & Hl).
  { unfold WebSocket.socket_emit. cbn. by rewrite lookup_alter_eq, lookup_insert_eq. }
  cbn in Hl. rewrite Hl. by destruct (bool_decide _).
Qed.

(** X13.  For a payload that is a JSON object, the object handed to the
    RPC client is the caller's with only [nonce] written: every other
    member reads back as it was sent.  [nonce()] is called exactly when
    the payload has no truthy [nonce], so consecutive requests without one
    are given consecutive draws of the generator.  Sending the request
    emits nothing on the service and sends no frame. *)
Theorem X13_payload_passes_through
  (s : t) (id evt raw : string) (w : WebSocket.t) (sk : WebSocket.Socket)
  (fields : list (string * jsval)) :
  webSocket s = Some w →
  WebSocket.sockets w !! id = Some sk →
  WebSocket.listeners sk = 1%nat →
  evt ∈ commands →
  JSON_parse raw = Some (JObj fields) →
  ∃ p s',
    ws_request id evt raw s = ([p], s')
    ∧ (∀ k, k ≠ "nonce" → get_field k (p_data p) = get_field k fields)
    ∧ nonceCalls s'
      = (nonceCalls s + if truthy (get_field "nonce" fields) then 0 else 1)%nat
    ∧ emitted s' = emitted s
    ∧ webSocket s' = webSocket s.
Proof.
  intros Hw Hsk Hone Hevt Hparse.
  unfold ws_request. rewrite Hw, Hsk, Hone, bool_decide_eq_true_2 by done.
  cbn [run_listeners]. unfold command_listener. rewrite Hparse.
  destruct (truthy (get_field "nonce" fields)); eexists _, _;
    (split; [reflexivity|]); cbn [p_data nonceCalls set_nonceCalls emitted webSocket];
    (split; [intros k Hk; by apply get_set_field_other|]);
    (split; [lia|]); (split; [reflexivity|exact Hw]).
Qed.

End Dispatch.

(** ** The health and sync monitor, beyond the first [synced] *)

Ltac health_frame :=
  repeat first
    [ rewrite emit_emitted | rewrite emit_isRunning | rewrite emit_trigger
    | rewrite emit_synced | rewrite emit_knownBlockCount | rewrite emit_clock
    | rewrite emit_conf | rewrite emit_db | rewrite emit_spawned | rewrite emit_exited
    | rewrite count_emitted_emit
    | rewrite count_set_synced | rewrite count_set_knownBlockCount
    | rewrite count_set_isRunning | rewrite count_set_trigger | rewrite count_set_clock
    | progress cbn [conf db knownBlockCount synced trigger clock isRunning emitted
                    spawned exited fired due
                    set_db set_knownBlockCount set_isRunning set_synced set_trigger
                    set_checks set_scanIntervalPtr set_webSocket set_spawned
                    set_emitted set_exited set_clock set_nonceCalls set_uncaught
                    String.eqb Ascii.eqb Bool.eqb Nat.add] ].

Ltac count_arith :=
  cbn [negb andb orb String.eqb Ascii.eqb Bool.eqb];
  repeat match goal with
         | |- context [if ?b then _ else _] => destruct b
         end; lia.

Section Health.
Context {ext : Externals}.
Import Reply.

Lemma _triggerUp_effect s :
  emitted (_triggerUp s) = emitted s ++ (if isRunning s then [] else [("alive", [])])
  ∧ isRunning (_triggerUp s) = true.
Proof.
  unfold _triggerUp. destruct (isRunning s) eqn:Hr.
  - destruct (trigger s); cbn [emitted isRunning set_trigger]; by rewrite app_nil_r.
  - destruct (trigger _); cbn [emitted isRunning set_trigger];
      by rewrite emit_emitted, emit_isRunning.
Qed.

(** The state of a successful cycle when [_triggerUp] is called. *)
Lemma poll_success_middle r s :
  ∃ mid,
    poll_cycle (Resolved r) s = _triggerUp mid
    ∧ emitted mid
      = emitted s ++ [("status", [status_js r])]
        ++ (if negb (far_behind r) && near_tip r && negb (synced s)
            then [("synced", [])] else [])
    ∧ isRunning mid = isRunning s
    ∧ synced mid = (if far_behind r then false else if near_tip r then true else synced s).
Proof.
  unfold poll_cycle, far_behind, near_tip. cbv zeta.
  set (X := set_knownBlockCount (blockCount r) (emit "status" [status_js r] s)).
  assert (HeX : emitted X = emitted s ++ [("status", [status_js r])])
    by (subst X; cbn [emitted set_knownBlockCount]; apply emit_emitted).
  assert (HrX : isRunning X = isRunning s)
    by (subst X; cbn [isRunning set_knownBlockCount]; by rewrite emit_isRunning).
  assert (HsX : synced X = synced s)
    by (subst X; cbn [synced set_knownBlockCount]; apply emit_synced).
  clearbody X. eexists. split; [reflexivity|].
  destruct (reply_knownBlockCount r - blockCount r >? 1); cbn [negb andb].
  - cbn [emitted isRunning synced set_synced]. by rewrite HeX, HrX, app_nil_r.
  - destruct ((blockCount r + 1 =? reply_knownBlockCount r)
              || (blockCount r =? reply_knownBlockCount r)); cbn [negb andb].
    + rewrite HsX. destruct (synced s) eqn:Hs; cbn [negb].
      * by rewrite ?HeX, ?HrX, ?HsX, ?Hs, ?app_nil_r.
      * rewrite emit_emitted, emit_isRunning, emit_synced.
        cbn [emitted isRunning synced set_synced]. by rewrite HeX, HrX, <- app_assoc.
    + by rewrite ?HeX, ?HrX, ?HsX, ?app_nil_r.
Qed.

(** X14.  A successful polling cycle emits [status] first, then [synced]
    if the reply brings the service from unsynced to synced, then [alive]
    if the service was not marked running; afterwards the service is
    marked running and no down timer is left. *)
Theorem X14_successful_cycle_events (r : Status) (s : t) :
  emitted (poll_cycle (Resolved r) s)
  = emitted s ++ [("status", [status_js r])]
    ++ (if negb (far_behind r) && near_tip r && negb (synced s)
        then [("synced", [])] else [])
    ++ (if isRunning s then [] else [("alive", [])])
  ∧ synced (poll_cycle (Resolved r) s)
    = (if far_behind r then false else if near_tip r then true else synced s)
  ∧ isRunning (poll_cycle (Resolved r) s) = true
  ∧ trigger (poll_cycle (Resolved r) s) = None.
Proof.
  destruct (poll_success_middle r s) as (mid & -> & He & Hr & Hs).
  destruct (_triggerUp_effect mid) as [He' Hr'].
  rewrite He', Hr', _triggerUp_synced, _triggerUp_trigger, He, Hr, Hs, <- !app_assoc.
  done.
Qed.

Lemma count_emitted_grows which s s' l :
  emitted s' = emitted s ++ l →
  count_emitted which s'
  = (count_emitted which s + length (filter (λ e : emission, e.1 = which) l))%nat.
Proof. intros H. unfold count_emitted. by rewrite H, filter_app, length_app. Qed.

Lemma count_one which name args :
  length (filter (λ e : emission, e.1 = which) [(name, args)])
  = if String.eqb name which then 1%nat else 0%nat.
Proof.
  unfold filter, list_filter. cbn.
  destruct (String.eqb_spec name which) as [->|Hne].
  - by rewrite decide_True.
  - by rewrite decide_False.
Qed.

Lemma poll_success_count which r s :
  count_emitted which (poll_cycle (Resolved r) s)
  = (count_emitted which s
     + (if String.eqb "status" which then 1 else 0)
     + (if negb (far_behind r) && near_tip r && negb (synced s)
        then if String.eqb "synced" which then 1 else 0 else 0)
     + (if isRunning s then 0 else if String.eqb "alive" which then 1 else 0))%nat.
Proof.
  destruct (poll_success_middle r s) as (mid & -> & He & Hr & _).
  destruct (_triggerUp_effect mid) as [He' _].
  rewrite He, Hr, <- !app_assoc in He'.
  rewrite (count_emitted_grows which s _ _ He'), !filter_app, !length_app, count_one.
  destruct (negb (far_behind r) && near_tip r && negb (synced s));
    destruct (isRunning s); rewrite ?count_one, ?filter_nil; cbn [length];
    destruct (String.eqb "status" which); destruct (String.eqb "synced" which);
    destruct (String.eqb "alive" which); lia.
Qed.

(** X15.  A successful polling cycle clears the down timer: a timer that
    has not fired when the cycle runs never fires, however much time
    passes afterwards, and the service stays marked running. *)
Theorem X15_success_cancels_the_down_timer (r : Status) (s : t) (now : Z) :
  count_emitted "down" (advance now (poll_cycle (Resolved r) s)) = count_emitted "down" s
  ∧ isRunning (advance now (poll_cycle (Resolved r) s)) = true.
Proof.
  destruct (poll_success_middle r s) as (mid & Hmid & _).
  assert (Ht : trigger (poll_cycle (Resolved r) s) = None)
    by (rewrite Hmid; apply _triggerUp_trigger).
  assert (Hr : isRunning (poll_cycle (Resolved r) s) = true)
    by (rewrite Hmid; apply _triggerUp_effect).
  rewrite (advance_idle now _ Ht). cbn [isRunning set_clock]. split; [|exact Hr].
  rewrite count_set_clock, poll_success_count. count_arith.
Qed.

Lemma advance_after_firing now s tm :
  trigger s = Some tm → fired tm = true → advance now s = set_clock now s.
Proof. intros Ht Hf. unfold advance. by rewrite Ht, Hf. Qed.

(** X16.  Once the down timer has fired, the field keeps it: polling
    cycles that go on failing arm no new timer and emit no further
    [down], however many there are. *)
Theorem X16_one_down_per_outage (errs : list jsval) (s : t) (tm : Timeout) :
  trigger s = Some tm → fired tm = true →
  count_emitted "down" (run_polls (Rejected <$> errs) s) = count_emitted "down" s
  ∧ trigger (run_polls (Rejected <$> errs) s) = Some tm
  ∧ count_emitted "error" (run_polls (Rejected <$> errs) s)
    = (count_emitted "error" s + length errs)%nat.
Proof.
  revert s. induction errs as [|err errs IH]; intros s Ht Hf.
  - cbn. split; [reflexivity|]. split; [exact Ht|lia].
  - rewrite fmap_cons, run_polls_cons. unfold poll_tick.
    rewrite (advance_after_firing _ s tm Ht Hf).
    destruct (IH (poll_cycle (Rejected err)
                    (set_clock (clock s + pollingInterval (conf s) * 1000) s)))
      as (Hd & Ht' & He); [by apply poll_failure_pending|exact Hf|].
    rewrite Hd, Ht', He, !poll_failure_count, !count_set_clock. cbn [length].
    split; [count_arith|]. split; [reflexivity|count_arith].
Qed.

(** X17.  [synced] fires again after the wallet fell behind: a reply more
    than one block behind the network marks the service unsynced and
    emits no [synced], and the next reply within one block of the network
    emits [synced] once more. *)
Theorem X17_synced_again_after_falling_behind (far near : Status) (s : t) :
  far_behind far = true →
  far_behind near = false → near_tip near = true →
  let s1 := poll_cycle (Resolved far) s in
  let s2 := poll_cycle (Resolved near) s1 in
  synced s1 = false
  ∧ count_emitted "synced" s1 = count_emitted "synced" s
  ∧ synced s2 = true
  ∧ count_emitted "synced" s2 = S (count_emitted "synced" s).
Proof.
  intros Hfar Hn1 Hn2 s1 s2.
  assert (Hs1 : synced s1 = false).
  { subst s1. destruct (poll_success_middle far s) as (mid & -> & _ & _ & Hs).
    by rewrite _triggerUp_synced, Hs, Hfar. }
  assert (Hc1 : count_emitted "synced" s1 = count_emitted "synced" s).
  { subst s1. rewrite poll_success_count, Hfar. count_arith. }
  assert (Hs2 : synced s2 = true).
  { subst s2. destruct (poll_success_middle near s1) as (mid & -> & _ & _ & Hs).
    by rewrite _triggerUp_synced, Hs, Hn1, Hn2. }
  split; [exact Hs1|]. split; [exact Hc1|]. split; [exact Hs2|].
  subst s2. rewrite poll_success_count, Hn1, Hn2, Hs1, Hc1. count_arith.
Qed.

(** X18.  A reply in which the wallet is ahead of the network
    ([blockCount] above [knownBlockCount]) takes neither branch: the
    synced flag stays as it was and no [synced] is emitted. *)
Theorem X18_reply_ahead_of_the_network (r : Status) (s : t) :
  reply_knownBlockCount r < blockCount r →
  synced (poll_cycle (Resolved r) s) = synced s
  ∧ count_emitted "synced" (poll_cycle (Resolved r) s) = count_emitted "synced" s.
Proof.
  intros Hahead.
  assert (H1 : far_behind r = false)
    by (unfold far_behind; rewrite Z.gtb_ltb; apply Z.ltb_ge; lia).
  assert (H2 : near_tip r = false)
    by (unfold near_tip; apply orb_false_iff; rewrite !Z.eqb_neq; lia).
  split.
  - destruct (poll_success_middle r s) as (mid & -> & _ & _ & Hs).
    by rewrite _triggerUp_synced, Hs, H1, H2.
  - rewrite poll_success_count, H1, H2. count_arith.
Qed.

(** X19.  An [error] of the child process is reported at once: the
    service emits [error] and then [down], without waiting for the down
    timer, and is marked not running; the permitted clients of the
    gateway are sent both. *)
Theorem X19_child_error_reports_down (err : jsval) (s : t) (id : string) :
  let msg := JStr ("Error in child process: " +:+ format_s err) in
  emitted (on_child_error err s) = emitted s ++ [("error", [msg]); ("down", [])]
  ∧ isRunning (on_child_error err s) = false
  ∧ trigger (on_child_error err s) = trigger s
  ∧ (authenticated id s = true →
     wire id (on_child_error err s) = wire id s ++ [("error", msg); ("down", JObj [])]).
Proof.
  intros msg. unfold on_child_error.
  rewrite !emit_emitted, emit_isRunning, !emit_trigger.
  split; [by rewrite <- app_assoc|]. split; [reflexivity|]. split; [reflexivity|].
  intros Hauth.
  rewrite (wire_emit "down" _ _ _ (λ _, (JStr "down", JUndefined)) "down") by done.
  rewrite emit_authenticated, Hauth.
  rewrite (wire_emit "error" _ _ _ (λ a, (JStr "error", arg 0 a)) "error") by done.
  rewrite Hauth, <- app_assoc. reflexivity.
Qed.

End Health.

(** ** The process supervisor: console output, arguments, [stop] *)

Section Supervisor.
Context {ext : Externals}.
Import Console.

Lemma data_events_emit name args s :
  data_events (emit name args s)
  = data_events s ++ if String.eqb name "data" then [(name, args)] else [].
Proof.
  unfold data_events. rewrite emit_emitted, filter_app. f_equal.
  unfold filter, list_filter. cbn.
  destruct (String.eqb_spec name "data") as [->|Hne].
  - by rewrite decide_True.
  - by rewrite decide_False.
Qed.

Lemma _stdio_data_events line s : data_events (_stdio line s) = data_events s.
Proof.
  unfold _stdio, _startChecks.
  repeat match goal with
         | |- context [if ?b then _ else _] => destruct b
         end;
    change (data_events (set_exited ?v ?x)) with (data_events x);
    change (data_events (set_checks ?a ?b ?x)) with (data_events x);
    rewrite ?data_events_emit; cbn; by rewrite ?app_nil_r.
Qed.

Lemma _stdio_exited line s :
  exited (_stdio line s) = if halting_line line then Some 1 else exited s.
Proof.
  unfold _stdio, _startChecks, halting_line.
  destruct (includes "Loading container" line); cbn [negb andb]; [apply emit_exited|].
  destruct (includes "The password is wrong" line); [reflexivity|].
  repeat match goal with
         | |- context [if ?b then _ else _] => destruct b
         end; health_frame; reflexivity.
Qed.

(** X20.  Every line of a chunk of console output is emitted as [data],
    verbatim and in order, after it was scanned for the markers, up to
    the first line that ends the process: that line and the lines after
    it are not emitted.  The process has exited afterwards exactly if the
    chunk has such a line. *)
Theorem X20_console_lines_are_emitted_in_order (lines : list string) (s : t) :
  exited s = None →
  data_events (on_child_data lines s)
  = data_events s ++ map (λ line, ("data", [JStr line])) (before_halt lines)
  ∧ exited (on_child_data lines s)
    = if existsb halting_line lines then Some 1 else None.
Proof.
  revert s. induction lines as [|line rest IH]; intros s Hrun.
  - cbn. by rewrite app_nil_r.
  - cbn [on_child_data before_halt existsb]. rewrite Hrun, _stdio_exited, Hrun.
    destruct (halting_line line) eqn:Hhalt; cbn [orb].
    + rewrite _stdio_exited, Hhalt, _stdio_data_events. cbn. by rewrite app_nil_r.
    + destruct (IH (emit "data" [JStr line] (_stdio line s))) as [Hd He].
      { by rewrite emit_exited, _stdio_exited, Hhalt. }
      rewrite Hd, He, data_events_emit, _stdio_data_events. cbn.
      by rewrite <- app_assoc.
Qed.

(** X21.  A service as the constructor returns it has no interval
    running and no scan call in flight: callbacks of the polling, save
    and scan intervals cannot occur and no scan call can settle.  The
    polling and save intervals start when the console shows the line that
    the wallet has finished loading (and none of the three markers tested
    before it); the scan interval does not start then. *)
Theorem X21_intervals_start_with_the_loaded_wallet (opts : Opts) (s : t) (line : string) :
  new opts = Some s →
  includes "Wallet loading is finished" line = true →
  includes "Loading container" line = false →
  includes "The password is wrong" line = false →
  includes "Container loaded" line = false →
  (∀ o, step (InPoll o) s = s)
  ∧ (∀ o, step (InSave o) s = s)
  ∧ step InScanTick s = s
  ∧ (∀ k o, step (InScanSettle k o) s = s)
  ∧ pollingIntervalPtr (step (InChildData [line]) s) = true
  ∧ saveIntervalPtr (step (InChildData [line]) s) = true
  ∧ scanIntervalPtr (step (InChildData [line]) s) = false.
Proof.
  intros Hnew Hfin Hload Hwrong Hcont.
  assert (Hinit : exited s = None ∧ pollingIntervalPtr s = false
                  ∧ saveIntervalPtr s = false ∧ scanIntervalPtr s = false
                  ∧ scansInFlight s = []).
  { unfold new in Hnew.
    apply bind_Some in Hnew as (? & _ & Hnew). apply bind_Some in Hnew as (? & _ & Hnew).
    apply bind_Some in Hnew as (? & _ & Hnew). apply bind_Some in Hnew as (? & _ & Hnew).
    apply bind_Some in Hnew as (? & _ & Hnew). by injection Hnew as <-. }
  destruct Hinit as (Hex & Hp & Hs & Hsc & Hfl).
  unfold step. rewrite Hex, Hp, Hs, Hsc.
  split; [done|]. split; [done|]. split; [done|].
  split; [intros k o; unfold scan_return; by rewrite Hfl, lookup_nil|].
  cbn [on_child_data]. rewrite Hex, _stdio_exited.
  unfold halting_line. rewrite Hload, Hwrong, Hex. cbn [negb andb].
  unfold _stdio. rewrite Hload, Hwrong, Hcont, Hfin. unfold _startChecks.
  rewrite emit_pollingIntervalPtr, emit_saveIntervalPtr, emit_scanIntervalPtr.
  cbn [pollingIntervalPtr saveIntervalPtr scanIntervalPtr set_checks
       String.eqb Ascii.eqb Bool.eqb].
  rewrite emit_scanIntervalPtr. cbn [String.eqb Ascii.eqb Bool.eqb]. done.
Qed.

Lemma leading_blank_app s x : leading_blank s → leading_blank (s +:+ x).
Proof. intros [rest ->]. by exists (rest +:+ x). Qed.

Lemma leading_blank_if (b : bool) s1 s2 :
  leading_blank s1 → leading_blank s2 → leading_blank (if b then s1 else s2).
Proof. by destruct b. Qed.

Lemma leading_blank_bind (b : bool) x y :
  leading_blank ((if b then "" +:+ " --config " +:+ x else "") +:+ " --bind-address " +:+ y).
Proof. destruct b; eexists; reflexivity. Qed.

Lemma leading_blank_split s : leading_blank s → ∃ rest, split_space s = "" :: rest.
Proof. intros [rest ->]. by eexists. Qed.

Lemma _buildargs_leading_empty s args s' :
  _buildargs s = (Some args, s') → ∃ rest, args = "" :: rest.
Proof.
  unfold _buildargs.
  destruct (truthy (rpcPassword (conf s)));
    [|destruct (truthy (rpcLegacySecurity (conf s))); [|discriminate]];
    (destruct (negb (truthy (containerFile (conf s)))); [discriminate|];
     destruct (negb _); [discriminate|];
     destruct (negb (truthy (containerPassword (conf s))));
     intros [= <- _]; apply leading_blank_split;
     repeat first [ apply leading_blank_bind | apply leading_blank_if
                  | apply leading_blank_app ]).
Qed.

(** X22.  The argument string [_buildargs] builds starts with a blank, so
    the list [split(' ')] makes of it starts with an empty string: the
    child is always spawned with an empty first argument. *)
Theorem X22_spawned_with_an_empty_first_argument (s : t) :
  credential_given (conf s) && container_present (conf s) = true →
  ∃ rest, spawned (start s).2 = (path (conf s), "" :: rest) :: spawned s.
Proof.
  intros Hok. unfold start.
  set (s0 := set_synced false (emit "info" [JStr "Attempting to start zum-service..."] s)).
  assert (Hconf : conf s0 = conf s) by (subst s0; cbn; apply emit_conf).
  assert (Hsp : spawned s0 = spawned s) by (subst s0; cbn; apply emit_spawned).
  rewrite <- Hconf in Hok.
  destruct (_buildargs_accepts s0 Hok) as (args & s1 & Hb & Hc1 & Hs1 & _).
  destruct (_buildargs_leading_empty s0 args s1 Hb) as [rest ->].
  rewrite Hb. cbn [fst snd]. rewrite emit_spawned. cbn [spawned set_spawned].
  exists rest. by rewrite Hc1, Hs1, Hconf, Hsp.
Qed.

(** X23.  [stop()] clears the three intervals and marks the service
    unsynced: no scan tick occurs afterwards, until the next [synced]
    arms a new scan interval.  It cancels neither a scan call in flight,
    which still settles, emits its transactions and stores its cursor,
    nor the down timer: a timer that was pending still emits [down] when
    it is due. *)
Theorem X23_stop_clears_the_intervals (s : t) :
  pollingIntervalPtr (stop s) = false
  ∧ saveIntervalPtr (stop s) = false
  ∧ scanIntervalPtr (stop s) = false
  ∧ synced (stop s) = false
  ∧ step InScanTick (stop s) = stop s
  ∧ scanIntervalPtr (emit "synced" [] (stop s)) = true
  ∧ (∀ rq txs,
       exited s = None → scansInFlight s = [rq] →
       let s' := step (InScanSettle 0 (Resolved txs)) (stop s) in
       emitted s' = emitted s ++ map (λ tx, ("transaction", [tx])) txs
       ∧ db s' = <["scanHeight" := firstBlockIndex rq + scan_blockCount rq]> (db s))
  ∧ (∀ tm now, trigger s = Some tm → fired tm = false → due tm ≤ now →
               count_emitted "down" (advance now (stop s)) = S (count_emitted "down" s)).
Proof.
  split; [reflexivity|]. split; [reflexivity|]. split; [reflexivity|].
  split; [reflexivity|]. split; [|split; [|split]].
  - unfold step. by destruct (exited (stop s)).
  - by rewrite emit_scanIntervalPtr.
  - intros rq txs Hex Hfl s'. subst s'. unfold step, scan_return.
    change (exited (stop s)) with (exited s).
    change (scansInFlight (stop s)) with (scansInFlight s).
    rewrite Hex, Hfl. cbn [lookup list_lookup delete list_delete].
    by rewrite scan_settle_resolved_emitted, scan_settle_resolved_store.
  - intros tm now Ht Hf Hdue.
    destruct (advance_fires now (stop s) tm) as (Hd & _); [exact Ht|exact Hf|exact Hdue|].
    exact Hd.
Qed.

(** *** Nothing but [start()] spawns *)

Lemma spawned_untouched : Untouched spawned.
Proof. by split. Qed.

Lemma spawned_scan_call s : spawned (scan_call s) = spawned s.
Proof.
  unfold scan_call, scan_tick.
  destruct (negb (synced s)); [reflexivity|].
  destruct (_ >=? _); [reflexivity|].
  cbn [spawned set_scansInFlight]. apply emit_spawned.
Qed.

Lemma spawned_scan_return k o s : spawned (scan_return k o s) = spawned s.
Proof.
  unfold scan_return. destruct (_ !! k) as [rq|]; [|reflexivity].
  destruct o; unfold scan_settle, db_put; cbn [spawned set_stored set_db];
    rewrite ?(transactions_untouched spawned spawned_untouched), ?emit_spawned;
    reflexivity.
Qed.

Lemma spawned_step i s : i ≠ InStart → spawned (step i s) = spawned s.
Proof.
  intros Hi. destruct (plain_input i) eqn:Hplain.
  - by apply (step_untouched spawned spawned_untouched).
  - destruct i; try discriminate; [done| |];
      unfold step; destruct (exited s); try reflexivity.
    + destruct (scanIntervalPtr s); [apply spawned_scan_call|reflexivity].
    + apply spawned_scan_return.
Qed.

(** X24.  The supervisor never restarts the child by itself: whatever
    reaches the process (the child closing or failing, polls failing,
    [down], gateway traffic), a child is spawned only by a call of
    [start()], and one call spawns at most one. *)
Theorem X24_only_start_spawns (inputs : list input) (s : t) :
  (InStart ∉ inputs → spawned (run inputs s) = spawned s)
  ∧ (length (spawned (run inputs s))
     ≤ length (spawned s) + length (filter (λ i, is_start i = true) inputs))%nat.
Proof.
  split.
  - revert s. induction inputs as [|i inputs IH]; intros s Hno; [reflexivity|].
    cbn. change (foldl _ (step i s) inputs) with (run inputs (step i s)).
    rewrite IH by (intros ?; apply Hno; by right).
    apply spawned_step. intros ->. apply Hno. by left.
  - revert s. induction inputs as [|i inputs IH]; intros s; [cbn; lia|].
    cbn [run foldl]. change (foldl _ (step i s) inputs) with (run inputs (step i s)).
    etrans; [apply IH|].
    destruct (is_start i) eqn:Hst.
    + rewrite filter_cons_True by done. destruct i; try discriminate Hst.
      cbn [length]. unfold step. destruct (exited s); [lia|].
      destruct (start_outcome s) as [_ ->].
      destruct (_buildargs _).1; cbn [length]; lia.
    + rewrite filter_cons_False by (by rewrite Hst).
      rewrite spawned_step; [lia|]. intros ->. discriminate.
Qed.

End Supervisor.

(** ** The scan loop: ticks and calls in flight *)

Section ScanLoop.
Context {ext : Externals}.

Lemma step_scan_tick s :
  exited s = None → scanIntervalPtr s = true → synced s = true →
  scanHeight s < knownBlockCount s →
  step InScanTick s
  = set_scansInFlight
      (scansInFlight s
       ++ [{| firstBlockIndex := scanHeight s;
              scan_blockCount := scan_batch (scanHeight s) (knownBlockCount s) |}])
      (emit "scan" [JNum (scanHeight s);
                    JNum (scanHeight s + scan_batch (scanHeight s) (knownBlockCount s))] s).
Proof.
  intros Hex Hptr Hs Hlt. unfold step, scan_call.
  rewrite Hex, Hptr, (scan_tick_request s Hs Hlt). cbn [scansInFlight set_scansInFlight].
  by rewrite emit_scansInFlight.
Qed.

Lemma step_scan_settle k o s rq :
  exited s = None → scansInFlight s !! k = Some rq →
  step (InScanSettle k o) s
  = scan_settle rq o (set_scansInFlight (delete k (scansInFlight s)) s).
Proof. intros Hex Hk. unfold step, scan_return. by rewrite Hex, Hk. Qed.

(** What a settlement that succeeds leaves as it was. *)
Lemma scan_settle_keeps rq txs s :
  let s' := scan_settle rq (Resolved txs) s in
  exited s' = exited s ∧ scanIntervalPtr s' = scanIntervalPtr s
  ∧ synced s' = synced s ∧ knownBlockCount s' = knownBlockCount s.
Proof.
  unfold scan_settle, db_put.
  cbn [exited scanIntervalPtr synced knownBlockCount set_stored set_db].
  generalize s. induction txs as [|tx txs IH]; intros s0; [done|].
  cbn [foldl]. destruct (IH (emit "transaction" [tx] s0)) as (-> & -> & -> & ->).
  by rewrite emit_exited, emit_scanIntervalPtr, emit_synced, emit_knownBlockCount.
Qed.

(** X25.  With a backlog of more than 100 and fewer than 1000 blocks the
    tick asks for all but the last block: the call stops one block short
    of the known block count and the next tick fetches that block alone;
    a third tick finds nothing to scan.  (One call at a time, both
    succeeding, with the known block count unchanged.) *)
Theorem X25_catching_up_takes_two_ticks (s : t) (txs1 txs2 : list jsval) :
  exited s = None → scanIntervalPtr s = true → synced s = true →
  scansInFlight s = [] → 0 < scanHeight s →
  100 < knownBlockCount s - scanHeight s < 1000 →
  let s2 := run [InScanTick; InScanSettle 0 (Resolved txs1)] s in
  let s4 := run [InScanTick; InScanSettle 0 (Resolved txs2)] s2 in
  scanHeight s2 = knownBlockCount s - 1
  ∧ scanHeight s4 = knownBlockCount s
  ∧ step InScanTick s4 = s4.
Proof.
  intros Hex Hptr Hs Hfl Hpos Hlog s2 s4.
  assert (Hb1 : scan_batch (scanHeight s) (knownBlockCount s)
                = knownBlockCount s - scanHeight s - 1).
  { unfold scan_batch, batch_clamp, batch_step. rewrite !Z.gtb_ltb.
    destruct (Z.ltb_spec 100 (knownBlockCount s - scanHeight s)); [|lia].
    destruct (Z.ltb_spec (knownBlockCount s) (scanHeight s + 1000)); lia. }
  set (rq1 := {| firstBlockIndex := scanHeight s;
                 scan_blockCount := scan_batch (scanHeight s) (knownBlockCount s) |}).
  assert (Hs2 : s2 = scan_settle rq1 (Resolved txs1)
                       (set_scansInFlight []
                          (step InScanTick s))).
  { subst s2. cbn [run foldl]. rewrite (step_scan_settle 0 _ _ rq1).
    - rewrite (step_scan_tick s Hex Hptr Hs) by lia. rewrite Hfl. reflexivity.
    - rewrite (step_scan_tick s Hex Hptr Hs) by lia. cbn [exited set_scansInFlight].
      by rewrite emit_exited.
    - rewrite (step_scan_tick s Hex Hptr Hs) by lia. rewrite Hfl. reflexivity. }
  assert (Hh2 : scanHeight s2 = knownBlockCount s - 1).
  { rewrite Hs2, scan_settle_cursor. subst rq1. cbn [firstBlockIndex scan_blockCount].
    rewrite Hb1. destruct (Z.eqb_spec (scanHeight s + (knownBlockCount s - scanHeight s - 1)) 0);
      lia. }
  assert (Hk2 : exited s2 = None ∧ scanIntervalPtr s2 = true ∧ synced s2 = true
                ∧ knownBlockCount s2 = knownBlockCount s ∧ scansInFlight s2 = []).
  { rewrite Hs2. destruct (scan_settle_keeps rq1 txs1
                             (set_scansInFlight [] (step InScanTick s)))
      as (-> & -> & -> & ->).
    rewrite scan_settle_scansInFlight.
    rewrite (step_scan_tick s Hex Hptr Hs) by lia.
    cbn [exited scanIntervalPtr synced knownBlockCount scansInFlight set_scansInFlight].
    rewrite emit_exited, emit_scanIntervalPtr, emit_synced, emit_knownBlockCount.
    cbn [String.eqb Ascii.eqb Bool.eqb]. done. }
  destruct Hk2 as (Hex2 & Hptr2 & Hsy2 & Hkn2 & Hfl2).
  assert (Hb2 : scan_batch (scanHeight s2) (knownBlockCount s2) = 1).
  { rewrite Hh2, Hkn2. unfold scan_batch, batch_clamp, batch_step. rewrite !Z.gtb_ltb.
    destruct (Z.ltb_spec 100 (knownBlockCount s - (knownBlockCount s - 1))); [lia|].
    destruct (Z.ltb_spec 10 (knownBlockCount s - (knownBlockCount s - 1))); [lia|].
    destruct (Z.ltb_spec (knownBlockCount s) (knownBlockCount s - 1 + 1)); lia. }
  set (rq2 := {| firstBlockIndex := scanHeight s2;
                 scan_blockCount := scan_batch (scanHeight s2) (knownBlockCount s2) |}).
  assert (Hs4 : s4 = scan_settle rq2 (Resolved txs2)
                       (set_scansInFlight [] (step InScanTick s2))).
  { subst s4. cbn [run foldl]. rewrite (step_scan_settle 0 _ _ rq2).
    - rewrite (step_scan_tick s2 Hex2 Hptr2 Hsy2) by lia. rewrite Hfl2. reflexivity.
    - rewrite (step_scan_tick s2 Hex2 Hptr2 Hsy2) by lia. cbn [exited set_scansInFlight].
      by rewrite emit_exited.
    - rewrite (step_scan_tick s2 Hex2 Hptr2 Hsy2) by lia. rewrite Hfl2. reflexivity. }
  assert (Hh4 : scanHeight s4 = knownBlockCount s).
  { rewrite Hs4, scan_settle_cursor. subst rq2. cbn [firstBlockIndex scan_blockCount].
    rewrite Hb2, Hh2. destruct (Z.eqb_spec (knownBlockCount s - 1 + 1) 0); lia. }
  split; [exact Hh2|]. split; [exact Hh4|].
  unfold step, scan_call. destruct (exited s4); [reflexivity|].
  destruct (scanIntervalPtr s4); [|reflexivity].
  rewrite scan_tick_idle; [reflexivity|].
  rewrite Hh4, Hs4.
  destruct (scan_settle_keeps rq2 txs2 (set_scansInFlight [] (step InScanTick s2)))
    as (_ & _ & _ & ->).
  rewrite (step_scan_tick s2 Hex2 Hptr2 Hsy2) by lia.
  cbn [knownBlockCount set_scansInFlight]. rewrite emit_knownBlockCount. lia.
Qed.

(** X26.  A tick does not wait for the call of the tick before it: two
    ticks with no settlement in between ask for the same range, and when
    both calls succeed every transaction of the range is emitted twice and
    the same cursor is stored twice. *)
Theorem X26_ticks_do_not_wait (s : t) (txs : list jsval) :
  exited s = None → scanIntervalPtr s = true → synced s = true →
  scansInFlight s = [] → scanHeight s < knownBlockCount s →
  let rq := {| firstBlockIndex := scanHeight s;
               scan_blockCount := scan_batch (scanHeight s) (knownBlockCount s) |} in
  let s2 := run [InScanTick; InScanTick] s in
  let s4 := run [InScanSettle 0 (Resolved txs); InScanSettle 0 (Resolved txs)] s2 in
  scansInFlight s2 = [rq; rq]
  ∧ emitted s4
    = emitted s2 ++ map (λ tx, ("transaction", [tx])) txs
                 ++ map (λ tx, ("transaction", [tx])) txs
  ∧ snd <$> stored s4
    = (snd <$> stored s)
      ++ [("scanHeight", scanHeight s + scan_blockCount rq);
          ("scanHeight", scanHeight s + scan_blockCount rq)]
  ∧ scansInFlight s4 = [].
Proof.
  intros Hex Hptr Hs Hfl Hlt rq s2 s4.
  set (s1 := step InScanTick s).
  assert (Hs1 : s1 = set_scansInFlight [rq]
                       (emit "scan" [JNum (scanHeight s);
                                     JNum (scanHeight s + scan_blockCount rq)] s)).
  { subst s1. rewrite (step_scan_tick s Hex Hptr Hs Hlt), Hfl. reflexivity. }
  assert (Hf1 : exited s1 = None ∧ scanIntervalPtr s1 = true ∧ synced s1 = true
                ∧ scanHeight s1 = scanHeight s ∧ knownBlockCount s1 = knownBlockCount s
                ∧ scansInFlight s1 = [rq] ∧ stored s1 = stored s).
  { rewrite Hs1.
    cbn [exited scanIntervalPtr synced knownBlockCount scansInFlight stored
         set_scansInFlight].
    rewrite emit_exited, emit_scanIntervalPtr, emit_synced, emit_knownBlockCount,
      emit_stored.
    cbn [String.eqb Ascii.eqb Bool.eqb].
    repeat split; try done. apply scanHeight_db. cbn [db set_scansInFlight]. apply emit_db. }
  destruct Hf1 as (Hex1 & Hptr1 & Hsy1 & Hh1 & Hk1 & Hfl1 & Hst1).
  assert (Hs2 : s2 = set_scansInFlight [rq; rq]
                       (emit "scan" [JNum (scanHeight s);
                                     JNum (scanHeight s + scan_blockCount rq)] s1)).
  { subst s2. cbn [run foldl]. fold s1.
    rewrite (step_scan_tick s1 Hex1 Hptr1 Hsy1) by (rewrite Hh1, Hk1; exact Hlt).
    by rewrite Hh1, Hk1, Hfl1. }
  assert (Hf2 : exited s2 = None ∧ scansInFlight s2 = [rq; rq] ∧ stored s2 = stored s).
  { rewrite Hs2. cbn [exited scansInFlight stored set_scansInFlight].
    by rewrite emit_exited, emit_stored. }
  destruct Hf2 as (Hex2 & Hfl2 & Hst2).
  split; [exact Hfl2|].
  set (s3 := step (InScanSettle 0 (Resolved txs)) s2).
  assert (Hs3 : s3 = scan_settle rq (Resolved txs) (set_scansInFlight [rq] s2)).
  { subst s3. rewrite (step_scan_settle 0 _ s2 rq Hex2) by (by rewrite Hfl2).
    by rewrite Hfl2. }
  assert (Hf3 : exited s3 = None ∧ scansInFlight s3 = [rq]).
  { rewrite Hs3. destruct (scan_settle_keeps rq txs (set_scansInFlight [rq] s2))
      as (-> & _). by rewrite scan_settle_scansInFlight. }
  destruct Hf3 as (Hex3 & Hfl3).
  assert (Hs4 : s4 = scan_settle rq (Resolved txs) (set_scansInFlight [] s3)).
  { subst s4. cbn [run foldl]. fold s3.
    rewrite (step_scan_settle 0 _ s3 rq Hex3) by (by rewrite Hfl3).
    by rewrite Hfl3. }
  rewrite Hs4, scan_settle_resolved_emitted, scan_settle_resolved_stored,
    scan_settle_scansInFlight.
  cbn [emitted stored scansInFlight set_scansInFlight].
  rewrite Hs3, scan_settle_resolved_emitted, scan_settle_resolved_stored.
  cbn [emitted stored set_scansInFlight firstBlockIndex scan_blockCount rq].
  rewrite Hst2, !fmap_app, <- !app_assoc. done.
Qed.

End ScanLoop.

(** ** The constructor *)

Section Constructor.
Context {ext : Externals}.
Import Options.




(** X28.  The gateway of a constructed service has no client yet, listens
    on the port after [bindPort] and is protected by the RPC password, of
    which it stores the hash.  A service without an RPC password, as in
    the legacy mode, has a gateway that stores [false]: the challenge it
    accepts is the value [false]. *)
Theorem X28_gateway_of_the_service (opts : Opts) (s : t) :
  new opts = Some s →
  ∃ w, webSocket s = Some w
       ∧ WebSocket.permittedClients w = ∅ ∧ WebSocket.sockets w = ∅
       ∧ WebSocket.port w
         = (if bindPort (conf s) + 1 =? 0 then 17071 else bindPort (conf s) + 1)
       ∧ WebSocket.password w
         = (if truthy (o_rpcPassword opts) then JStr (sha256 (o_rpcPassword opts))
            else JBool false)
       ∧ (truthy (o_rpcPassword opts) = false →
          ∀ challenge, strict_eq challenge (WebSocket.password w) = true
                       ↔ challenge = JBool false).
Proof.
  intros Hnew.
  destruct (new_conf _ _ Hnew) as (Hen & Hws & Hpw & _).
  assert (Ht : truthy (enableWebSocket (conf s)) = true)
    by (rewrite Hen; apply js_or_truthy; reflexivity).
  unfold _setupWebSocket in Hws. rewrite Ht in Hws.
  eexists. split; [exact Hws|]. split; [reflexivity|]. split; [reflexivity|].
  split; [reflexivity|].
  assert (Hpass : WebSocket.password (WebSocket.new (rpcPassword (conf s))
                                        (bindPort (conf s) + 1))
                  = if truthy (o_rpcPassword opts) then JStr (sha256 (o_rpcPassword opts))
                    else JBool false).
  { unfold WebSocket.new. cbn [WebSocket.password]. rewrite Hpw. unfold js_or.
    destruct (truthy (o_rpcPassword opts)) eqn:Ho; cbn; by rewrite ?Ho. }
  split; [exact Hpass|].
  intros Ho challenge. rewrite Hpass, Ho.
  destruct challenge as [| |[|]| | |]; cbn; split; (done || by intros [= ]).
Qed.




End Constructor.

(** * The properties on explicit inputs *)

#[local] Existing Instance Sample.externals.

(** With the default configuration (interval 10, three failures allowed) two
    failed polls in a row have already produced [down]. *)
Lemma C1_default_configuration_witness :
  let s1 := run_polls [Rejected (JStr "ETIMEDOUT")] Sample.wallet in
  let s2 := run_polls [Rejected (JStr "ETIMEDOUT"); Rejected (JStr "ETIMEDOUT")]
                      Sample.wallet in
  count_emitted "down" (advance (clock s1 + 10 * 3) s1)
  = S (count_emitted "down" Sample.wallet)
  ∧ count_emitted "down" s2 = S (count_emitted "down" Sample.wallet)
  ∧ isRunning s2 = false.
Proof.
  apply (C1_down_fires_before_maxPollingFailures Sample.wallet).
  - reflexivity.
  - vm_compute. reflexivity.
  - vm_compute. split; [reflexivity|discriminate].
Defined.

(** The wrong-password line gives four [error] signals, not three; a line
    that also carries the container-loading marker gives none and the
    process goes on. *)
Lemma C2_three_errors_counterexample :
  includes "The password is wrong" "Error: The password is wrong" = true
  ∧ count_emitted "error" (_stdio "Error: The password is wrong" Sample.wallet) = 4%nat
  ∧ count_emitted "error" (_stdio "Error: The password is wrong" Sample.wallet)
    ≠ (count_emitted "error" Sample.wallet + 3)%nat
  ∧ includes "The password is wrong" "Loading container: The password is wrong" = true
  ∧ count_emitted "error"
      (_stdio "Loading container: The password is wrong" Sample.wallet) = 0%nat
  ∧ exited (_stdio "Loading container: The password is wrong" Sample.wallet) = None.
Proof.
  split; [reflexivity|]. split; [reflexivity|]. split; [|repeat split; reflexivity].
  vm_compute. discriminate.
Defined.

(** The wrong-password line on the example wallet. *)
Lemma C2_wrong_password_witness :
  let s' := _stdio "Error: The password is wrong" Sample.wallet in
  count_emitted "error" s' = (count_emitted "error" Sample.wallet + 4)%nat
  ∧ exited s' = Some 1
  ∧ spawned s' = spawned Sample.wallet
  ∧ run [InStart; InPoll (Rejected JNull)] s' = s'.
Proof.
  destruct (C2_wrong_password_halts Sample.wallet "Error: The password is wrong")
    as (_ & Hcount & Hexit & Hspawn & _ & Hrun); [reflexivity|reflexivity|].
  intros s'. split; [exact Hcount|]. split; [exact Hexit|].
  split; [exact Hspawn|apply Hrun].
Defined.

(** The warning of [start()] about a missing container password, as the
    authenticated connection [c1] sees it. *)
Lemma C3_warning_witness :
  authenticated "c1" Sample.wallet_c1 = true
  ∧ wire "c1" (emit "warning" [JStr "No wallet container password defined"]
                 Sample.wallet_c1)
    = wire "c1" Sample.wallet_c1
      ++ [("info", JStr "No wallet container password defined")].
Proof.
  split; [reflexivity|].
  apply (C3_warning_is_broadcast_as_info Sample.wallet_c1 "c1"
           "No wallet container password defined").
  reflexivity.
Defined.

(** Cursor 1 and known block count 501: the request is for 499 blocks; with
    the known block count at the cursor the tick does nothing. *)
Lemma C4_backlog_500_witness :
  scanHeight Sample.wallet_behind = 1
  ∧ knownBlockCount Sample.wallet_behind = 501
  ∧ ∃ cnt, (scan_tick Sample.wallet_behind).2
           = Some {| firstBlockIndex := 1; scan_blockCount := cnt |}
           ∧ cnt = 499
  ∧ scan_tick (set_knownBlockCount 1 Sample.wallet_behind)
    = (set_knownBlockCount 1 Sample.wallet_behind, None).
Proof.
  split; [reflexivity|]. split; [reflexivity|].
  destruct (C4_scan_batch_step_and_clamp Sample.wallet_behind) as (Hreq & _).
  destruct Hreq as (cnt & Htick & Hcnt & _); [reflexivity|reflexivity|].
  exists cnt. split; [by rewrite Htick|]. split; [by rewrite Hcnt|].
  apply (C4_scan_batch_step_and_clamp (set_knownBlockCount 1 Sample.wallet_behind)).
  vm_compute. discriminate.
Defined.



(** The first reply one block short of the network emits [synced]; the
    same reply again does not. *)
Lemma C6_first_synced_reply_witness :
  let s1 := poll_cycle (Resolved Sample.reply_99_of_100) Sample.wallet in
  synced s1 = true
  ∧ count_emitted "synced" s1 = 1%nat
  ∧ count_emitted "synced" (poll_cycle (Resolved Sample.reply_99_of_100) s1) = 1%nat.
Proof.
  intros s1. destruct C6_synced_edge_triggered as (Hedge & Hlevel & _).
  destruct (Hedge Sample.wallet Sample.reply_99_of_100) as (Hs & Hc);
    [right; reflexivity|reflexivity|].
  split; [exact Hs|]. split; [exact Hc|].
  rewrite (Hlevel s1 _ Hs). exact Hc.
Defined.

(** A reply with [blockCount] 99 and [knownBlockCount] 100 leaves the
    service with a known block count of 99. *)
Lemma C7_reply_knownBlockCount_counterexample :
  reply_knownBlockCount Sample.reply_99_of_100 = 100
  ∧ knownBlockCount (poll_cycle (Resolved Sample.reply_99_of_100) Sample.wallet) = 99
  ∧ knownBlockCount (poll_cycle (Resolved Sample.reply_99_of_100) Sample.wallet)
    ≠ reply_knownBlockCount Sample.reply_99_of_100.
Proof.
  split; [reflexivity|]. split; [reflexivity|]. vm_compute. discriminate.
Defined.

(** After that reply the scan is sized against 99: cursor 1, batch 10. *)
Lemma C7_blockCount_witness :
  let s' := poll_cycle (Resolved Sample.reply_99_of_100) Sample.wallet in
  knownBlockCount s' = 99
  ∧ ∃ s'', scan_tick s' = (s'', Some {| firstBlockIndex := 1; scan_blockCount := 10 |}).
Proof.
  intros s'.
  destruct (C7_knownBlockCount_is_reply_blockCount Sample.wallet Sample.reply_99_of_100)
    as (Hk & _ & Hscan).
  split; [exact Hk|]. apply Hscan; [reflexivity|]. vm_compute. reflexivity.
Defined.

(** With both an RPC password and the legacy mode, [start()] spawns. *)
Lemma C8_both_credentials_counterexample :
  exactly_one_credential (conf Sample.wallet_both) = false
  ∧ (start Sample.wallet_both).1 = JUndefined
  ∧ length (spawned (start Sample.wallet_both).2) = 1%nat
  ∧ spawned (start Sample.wallet_both).2 ≠ spawned Sample.wallet_both
  ∧ count_emitted "error" (start Sample.wallet_both).2 = 0%nat.
Proof.
  split; [reflexivity|]. split; [reflexivity|]. split; [reflexivity|].
  split; [|reflexivity]. vm_compute. discriminate.
Defined.

(** Without options [start()] refuses; the example wallet is spawned with
    the option [--rpc-password]; with the legacy mode switched on as well,
    [start()] spawns the same. *)
Lemma C8_start_witness :
  ((start Sample.service0).1 = JBool false
   ∧ spawned (start Sample.service0).2 = spawned Sample.service0
   ∧ count_emitted "error" (start Sample.service0).2 = 2%nat)
  ∧ ((start Sample.wallet).1 = JUndefined
     ∧ ∃ args, spawned (start Sample.wallet).2 = (path (conf Sample.wallet), args) :: []
               ∧ "--rpc-password" ∈ args)
  ∧ spawned (start Sample.wallet_both).2 = spawned (start Sample.wallet).2.
Proof.
  split; [|split].
  - destruct (C8_start_validates_configuration Sample.service0) as (Hbad & _).
    destruct Hbad as (Hret & Hsp & Herr & _); [reflexivity|].
    split; [exact Hret|]. split; [exact Hsp|exact Herr].
  - destruct (C8_start_validates_configuration Sample.wallet) as (_ & Hgood & _).
    destruct Hgood as (Hret & Hsp & _); [reflexivity|].
    split; [exact Hret|exact Hsp].
  - destruct (C8_start_validates_configuration Sample.wallet) as (_ & _ & Hsame).
    apply (Hsame eq_refl (JBool true) Sample.wallet_both); reflexivity.
Defined.

(** A request with nonce 0 is answered under a generated nonce. *)
Lemma C9_nonce_zero_counterexample :
  JSON_parse (Sample.json_nonce "0") = Some (JObj [("nonce", JNum 0)])
  ∧ wire "c1" (step (InRequest "c1" "getStatus" (Sample.json_nonce "0")
                       (Resolved (JStr "ok"))) Sample.wallet_c1)
    = wire "c1" Sample.wallet_c1
      ++ [("getStatus", JObj [("nonce", JNum 1000); ("data", JStr "ok")])]
  ∧ JNum 1000 ≠ JNum 0.
Proof.
  split; [reflexivity|]. split; [reflexivity|]. discriminate.
Defined.

(** A request with nonce 111 is answered under 111. *)
Lemma C9_nonce_111_witness :
  ∃ p s',
    ws_request "c1" "getStatus" (Sample.json_nonce "111") Sample.wallet_c1 = ([p], s')
    ∧ get_field "nonce" (p_data p) = JNum 111
    ∧ wire "c1" (request_settle p (Resolved (JStr "ok")) s')
      = wire "c1" Sample.wallet_c1
        ++ [("getStatus", JObj [("nonce", JNum 111); ("data", JStr "ok")])].
Proof.
  destruct (C9_response_carries_request_nonce Sample.wallet_c1 "c1" "getStatus"
              (Sample.json_nonce "111") Sample.gateway_c1 Sample.socket_c1
              [("nonce", JNum 111)])
    as (p & s' & Hreq & _ & _ & Hnonce & Hwire & Hok & _);
    [reflexivity|reflexivity|reflexivity| |reflexivity|].
  - apply (bool_decide_unpack _). vm_compute. exact I.
  - exists p, s'. split; [exact Hreq|]. split; [exact Hnonce|].
    rewrite Hok, Hwire; [reflexivity|].
    assert (Hs' : s' = (ws_request "c1" "getStatus" (Sample.json_nonce "111")
                          Sample.wallet_c1).2) by (by rewrite Hreq).
    rewrite Hs'. exists Sample.gateway_c1, Sample.socket_c1. split; reflexivity.
Defined.

(** Whatever the [enableWebSocket] option, the gateway is on. *)
Lemma C10_enableWebSocket_false_witness :
  truthy (enableWebSocket (conf Sample.service_gateway_off)) = true
  ∧ is_Some (webSocket Sample.service_gateway_off)
  ∧ (∀ b, o_enableWebSocket Sample.opts_gateway_off = JBool b →
          enableWebSocket (conf Sample.service_gateway_off) = JBool true)
  ∧ (o_enableWebSocket Sample.opts_gateway_off = JUndefined →
     enableWebSocket (conf Sample.service_gateway_off) = JBool true).
Proof.
  apply (C10_enableWebSocket_always_on Sample.opts_gateway_off).
  reflexivity.
Defined.

(** ** What the conditions on a gateway request are for *)

(** A connection that sends the right challenge a second time has the
    command listeners attached twice: one request, two calls. *)
Example second_handshake_doubles_the_calls :
  length (ws_request "c1" "getStatus" "{}"
            (ws_challenge "c1" (JStr "sha256:changeme") Sample.wallet_c1)).1 = 2%nat.
Proof. reflexivity. Qed.

(** A payload that is the JSON text [null] makes the listener throw: no
    call is made and no response is sent. *)
Example null_payload_gets_no_response :
  (ws_request "c1" "getStatus" "null" Sample.wallet_c1).1 = []
  ∧ uncaught (ws_request "c1" "getStatus" "null" Sample.wallet_c1).2
    = ["TypeError: Cannot read property 'nonce'"]
  ∧ wire "c1" (step (InRequest "c1" "getStatus" "null" (Resolved JNull)) Sample.wallet_c1)
    = wire "c1" Sample.wallet_c1.
Proof. repeat split; reflexivity. Qed.

(** Two requests in flight, nonces 111 and 222, settled in the reverse
    order: each response carries the nonce of its request. *)
Example responses_out_of_order :
  let '(ps1, s1) := ws_request "c1" "getStatus" (Sample.json_nonce "111") Sample.wallet_c1 in
  let '(ps2, s2) := ws_request "c1" "getBalance" (Sample.json_nonce "222") s1 in
  let s3 := foldl (λ s p, request_settle p (Rejected (JStr "busy")) s) s2 ps2 in
  let s4 := foldl (λ s p, request_settle p (Resolved (JStr "ok")) s) s3 ps1 in
  wire "c1" s4
  = wire "c1" Sample.wallet_c1
    ++ [("getBalance", JObj [("nonce", JNum 222); ("error", JStr "busy")]);
        ("getStatus", JObj [("nonce", JNum 111); ("data", JStr "ok")])].
Proof. reflexivity. Qed.

(** * The further properties on explicit inputs *)

(** [save] is broadcast to [c1], which passed the handshake, with the
    payload [{}], and not to [c2], which has only connected. *)
Lemma X1_save_reaches_c1_witness :
  let w' := (WebSocket.broadcast (JStr "save") JUndefined Sample.gateway_c1).2 in
  WebSocket.sockets w' !! "c1" = Some (push ("save", JObj []) Sample.socket_c1)
  ∧ WebSocket.sockets w' !! "c2" = Some Sample.socket_c2.
Proof.
  intros w'.
  destruct (X1_broadcast_delivers_once_to_each_permitted
              "save" JUndefined Sample.gateway_c1) as (_ & _ & _ & Hs); [done|].
  subst w'. rewrite (Hs "c1"), (Hs "c2"). split; vm_compute; reflexivity.
Defined.

(** The empty string is no event. *)
Lemma X2_empty_event_witness :
  WebSocket.broadcast (JStr "") (JStr "x") Sample.gateway_c1 = (false, Sample.gateway_c1)
  ∧ WebSocket.send "c1" (JStr "") (JStr "x") Sample.gateway_c1
    = (false, Sample.gateway_c1).
Proof.
  apply (X2_no_event_nothing_sent (JStr "") (JStr "x") "c1" Sample.gateway_c1).
  reflexivity.
Defined.

(** [send] reaches [c2], which is not a permitted client. *)
Lemma X3_send_to_c2_witness :
  let w' := (WebSocket.send "c2" (JStr "notice") (JStr "hello") Sample.gateway_c1).2 in
  WebSocket.sockets w' !! "c2" = Some (push ("notice", JStr "hello") Sample.socket_c2)
  ∧ WebSocket.sockets w' !! "c1" = Some Sample.socket_c1.
Proof.
  intros w'.
  destruct (X3_send_reaches_only_its_socket
              "c2" "notice" (JStr "hello") Sample.gateway_c1) as (_ & _ & Hc2 & Hother);
    [done|].
  subst w'. rewrite Hc2, (Hother "c1") by done. split; vm_compute; reflexivity.
Defined.

(** [c2] sends the hash of the RPC password and is in. *)
Lemma X5_c2_authenticates_witness :
  let s' := ws_challenge "c2" (JStr "sha256:changeme") Sample.wallet_c1 in
  authenticated "c2" s' = true
  ∧ wire "c2" s'
    = WebSocket.received Sample.socket_c2
      ++ [("info", JStr "[WEBSOCKET] Client authenticated with socketId: c2");
          ("auth", JBool true)].
Proof.
  intros s'.
  destruct (X5_matching_challenge_authenticates
              Sample.wallet_c1 "c2" (JStr "sha256:changeme")
              Sample.gateway_c1 Sample.socket_c2)
    as (Hauth & Hwire & _); [reflexivity|reflexivity|reflexivity|].
  split; [exact Hauth|exact Hwire].
Defined.


(** The timer of [c1] finds it among the permitted clients; the timer of
    [c2] disconnects it. *)
Lemma X8_timers_witness :
  ws_auth_timeout "c1" Sample.wallet_c1 = Sample.wallet_c1
  ∧ ws_auth_timeout "c2" Sample.wallet_c1 = ws_disconnect "c2" Sample.wallet_c1.
Proof.
  split.
  - destruct (X8_auth_timeout Sample.wallet_c1 "c1" Sample.gateway_c1) as (Hin & _);
      [reflexivity|].
    apply Hin. apply (bool_decide_unpack _). vm_compute. exact I.
  - destruct (X8_auth_timeout Sample.wallet_c1 "c2" Sample.gateway_c1) as (_ & Hout);
      [reflexivity|].
    apply Hout.
    + intros Hin. apply (bool_decide_pack _) in Hin. vm_compute in Hin. exact Hin.
    + by eexists.
Defined.

(** [c3] is permitted after it connected and answered the challenge: the
    answer is among the inputs and equals the stored hash. *)
Lemma X9_c3_was_challenged_witness :
  ∃ pw, InChallenge "c3" pw
        ∈ [InConnection "c3"; InPoll (Rejected JNull);
           InChallenge "c3" (JStr "sha256:changeme")]
        ∧ strict_eq pw (WebSocket.password Sample.gateway_c1) = true.
Proof.
  apply (X9_only_a_matching_challenge_permits
           [InConnection "c3"; InPoll (Rejected JNull);
            InChallenge "c3" (JStr "sha256:changeme")]
           Sample.wallet_c1 "c3" Sample.gateway_c1).
  - reflexivity.
  - intros Hin. apply (bool_decide_pack _) in Hin. vm_compute in Hin. exact Hin.
  - apply (bool_decide_unpack _). vm_compute. exact I.
Defined.

(** A client that comes, passes the handshake and goes leaves no permitted
    client without a socket. *)
Lemma X10_come_and_go_witness :
  Gateway.permitted_are_connected
    (run [InConnection "c1"; InChallenge "c1" (JStr "sha256:changeme");
          InDisconnect "c1"] Sample.wallet).
Proof.
  apply X10_permitted_clients_stay_connected.
  intros w id Hw Hin. vm_compute in Hw. injection Hw as <-.
  by apply not_elem_of_empty in Hin.
Defined.

(** A request of [c1] with the nonce 111: the nonce is kept, [nonce()] is
    not called and nothing is emitted. *)
Lemma X13_request_with_nonce_witness :
  ∃ p s',
    ws_request "c1" "getStatus" (Sample.json_nonce "111") Sample.wallet_c1 = ([p], s')
    ∧ nonceCalls s' = nonceCalls Sample.wallet_c1
    ∧ emitted s' = emitted Sample.wallet_c1.
Proof.
  destruct (X13_payload_passes_through
              Sample.wallet_c1 "c1" "getStatus" (Sample.json_nonce "111")
              Sample.gateway_c1 Sample.socket_c1 [("nonce", JNum 111)])
    as (p & s' & Hreq & _ & Hcalls & Hem & _);
    [reflexivity|reflexivity|reflexivity| |reflexivity|].
  - apply (bool_decide_unpack _). vm_compute. exact I.
  - exists p, s'. split; [exact Hreq|]. split; [|exact Hem].
    rewrite Hcalls. cbn. lia.
Defined.

(** After two failed polls the down timer has fired; three more failures
    emit three more [error] and no further [down]. *)
Lemma X16_long_outage_witness :
  let s := run_polls [Rejected JNull; Rejected JNull] Sample.wallet in
  let s' := run_polls (Rejected <$> [JNull; JNull; JNull]) s in
  count_emitted "down" s = 1%nat
  ∧ count_emitted "down" s' = 1%nat
  ∧ count_emitted "error" s' = 5%nat.
Proof.
  intros s s'.
  destruct (X16_one_down_per_outage [JNull; JNull; JNull] s
              {| due := 10030; fired := true |}) as (Hdown & _ & Herr);
    [vm_compute; reflexivity|reflexivity|].
  split; [vm_compute; reflexivity|]. split.
  - subst s'. rewrite Hdown. vm_compute. reflexivity.
  - subst s'. rewrite Herr. vm_compute. reflexivity.
Defined.

(** Ten blocks behind, then one block behind: [synced] is emitted by the
    second reply. *)
Lemma X17_behind_then_near_witness :
  let s1 := poll_cycle (Resolved Sample.reply_90_of_100) Sample.wallet in
  let s2 := poll_cycle (Resolved Sample.reply_99_of_100) s1 in
  synced s1 = false ∧ synced s2 = true
  ∧ count_emitted "synced" s2 = S (count_emitted "synced" Sample.wallet).
Proof.
  intros s1 s2.
  destruct (X17_synced_again_after_falling_behind
              Sample.reply_90_of_100 Sample.reply_99_of_100 Sample.wallet)
    as (H1 & _ & H2 & H3); [reflexivity|reflexivity|reflexivity|].
  split; [exact H1|]. split; [exact H2|exact H3].
Defined.

(** A wallet one block ahead of the network is not made synced. *)
Lemma X18_wallet_ahead_witness :
  synced (poll_cycle (Resolved Sample.reply_101_of_100) Sample.wallet) = false.
Proof.
  destruct (X18_reply_ahead_of_the_network Sample.reply_101_of_100 Sample.wallet)
    as (Hs & _); [reflexivity|].
  rewrite Hs. reflexivity.
Defined.

(** The line with the wrong-password marker ends the chunk: the line
    before it is emitted, the line after it is not. *)
Lemma X20_chunk_with_wrong_password_witness :
  let s' := on_child_data ["Opening wallet"; "The password is wrong"; "Bye"]
              Sample.wallet in
  Console.data_events s' = [("data", [JStr "Opening wallet"])]
  ∧ exited s' = Some 1.
Proof.
  intros s'.
  destruct (X20_console_lines_are_emitted_in_order
              ["Opening wallet"; "The password is wrong"; "Bye"] Sample.wallet)
    as (Hd & He); [reflexivity|].
  split; [exact Hd|exact He].
Defined.

(** The example wallet: no interval before the console shows that the
    wallet is loaded, the polling and save intervals after. *)
Lemma X21_wallet_loaded_witness :
  step (InPoll (Rejected JNull)) Sample.wallet = Sample.wallet
  ∧ pollingIntervalPtr (step (InChildData ["Wallet loading is finished"]) Sample.wallet)
    = true
  ∧ scanIntervalPtr (step (InChildData ["Wallet loading is finished"]) Sample.wallet)
    = false.
Proof.
  destruct (X21_intervals_start_with_the_loaded_wallet
              Sample.opts_wallet Sample.wallet "Wallet loading is finished")
    as (Hpoll & _ & _ & _ & Hp & _ & Hscan);
    [reflexivity|reflexivity|reflexivity|reflexivity|reflexivity|].
  split; [apply Hpoll|]. split; [exact Hp|exact Hscan].
Defined.

(** The example wallet is spawned with an empty first argument. *)
Lemma X22_wallet_arguments_witness :
  ∃ rest, spawned (start Sample.wallet).2
          = [(path (conf Sample.wallet), "" :: rest)].
Proof.
  apply (X22_spawned_with_an_empty_first_argument Sample.wallet). reflexivity.
Defined.

(** Cursor 1 and 501 known blocks: the first call ends at 500, the second
    fetches block 500 alone and ends at 501. *)
Lemma X25_backlog_500_witness :
  let s2 := run [InScanTick; InScanSettle 0 (Resolved [])] Sample.wallet_behind in
  let s4 := run [InScanTick; InScanSettle 0 (Resolved [JStr "tx"])] s2 in
  scanHeight s2 = 500 ∧ scanHeight s4 = 501 ∧ step InScanTick s4 = s4.
Proof.
  apply (X25_catching_up_takes_two_ticks Sample.wallet_behind [] [JStr "tx"]);
    try reflexivity.
  vm_compute. split; reflexivity.
Defined.

(** Two ticks in a row at cursor 1 both ask for blocks 1 to 499; the one
    transaction of the range is emitted twice. *)
Lemma X26_same_range_twice_witness :
  let rq := {| firstBlockIndex := 1; scan_blockCount := 499 |} in
  let s2 := run [InScanTick; InScanTick] Sample.wallet_behind in
  let s4 := run [InScanSettle 0 (Resolved [JStr "tx"]);
                 InScanSettle 0 (Resolved [JStr "tx"])] s2 in
  scansInFlight s2 = [rq; rq]
  ∧ emitted s4 = emitted s2 ++ [("transaction", [JStr "tx"]); ("transaction", [JStr "tx"])]
  ∧ snd <$> stored s4 = [("scanHeight", 500); ("scanHeight", 500)].
Proof.
  intros rq s2 s4.
  destruct (X26_ticks_do_not_wait Sample.wallet_behind [JStr "tx"])
    as (Hfl & Hem & Hst & _); try reflexivity.
  split; [exact Hfl|]. split; [exact Hem|exact Hst].
Defined.


(** The gateway of the example wallet stores the hash of [changeme]; the
    gateway of a service in legacy mode, without a password, stores
    [false]. *)
Lemma X28_gateway_passwords_witness :
  (∃ w, webSocket Sample.wallet = Some w
        ∧ WebSocket.password w = JStr "sha256:changeme" ∧ WebSocket.port w = 17071)
  ∧ (∃ w, webSocket Sample.service_zeros = Some w
          ∧ WebSocket.password w = JBool false
          ∧ strict_eq (JBool false) (WebSocket.password w) = true).
Proof.
  split.
  - destruct (X28_gateway_of_the_service Sample.opts_wallet Sample.wallet)
      as (w & Hw & _ & _ & Hport & Hpw & _); [reflexivity|].
    exists w. split; [exact Hw|]. split; [exact Hpw|exact Hport].
  - destruct (X28_gateway_of_the_service Sample.opts_zeros Sample.service_zeros)
      as (w & Hw & _ & _ & _ & Hpw & Hfalse); [reflexivity|].
    exists w. split; [exact Hw|]. split; [exact Hpw|].
    by apply (Hfalse eq_refl).
Defined.
